(** * Computer-Vision-x-Arduino: a shallow embedding of the classification
      heuristics and of the serial channel

    Sources: [FacialExpression.py] (mouth-shape classifier, expression loop),
    [_5Fingers.py] (finger counter, gesture loop) and [serial_test.py]
    (the port test utility).

    Conventions of the embedding.
    - Python ints are [Z].  Python floats are modelled twice: as IEEE 754
      binary64 numbers ([Py.double], Rocq's primitive floats) where a
      statement is about the value an arithmetic expression returns, and
      as exact rationals ([Q]) where it is about comparisons and about
      which values are stored, sent or counted; in the rational reading
      rounding error, NaN and infinities are left out.
    - A computation that can raise is a [result]; [None] stands for the
      raised exception ([IndexError], [ZeroDivisionError], [ValueError],
      [OverflowError]).  The library limits are those of CPython 3.11 on a
      64-bit platform.
    - What the serial device does (accepting or refusing a write, accepting
      or refusing an open) is decided by the environment and is passed in as
      an explicit outcome.
    - Observable actions are recorded as a list of [event]s. *)

From Stdlib Require Import ZArith QArith Qround Qabs List String Ascii Bool Lia.
From Stdlib Require Import DecimalString DecimalPos DecimalZ.
From Stdlib Require PrimFloat Uint63 SpecFloat FloatOps.
Import ListNotations.

Local Open Scope Z_scope.

(** ** Python primitives *)

Module Py.

(** A computation that may raise. *)
Definition result (A : Type) : Type := option A.

Definition ret {A} (a : A) : result A := Some a.

Definition bind {A B} (m : result A) (k : A -> result B) : result B :=
  match m with
  | Some a => k a
  | None => None
  end.

(** The largest [Py_ssize_t], [2^63 - 1] on the 64-bit platforms the
    programs run on. *)
Definition ssize_max : Z := 9223372036854775807.

(** [collections.deque(maxlen=n)]: the constructor raises [ValueError] for
    a negative [maxlen] and [OverflowError] for one above [ssize_max]. *)
Record deque (A : Type) : Type := mk_deque { maxlen : Z; items : list A }.
Arguments mk_deque {A} _ _.
Arguments maxlen {A} _.
Arguments items {A} _.

Definition deque_new {A} (n : Z) : result (deque A) :=
  if n <? 0 then None
  else if ssize_max <? n then None
  else Some (mk_deque n []).

(** [d.append(x)]: the new item goes to the right end; a deque longer than
    [maxlen] drops its leftmost item. *)
Definition deque_append {A} (d : deque A) (x : A) : deque A :=
  let b := (items d ++ [x])%list in
  mk_deque (maxlen d)
    (if maxlen d <? Z.of_nat (List.length b) then tl b else b).

Definition len {A} (l : list A) : Z := Z.of_nat (List.length l).

(** A Python float: an IEEE 754 binary64 number. *)
Definition double : Set := PrimFloat.float.

(** [float(n)] for a length [n], [0 <= n <= ssize_max]: the nearest
    double. *)
Definition double_of_len (n : Z) : double :=
  PrimFloat.of_uint63 (Uint63.of_Z n).

(** [sum(xs)] on floats: [0 + xs[0] + xs[1] + ..], each addition rounded
    (CPython up to 3.11; later versions add a compensation term). *)
Definition sum_double (l : list double) : double :=
  fold_left PrimFloat.add l PrimFloat.zero.

(** [x / n] for a float [x] and a length [n]: [ZeroDivisionError] when [n]
    is zero, else the rounded quotient. *)
Definition div_by_len (x : double) (n : Z) : result double :=
  if n =? 0 then None else Some (PrimFloat.div x (double_of_len n)).

(** The integer nearest to [n / d] for positive [n] and [d], ties to the
    even one. *)
Definition nearest_quotient (n d : Z) : Z :=
  let q := n / d in
  let r := n mod d in
  if 2 * r <? d then q
  else if d <? 2 * r then q + 1
  else if Z.even q then q else q + 1.

(** [a / b] on ints: [ZeroDivisionError] for [b = 0], else the double
    nearest to the exact quotient (ties to even, gradual underflow), or
    [OverflowError] when that is beyond the doubles. *)
Definition truediv_int (a b : Z) : result double :=
  if b =? 0 then None
  else
    let negative := xorb (a <? 0) (b <? 0) in
    let sign (x : double) := if negative then PrimFloat.opp x else x in
    let n := Z.abs a in
    let d := Z.abs b in
    if n =? 0 then Some (sign PrimFloat.zero)
    else
      let k := Z.log2 n - Z.log2 d in
      let above := if 0 <=? k then d * 2 ^ k <=? n
                   else d <=? n * 2 ^ (- k) in
      let l := if above then k else k - 1 in
      let e := Z.max (l - 52) (-1074) in
      let m := if 0 <=? e then nearest_quotient n (d * 2 ^ e)
               else nearest_quotient (n * 2 ^ (- e)) d in
      if 1024 <=? Z.log2 m + e then None
      else Some (sign (FloatOps.Z.ldexp (PrimFloat.of_uint63 (Uint63.of_Z m)) e)).

(** The rational that a finite double is. *)
Definition exact_value (x : double) : option Q :=
  match FloatOps.Prim2SF x with
  | SpecFloat.S754_zero _ => Some 0%Q
  | SpecFloat.S754_finite s m e =>
      let v := if 0 <=? e then inject_Z (Zpos m * 2 ^ e)
               else Qmake (Zpos m) (Z.to_pos (2 ^ (- e))) in
      Some (if s then Qopp v else v)
  | _ => None
  end.

(** [sum(xs)]: left to right, starting from [0]. *)
Definition sum_float (l : list Q) : Q := fold_left Qplus l (0%Q).
Definition sum_int (l : list Z) : Z := fold_left Z.add l 0.

(** [a / b]: raises [ZeroDivisionError] when [b] is zero. *)
Definition truediv (a b : Q) : result Q :=
  if Qeq_bool b 0 then None else Some (a / b)%Q.

Definition Qltb (a b : Q) : bool := negb (Qle_bool b a).

(** [round(q)] with one argument: nearest integer, ties to the even one. *)
Definition round (q : Q) : Z :=
  let f := Qfloor q in
  let r := (q - inject_Z f)%Q in
  if Qltb r (1 # 2) then f
  else if Qltb (1 # 2) r then f + 1
  else if Z.even f then f else f + 1.

(** [max(xs)] and [min(xs)] raise [ValueError] on an empty sequence. *)
Definition max_of (l : list Q) : result Q :=
  match l with
  | [] => None
  | x :: t => Some (fold_left (fun m y => if Qltb m y then y else m) t x)
  end.

Definition min_of (l : list Q) : result Q :=
  match l with
  | [] => None
  | x :: t => Some (fold_left (fun m y => if Qltb y m then y else m) t x)
  end.

(** [xs[i]] for a non-negative constant index. *)
Definition index {A} (l : list A) (i : nat) : result A := nth_error l i.

(** Strings: a [str] is read as the sequence of its code points, which the
    model takes below 256.  [str.isspace] holds of the ASCII and Latin-1
    white space; [str.lower] maps A-Z and the Latin-1 capitals. *)
Definition is_space (c : ascii) : bool :=
  let n := nat_of_ascii c in
  ((9 <=? n) && (n <=? 13) || (28 <=? n) && (n <=? 32)
   || (n =? 133) || (n =? 160))%nat.

Definition lower_char (c : ascii) : ascii :=
  let n := nat_of_ascii c in
  if ((65 <=? n) && (n <=? 90)
      || (192 <=? n) && (n <=? 222) && negb (n =? 215))%nat
  then ascii_of_nat (n + 32) else c.

Fixpoint lower (s : string) : string :=
  match s with
  | EmptyString => EmptyString
  | String c t => String (lower_char c) (lower t)
  end.

Fixpoint lstrip (s : string) : string :=
  match s with
  | EmptyString => EmptyString
  | String c t => if is_space c then lstrip t else s
  end.

Fixpoint rev_onto (s acc : string) : string :=
  match s with
  | EmptyString => acc
  | String c t => rev_onto t (String c acc)
  end.

Definition reverse (s : string) : string := rev_onto s EmptyString.

Definition rstrip (s : string) : string := reverse (lstrip (reverse s)).

Definition strip (s : string) : string := rstrip (lstrip s).

(** Truth value of an [Optional[str]]: [None] and [''] are false. *)
Definition truthy (s : option string) : bool :=
  match s with
  | Some (String _ _) => true
  | _ => false
  end.

(** [x or '']. *)
Definition or_empty (s : option string) : string :=
  match s with
  | Some t => t
  | None => EmptyString
  end.

Definition newline : string := String (ascii_of_nat 10) EmptyString.

(** The decimal numeral of [n] followed by a newline. *)
Definition line_of_int (n : Z) : string :=
  (NilZero.string_of_int (Z.to_int n) ++ newline)%string.

(** The most digits an int may have when it is converted to a string
    ([sys.get_int_max_str_digits()], as CPython 3.11 sets it). *)
Definition int_max_str_digits : Z := 4300.

(** [f"{n}\n"] for an int [n]: [ValueError] when [n] has more digits than
    the limit, else its numeral and a newline. *)
Definition format_line (n : Z) : result string :=
  if 10 ^ int_max_str_digits <=? Z.abs n then None
  else Some (line_of_int n).

(** [time.sleep(secs)]: [ValueError] for a negative length,
    [OverflowError] for one of [2^63] nanoseconds or more; otherwise it
    returns when the time has passed. *)
Definition sleep (secs : Q) : result unit :=
  if Qltb secs 0 then None
  else if Qle_bool (inject_Z (2 ^ 63)) (secs * inject_Z (10 ^ 9)) then None
  else Some tt.

(** [mapping[key]] / [key in mapping] on a dict literal. *)
Fixpoint dict_get (m : list (string * Z)) (k : string) : option Z :=
  match m with
  | [] => None
  | (k', v) :: t => if String.eqb k k' then Some v else dict_get t k
  end.

End Py.

Notation "x <- m ;; k" := (Py.bind m (fun x => k))
  (at level 61, m at next level, right associativity).

(** ** The smoothing window

    Both loops smooth with [buf.append(v)] followed by
    [sum(buf) / len(buf)]. *)

Module Smoother.
Import Py.

(** [buf.append(v); sum(buf) / len(buf)] on a buffer of floats
    (FacialExpression.py, lines 168-171), in double arithmetic. *)
Definition push_double (d : deque double) (v : double)
    : deque double * result double :=
  let d' := deque_append d v in
  (d', div_by_len (sum_double (items d')) (len (items d'))).

(** The same on the buffer of integer counts (_5Fingers.py, lines
    212-213, before [int(round(..))]): an exact integer sum, then the true
    division of two ints. *)
Definition push_count (d : deque Z) (v : Z) : deque Z * result double :=
  let d' := deque_append d v in
  (d', truediv_int (sum_int (items d')) (len (items d'))).

(** The two pushes in the rational reading of floats, in which the sum
    and the quotient are exact; the loops below are written in this
    reading. *)
Definition push (d : deque Q) (v : Q) : deque Q * result Q :=
  let d' := deque_append d v in
  (d', truediv (sum_float (items d')) (inject_Z (len (items d')))).

Definition push_int (d : deque Z) (v : Z) : deque Z * result Q :=
  let d' := deque_append d v in
  (d', truediv (inject_Z (sum_int (items d'))) (inject_Z (len (items d')))).

(** The buffer after a sequence of pushes. *)
Definition feed {A} (d : deque A) (vs : list A) : deque A :=
  fold_left deque_append vs d.

(** The last [n] elements of a list. *)
Definition lastn {A} (n : nat) (l : list A) : list A :=
  skipn (List.length l - n) l.

(** The arithmetic mean as the specification words it: the sum of the
    values over their number. *)
Definition arithmetic_mean (l : list Q) : Q :=
  (fold_right Qplus 0 l / inject_Z (Z.of_nat (List.length l)))%Q.

End Smoother.

(** ** The serial channel ([SerialClient] of both files) *)

Module Serial.
Import Py.

(** What a client does that can be observed from outside. *)
Inductive event : Type :=
| Ev_send_signal (label : option string) (* [send_signal] entered *)
| Ev_send_count (n : Z)                  (* [send_count] entered *)
| Ev_open (dev : string)                 (* [serial.Serial(dev, ..)] returned *)
| Ev_open_error (dev : string)           (* it raised [SerialException] *)
| Ev_write (msg : string)                (* [ser.write(msg)] returned *)
| Ev_write_error (msg : string)          (* [ser.write(msg)] raised *)
| Ev_close.                              (* [ser.close()] called *)

(** The bytes that reached the device. *)
Fixpoint wire (evs : list event) : string :=
  match evs with
  | [] => EmptyString
  | Ev_write msg :: t => (msg ++ wire t)%string
  | _ :: t => wire t
  end.

Definition is_send (e : event) : bool :=
  match e with
  | Ev_send_signal _ | Ev_send_count _ => true
  | _ => false
  end.

Definition is_port_action (e : event) : bool :=
  match e with
  | Ev_open _ | Ev_open_error _ | Ev_write _ | Ev_write_error _ => true
  | _ => false
  end.

(** The number of calls of the channel's send operation. *)
Definition sends (evs : list event) : nat :=
  List.length (filter is_send evs).

(** A [serial.Serial] object. *)
Record handle : Type := mk_handle { device : string }.

Record SerialClient : Type := mk_client {
  port : option string;
  baud : Z;
  retries : Z;
  delay : Q;
  _ser : option handle;
  _available : bool
}.

Definition contains (needle hay : string) : bool :=
  match String.index 0 needle hay with
  | Some _ => true
  | None => false
  end.

(** How the attempts on a device end. *)
Inductive attempts : Type :=
| Opened (s : handle)  (* one was accepted, [open] returns *)
| Refused              (* all were refused *)
| Aborted.             (* [time.sleep(self.delay)] raised *)

(** The attempts [attempt], [attempt + 1], .. on one device; [can_open]
    is the environment's answer to each attempt.  After a refused attempt
    the loop sleeps for [delay] seconds, outside the [try]; after an
    accepted one it sleeps for 0.1 seconds, which returns. *)
Fixpoint try_open (can_open : string -> Z -> bool) (delay : Q) (p : string)
    (attempt : Z) (left : nat) : attempts * list event :=
  match left with
  | O => (Refused, [])
  | S left' =>
      if can_open p attempt then (Opened (mk_handle p), [Ev_open p])
      else
        match sleep delay with
        | None => (Aborted, [Ev_open_error p])
        | Some _ =>
            let '(r, evs) := try_open can_open delay p (attempt + 1) left' in
            (r, Ev_open_error p :: evs)
        end
  end.

Fixpoint open_candidates (can_open : string -> Z -> bool) (n : Z) (delay : Q)
    (candidates : list string) : attempts * list event :=
  match candidates with
  | [] => (Refused, [])
  | p :: rest =>
      match try_open can_open delay p 1 (Z.to_nat n) with
      | (Refused, evs) =>
          let '(r, evs') := open_candidates can_open n delay rest in
          (r, (evs ++ evs')%list)
      | r => r
      end
  end.

(** [SerialClient.open]: the client afterwards, what was done, and whether
    an exception left the method. *)
Definition open (self : SerialClient) (comports : list string)
    (can_open : string -> Z -> bool) : SerialClient * list event * bool :=
  let candidates :=
    if truthy (port self) then [or_empty (port self)]
    else filter (fun d => contains "ACM" d || contains "USB" d) comports in
  match open_candidates can_open (retries self) (delay self) candidates with
  | (Opened s, evs) =>
      (mk_client (port self) (baud self) (retries self) (delay self)
         (Some s) true, evs, false)
  | (Refused, evs) => (self, evs, false)
  | (Aborted, evs) => (self, evs, true)
  end.

(** [SerialClient.__init__]; [have_serial] says whether the import of
    pyserial succeeded.  No client is obtained when [open] raises. *)
Definition init (have_serial : bool) (p : option string) (b : Z)
    (retries : Z) (delay : Q) (comports : list string)
    (can_open : string -> Z -> bool) : result SerialClient * list event :=
  let self := mk_client p b retries delay None false in
  if truthy p && have_serial then
    match open self comports can_open with
    | (self', evs, false) => (Some self', evs)
    | (_, evs, true) => (None, evs)
    end
  else (Some self, []).

(** The defaults of [__init__]: [retries = 3], [delay = 1.0]. *)
Definition default_retries : Z := 3.
Definition default_delay : Q := 1.

Definition usable (self : SerialClient) : bool :=
  _available self && match _ser self with Some _ => true | None => false end.

(** What both send methods do when formatting or [ser.write] raises. *)
Definition failed (self : SerialClient) : SerialClient :=
  mk_client (port self) (baud self) (retries self) (delay self) None false.

Definition mapping : list (string * Z) :=
  [("neutral"%string, 2); ("smile"%string, 3); ("frown"%string, 1)].

(** [SerialClient.send_signal] (FacialExpression.py); [write_ok] is the
    device's answer to a write, should one be made. *)
Definition send_signal (self : SerialClient) (label : option string)
    (write_ok : bool) : bool * SerialClient * list event :=
  if negb (usable self) then (false, self, [Ev_send_signal label])
  else
    let key := lower (strip (or_empty label)) in
    match dict_get mapping key with
    | None => (false, self, [Ev_send_signal label])
    | Some val =>
        match format_line val with
        | None => (false, failed self, [Ev_send_signal label; Ev_close])
        | Some msg =>
            if write_ok then (true, self, [Ev_send_signal label; Ev_write msg])
            else (false, failed self,
                  [Ev_send_signal label; Ev_write_error msg; Ev_close])
        end
    end.

(** [SerialClient.send_count] (_5Fingers.py).  The line is formatted
    inside the [try], so a count too long to format ends as a failed write
    does, without a write. *)
Definition send_count (self : SerialClient) (n : Z) (write_ok : bool)
    : bool * SerialClient * list event :=
  if negb (usable self) then (false, self, [Ev_send_count n])
  else
    match format_line n with
    | None => (false, failed self, [Ev_send_count n; Ev_close])
    | Some msg =>
        if write_ok then (true, self, [Ev_send_count n; Ev_write msg])
        else (false, failed self,
              [Ev_send_count n; Ev_write_error msg; Ev_close])
    end.

(** [SerialClient.close]. *)
Definition close (self : SerialClient) : SerialClient * list event :=
  match _ser self with
  | Some _ => (failed self, [Ev_close])
  | None => (self, [])
  end.

(** A sequence of calls of the send methods on one client, each with the
    device's answer should it come to a write. *)
Inductive call : Type :=
| Call_signal (label : option string) (write_ok : bool)
| Call_count (n : Z) (write_ok : bool).

Definition do_call (self : SerialClient) (k : call)
    : bool * SerialClient * list event :=
  match k with
  | Call_signal label ok => send_signal self label ok
  | Call_count n ok => send_count self n ok
  end.

Fixpoint do_calls (self : SerialClient) (ks : list call)
    : list bool * SerialClient * list event :=
  match ks with
  | [] => ([], self, [])
  | k :: rest =>
      let '(sent, self', evs) := do_call self k in
      let '(sents, self'', evs') := do_calls self' rest in
      (sent :: sents, self'', (evs ++ evs')%list)
  end.

(** The lines of the wire format: a code of the expression variant, a
    count of the gesture variant. *)
Definition signal_line (msg : string) : Prop :=
  In msg (map line_of_int [1; 2; 3]).

Definition count_line (msg : string) : Prop :=
  In msg (map line_of_int [0; 1; 2; 3; 4; 5]).

Definition in_range (c : Z) : Prop := 0 <= c <= 5.

(** The messages written, one per successful write. *)
Fixpoint written (evs : list event) : list string :=
  match evs with
  | [] => []
  | Ev_write msg :: t => msg :: written t
  | _ :: t => written t
  end.

End Serial.

(** ** Landmarks of the perception service *)

Module Mp.
Record Landmark : Type := mk_lm { x : Q; y : Q }.

(** Truth value of [results.multi_face_landmarks] and of
    [results.multi_hand_landmarks]: [None] and the empty list are false. *)
Definition detected {A} (found : option (list A)) : bool :=
  match found with
  | Some (_ :: _) => true
  | _ => false
  end.
End Mp.

(** ** The expression pipeline (FacialExpression.py) *)

Module Expression.
Import Py Serial Mp.

Definition DEFAULT_SMOOTH : Z := 6.

Definition L_IDX : nat := 61.   (* left mouth corner *)
Definition R_IDX : nat := 291.  (* right mouth corner *)
Definition U_IDX : nat := 13.   (* upper inner lip *)
Definition B_IDX : nat := 14.   (* lower inner lip *)

Definition eps : Q := 1 # 1000000.

Record SmileDetector : Type := mk_detector {
  mouth_buf : deque Q;
  corner_buf : deque Q;
  smile_thresh : Q;
  frown_thresh : Q;
  corner_margin : Q
}.

(** [SmileDetector.__init__]. *)
Definition SmileDetector_init (buf_size : Z) (smile frown margin : Q)
    : result SmileDetector :=
  mb <- deque_new (Z.max 1 buf_size) ;;
  cb <- deque_new (Z.max 1 buf_size) ;;
  ret (mk_detector mb cb smile frown margin).

(** The detector that [run] builds: [SmileDetector(buf_size=smooth)]. *)
Definition default_detector (smooth : Z) : result SmileDetector :=
  SmileDetector_init smooth (32 # 100) (22 # 100) (15 # 1000).

(** The thresholding at the end of [compute] (lines 173-179). *)
Definition heuristics (self : SmileDetector) (avg_w avg_corner : Q)
    : string :=
  if Qle_bool (smile_thresh self) avg_w
     && Qltb avg_corner (- corner_margin self)
  then "smile"%string
  else if Qle_bool avg_w (frown_thresh self)
          && Qltb (corner_margin self) avg_corner
  then "frown"%string
  else "neutral"%string.

(** The two conditions of the thresholding, as propositions. *)
Definition smile_condition (self : SmileDetector) (avg_w avg_corner : Q) : Prop :=
  (smile_thresh self <= avg_w)%Q /\ (avg_corner < - corner_margin self)%Q.

Definition frown_condition (self : SmileDetector) (avg_w avg_corner : Q) : Prop :=
  (avg_w <= frown_thresh self)%Q /\ (corner_margin self < avg_corner)%Q.

Section WithHypot.

(** [math.hypot], which has no rational model, is left open. *)
Variable hypot : Q -> Q -> Q.

(** The raw measurements of one frame (lines 142-165):
    [(mouth_w_norm, corner_diff_norm, mouth_w, mouth_h)]. *)
Definition measure (lms : list Landmark) (img_w img_h : Z)
    : result (Q * Q * Q * Q) :=
  let W := inject_Z img_w in
  let H := inject_Z img_h in
  l <- index lms L_IDX ;;
  r <- index lms R_IDX ;;
  u <- index lms U_IDX ;;
  b <- index lms B_IDX ;;
  let left_x := (x l * W)%Q in let left_y := (y l * H)%Q in
  let right_x := (x r * W)%Q in let right_y := (y r * H)%Q in
  let top_x := (x u * W)%Q in let top_y := (y u * H)%Q in
  let bottom_x := (x b * W)%Q in let bottom_y := (y b * H)%Q in
  let mouth_w := hypot (right_x - left_x) (right_y - left_y) in
  let mouth_h := (hypot (bottom_x - top_x) (bottom_y - top_y) + eps)%Q in
  ratio <- truediv mouth_w mouth_h ;;
  let xs := map (fun p => (x p * W)%Q) lms in
  let ys := map (fun p => (y p * H)%Q) lms in
  max_x <- max_of xs ;; min_x <- min_of xs ;;
  let face_w := (max_x - min_x + eps)%Q in
  max_y <- max_of ys ;; min_y <- min_of ys ;;
  let face_h := (max_y - min_y + eps)%Q in
  mouth_w_norm <- truediv mouth_w face_w ;;
  let corners_mean_y := ((left_y + right_y) / 2)%Q in
  let mouth_center_y := ((top_y + bottom_y) / 2)%Q in
  let corner_diff := (corners_mean_y - mouth_center_y)%Q in
  corner_diff_norm <- truediv corner_diff face_h ;;
  ret (mouth_w_norm, corner_diff_norm, mouth_w, mouth_h).

(** [SmileDetector.compute]: the detector after the call and the
    returned [(label, mouth_w_norm, mouth_w, mouth_h)]. *)
Definition compute (self : SmileDetector) (lms : list Landmark)
    (img_w img_h : Z) : result (SmileDetector * (string * Q * Q * Q)) :=
  m <- measure lms img_w img_h ;;
  let '(mouth_w_norm, corner_diff_norm, mouth_w, mouth_h) := m in
  let '(mb, avg_w) := Smoother.push (mouth_buf self) mouth_w_norm in
  let '(cb, avg_corner) := Smoother.push (corner_buf self) corner_diff_norm in
  avg_w <- avg_w ;;
  avg_corner <- avg_corner ;;
  let self' := mk_detector mb cb (smile_thresh self) (frown_thresh self)
                 (corner_margin self) in
  ret (self', (heuristics self avg_w avg_corner, mouth_w_norm, mouth_w, mouth_h)).

(** The variables of [run] that live across frames. *)
Record run_state : Type := mk_run {
  detector : SmileDetector;
  prev_label : option string;
  serial_client : option SerialClient
}.

(** What one frame brings: the faces found by the perception service
    ([None] or a list), the frame size, and the device's answer to a
    write. *)
Record frame : Type := mk_frame {
  faces : option (list (list Landmark));
  w : Z;
  h : Z;
  write_ok : bool
}.

Definition same_label (a : string) (b : option string) : bool :=
  match b with
  | Some s => String.eqb a s
  | None => false
  end.

(** Lines 244-247: send over serial if available and changed. *)
Definition send_if_changed (client : option SerialClient)
    (prev : option string) (label : string) (ok : bool)
    : option SerialClient * option string * list event :=
  match client with
  | Some c =>
      if negb (same_label label prev) then
        let '(sent, c', evs) := send_signal c (Some label) ok in
        (Some c', if sent then Some label else prev, evs)
      else (client, prev, [])
  | None => (client, prev, [])
  end.

(** The same over a sequence of labels, one per frame. *)
Fixpoint send_each (client : option SerialClient) (prev : option string)
    (frames : list (string * bool))
    : option SerialClient * option string * list event :=
  match frames with
  | [] => (client, prev, [])
  | (label, ok) :: rest =>
      let '(client', prev', evs) := send_if_changed client prev label ok in
      let '(client'', prev'', evs') := send_each client' prev' rest in
      (client'', prev'', (evs ++ evs')%list)
  end.

(** One iteration of the loop of [run], from the perception result to
    the send (lines 228-247); drawing is left out. *)
Definition run_frame (st : run_state) (fr : frame)
    : result (run_state * list event) :=
  match faces fr with
  | Some (face_landmarks :: _) =>
      _ <- index face_landmarks L_IDX ;;
      _ <- index face_landmarks R_IDX ;;
      r <- compute (detector st) face_landmarks (w fr) (h fr) ;;
      let '(det, (label, _, _, _)) := r in
      let '(client, prev, evs) :=
        send_if_changed (serial_client st) (prev_label st) label
          (write_ok fr) in
      ret (mk_run det prev client, evs)
  | _ => ret (st, [])
  end.

(** The loop over a sequence of frames. *)
Fixpoint run_frames (st : run_state) (frs : list frame)
    : result (run_state * list event) :=
  match frs with
  | [] => ret (st, [])
  | fr :: rest =>
      r <- run_frame st fr ;;
      let '(st', evs) := r in
      r' <- run_frames st' rest ;;
      let '(st'', evs') := r' in
      ret (st'', (evs ++ evs')%list)
  end.

End WithHypot.

End Expression.

(** ** The gesture pipeline (_5Fingers.py) *)

Module Gesture.
Import Py Serial Mp.

Definition DEFAULT_SMOOTH : Z := 5.

Record HandCounter : Type := mk_counter {
  assume_right_hand : bool;
  flipped : bool
}.

(** The thumb rule of [count] (lines 115-139). *)
Definition thumb (self : HandCounter) (handedness_label : option string)
    (thumb_tip thumb_ip : Landmark) : Z :=
  let hand_label :=
    if truthy handedness_label then or_empty handedness_label
    else if assume_right_hand self then "Right"%string else "Left"%string in
  if String.eqb hand_label "Right" then
    if flipped self then
      if Qltb (x thumb_tip) (x thumb_ip) then 1 else 0
    else
      if Qltb (x thumb_ip) (x thumb_tip) then 1 else 0
  else
    if flipped self then
      if Qltb (x thumb_ip) (x thumb_tip) then 1 else 0
    else
      if Qltb (x thumb_tip) (x thumb_ip) then 1 else 0.

(** The loop over the other four finger tips (lines 141-146). *)
Fixpoint others (lm : list Landmark) (tips : list nat) (fingers : Z)
    : result Z :=
  match tips with
  | [] => ret fingers
  | tip_id :: rest =>
      tip <- index lm tip_id ;;
      pip <- index lm (tip_id - 2) ;;
      others lm rest (if Qltb (y tip) (y pip) then fingers + 1 else fingers)
  end.

Definition clamp (fingers : Z) : Z :=
  let fingers := if fingers <? 0 then 0 else fingers in
  if 5 <? fingers then 5 else fingers.

(** [HandCounter.count]. *)
Definition count (self : HandCounter) (lm : list Landmark)
    (handedness_label : option string) : result Z :=
  thumb_tip <- index lm 4 ;;
  thumb_ip <- index lm 3 ;;
  let fingers := 0 + thumb self handedness_label thumb_tip thumb_ip in
  fingers <- others lm [8; 12; 16; 20]%nat fingers ;;
  ret (clamp fingers).

(** The specification's test for a finger other than the thumb: the y of
    the tip landmark is strictly below the y of the proximal joint. *)
Definition extended (lm : list Landmark) (tip_id pip_id : nat) : bool :=
  match index lm tip_id, index lm pip_id with
  | Some tip, Some pip => Qltb (y tip) (y pip)
  | _, _ => false
  end.

(** The variables of [run_camera_loop] that live across frames. *)
Record loop_state : Type := mk_loop {
  hand_counter : HandCounter;
  buffer : deque Z;
  prev_sent : option Z;
  serial_client : option SerialClient
}.

(** What one frame brings: the hands found ([None] or a list), the label
    of the first one when the lookup succeeds, and the device's answer to
    a write. *)
Record frame : Type := mk_frame {
  hands : option (list (list Landmark));
  handedness : option string;
  write_ok : bool
}.

Definition same_count (a : Z) (b : option Z) : bool :=
  match b with
  | Some n => a =? n
  | None => false
  end.

(** Lines 220-223: send to serial if changed. *)
Definition send_if_changed (client : option SerialClient)
    (prev : option Z) (avg : Z) (ok : bool)
    : option SerialClient * option Z * list event :=
  match client with
  | Some c =>
      if negb (same_count avg prev) then
        let '(sent, c', evs) := send_count c avg ok in
        (Some c', if sent then Some avg else prev, evs)
      else (client, prev, [])
  | None => (client, prev, [])
  end.

(** The same over a sequence of values, one per frame. *)
Fixpoint send_each (client : option SerialClient) (prev : option Z)
    (frames : list (Z * bool))
    : option SerialClient * option Z * list event :=
  match frames with
  | [] => (client, prev, [])
  | (avg, ok) :: rest =>
      let '(client', prev', evs) := send_if_changed client prev avg ok in
      let '(client'', prev'', evs') := send_each client' prev' rest in
      (client'', prev'', (evs ++ evs')%list)
  end.

(** One iteration of the loop of [run_camera_loop] (lines 200-223);
    drawing is left out. *)
Definition loop_frame (st : loop_state) (fr : frame)
    : result (loop_state * list event) :=
  detected_count <-
    match hands fr with
    | Some (hand_landmarks :: _) =>
        count (hand_counter st) hand_landmarks (handedness fr)
    | _ => ret 0
    end ;;
  let '(buf, mean) := Smoother.push_int (buffer st) detected_count in
  mean <- mean ;;
  let avg := round mean in
  let '(client, prev, evs) :=
    send_if_changed (serial_client st) (prev_sent st) avg (write_ok fr) in
  ret (mk_loop (hand_counter st) buf prev client, evs).

Fixpoint loop_frames (st : loop_state) (frs : list frame)
    : result (loop_state * list event) :=
  match frs with
  | [] => ret (st, [])
  | fr :: rest =>
      r <- loop_frame st fr ;;
      let '(st', evs) := r in
      r' <- loop_frames st' rest ;;
      let '(st'', evs') := r' in
      ret (st'', (evs ++ evs')%list)
  end.

(** The state at the top of the loop: [HandCounter(True, True)], an empty
    buffer of capacity [max(1, smooth_frames)], nothing sent yet. *)
Definition loop_init (smooth_frames : Z) (client : option SerialClient)
    : result loop_state :=
  buf <- deque_new (Z.max 1 smooth_frames) ;;
  ret (mk_loop (mk_counter true true) buf None client).

End Gesture.

(** ** Sample inputs *)

Module Samples.
Import Py Serial Mp.

(** The double that the literal [0.1] denotes, [3602879701896397 / 2^55]. *)
Definition tenth : double :=
  FloatOps.Z.ldexp (PrimFloat.of_uint63 (Uint63.of_Z 3602879701896397)) (-55).

(** A non-negative stand-in for [math.hypot] on which the model can be
    run; it is [math.hypot] itself when one argument is 0, as it is on the
    sample faces below, whose mouth landmarks share one y. *)
Definition taxicab (a b : Q) : Q := (Qabs a + Qabs b)%Q.

(** A face mesh of 468 landmarks. *)
Definition face : list Landmark :=
  (repeat (mk_lm (1 # 2) (1 # 2)) 61 ++ [mk_lm (4 # 10) (5 # 10)]
   ++ repeat (mk_lm (1 # 2) (1 # 2)) 229 ++ [mk_lm (6 # 10) (5 # 10)]
   ++ repeat (mk_lm (1 # 2) (1 # 2)) 176)%list.

(** A face mesh whose mouth spans a quarter of the face: the face runs
    from x = 0.1 to x = 0.9, the mouth corners sit at 0.4 and 0.6. *)
Definition wide_face : list Landmark :=
  ([mk_lm (1 # 10) (1 # 2); mk_lm (9 # 10) (1 # 2)]
   ++ repeat (mk_lm (1 # 2) (1 # 2)) 59 ++ [mk_lm (4 # 10) (5 # 10)]
   ++ repeat (mk_lm (1 # 2) (1 # 2)) 229 ++ [mk_lm (6 # 10) (5 # 10)]
   ++ repeat (mk_lm (1 # 2) (1 # 2)) 176)%list.

(** A client whose port is open. *)
Definition open_client : SerialClient :=
  mk_client (Some "/dev/ttyACM0"%string) 9600 3 1
    (Some (mk_handle "/dev/ttyACM0"%string)) true.

(** A detector whose thresholds let both tests pass at once:
    [SmileDetector(1, 0.2, 0.3, -0.1)]. *)
Definition overlap_detector : Expression.SmileDetector :=
  Expression.mk_detector (mk_deque 1 []) (mk_deque 1 [])
    (2 # 10) (3 # 10) (- (1 # 10)).

(** The detector of [run] with the default window. *)
Definition default_detector : Expression.SmileDetector :=
  Expression.mk_detector (mk_deque 6 []) (mk_deque 6 [])
    (32 # 100) (22 # 100) (15 # 1000).

(** A hand of 21 landmarks, all fingers folded, and one with the thumb
    tip (landmark 4) left of its joint (landmark 3). *)
Definition fist : list Landmark := repeat (mk_lm (1 # 2) (1 # 2)) 21.

Definition thumb_out : list Landmark :=
  (repeat (mk_lm (1 # 2) (1 # 2)) 3 ++ [mk_lm (45 # 100) (1 # 2)]
   ++ [mk_lm (40 # 100) (1 # 2)] ++ repeat (mk_lm (1 # 2) (1 # 2)) 16)%list.

(** An open right hand in a mirrored image: thumb tip at x = 0.40 left of
    its joint at 0.45; each finger tip (8, 12, 16, 20) at y = 0.30 above
    its joint (6, 10, 14, 18) at y = 0.50. *)
Definition open_hand : list Landmark :=
  let j := mk_lm (1 # 2) (50 # 100) in
  let t := mk_lm (1 # 2) (30 # 100) in
  [j; j; j; mk_lm (45 # 100) (1 # 2); mk_lm (40 # 100) (1 # 2);
   j; j; j; t; j; j; j; t; j; j; j; t; j; j; j; t].

(** The gesture loop after two frames that showed five fingers, and a
    frame without a hand. *)
Definition five_shown : Gesture.loop_state :=
  Gesture.mk_loop (Gesture.mk_counter true true) (mk_deque 5 [5; 5])
    None None.

Definition no_hand : Gesture.frame := Gesture.mk_frame None None true.

(** The expression loop at its start, and a frame without a face. *)
Definition at_start : Expression.run_state :=
  Expression.mk_run default_detector None (Some open_client).

Definition no_face : Expression.frame := Expression.mk_frame None 640 480 true.

(** A frame with the face, and a frame with the open hand. *)
Definition face_frame : Expression.frame :=
  Expression.mk_frame (Some [face]) 640 480 true.

Definition hand_frame : Gesture.frame :=
  Gesture.mk_frame (Some [open_hand]) (Some "Right"%string) true.

End Samples.

(** ** Reading a trace *)

Module Trace.
Import Py Serial.

Definition is_close (e : event) : bool :=
  match e with Ev_close => true | _ => false end.

Definition is_write_error (e : event) : bool :=
  match e with Ev_write_error _ => true | _ => false end.

Definition is_open (e : event) : bool :=
  match e with Ev_open _ => true | _ => false end.

(** The devices on which an open was attempted, in order. *)
Fixpoint attempted (evs : list event) : list string :=
  match evs with
  | [] => []
  | Ev_open d :: t => d :: attempted t
  | Ev_open_error d :: t => d :: attempted t
  | _ :: t => attempted t
  end.

(** The number of events of one kind. *)
Definition count (kind : event -> bool) (evs : list event) : nat :=
  List.length (filter kind evs).

(** No two neighbours of a list are equal. *)
Fixpoint no_repeat {A} (l : list A) : Prop :=
  match l with
  | a :: ((b :: _) as t) => a <> b /\ no_repeat t
  | _ => True
  end.

End Trace.

(** ** Reading a frame *)

Module View.
Import Py Serial Mp.

(** The count that a frame of the gesture loop contributes (_5Fingers.py,
    lines 200-209): that of the first hand, or 0 when there is none. *)
Definition detected_count (hc : Gesture.HandCounter) (fr : Gesture.frame)
    : result Z :=
  match Gesture.hands fr with
  | Some (hand_landmarks :: _) =>
      Gesture.count hc hand_landmarks (Gesture.handedness fr)
  | _ => ret 0
  end.

(** What a frame of the expression loop shows, the device left out. *)
Definition picture (fr : Expression.frame)
    : option (list (list Landmark)) * Z * Z :=
  (Expression.faces fr, Expression.w fr, Expression.h fr).

(** What a frame of the gesture loop shows, the device left out. *)
Definition hand_picture (fr : Gesture.frame)
    : option (list (list Landmark)) * option string :=
  (Gesture.hands fr, Gesture.handedness fr).

(** The code that [send_signal] transmits for a label, if any. *)
Definition code_of (label : string) : option Z :=
  dict_get mapping (lower (strip label)).

(** The last message written, if any. *)
Definition last_written (evs : list event) : option string :=
  match rev (written evs) with
  | [] => None
  | msg :: _ => Some msg
  end.

(** The number of frames in which a face was found. *)
Definition seen (frs : list Expression.frame) : nat :=
  List.length (filter (fun fr => detected (Expression.faces fr)) frs).

(** A landmark set seen in a mirror: every x becomes 1 - x. *)
Definition mirror (lm : list Landmark) : list Landmark :=
  map (fun p => mk_lm (1 - x p) (y p)) lm.

(** The trace so far agrees with the value last sent by the gesture loop:
    no two consecutive messages are equal and the last one is that
    value's. *)
Definition count_inv (prev : option Z) (pre : list event) : Prop :=
  Trace.no_repeat (written pre)
  /\ last_written pre = option_map line_of_int prev.

(** The labels that the classifier returns. *)
Definition labels : list string := ["smile"; "frown"; "neutral"]%string.

(** The same for the expression loop, whose last value is a label. *)
Definition label_inv (prev : option string) (pre : list event) : Prop :=
  Trace.no_repeat (written pre)
  /\ match prev with
     | None => last_written pre = None
     | Some l =>
         In l labels
         /\ last_written pre = option_map line_of_int (code_of l)
     end.

End View.

(** ** The port test utility (serial_test.py) *)

Module SerialTest.
Import Py Serial.

(** [open_port(port, baud, retries, delay, timeout)]: the attempts
    [attempt], .. of [range(1, retries + 1)] that are still to be made;
    [can_open] is the environment's answer to each attempt.  After a
    refused attempt the loop sleeps for [delay] seconds, outside the [try];
    after an accepted one it sleeps for 0.2 seconds, which returns.  The
    function returns the [serial.Serial] object ([Opened]) or [None]
    ([Refused]), or the sleep raises ([Aborted]). *)
Fixpoint open_port_from (can_open : string -> Z -> bool) (port : string)
    (delay : Q) (attempt : Z) (left : nat) : attempts * list event :=
  match left with
  | O => (Refused, [])
  | S left' =>
      if can_open port attempt then (Opened (mk_handle port), [Ev_open port])
      else
        match sleep delay with
        | None => (Aborted, [Ev_open_error port])
        | Some _ =>
            let '(r, evs) :=
              open_port_from can_open port delay (attempt + 1) left' in
            (r, Ev_open_error port :: evs)
        end
  end.

Definition open_port (can_open : string -> Z -> bool) (port : string)
    (retries : Z) (delay : Q) : attempts * list event :=
  open_port_from can_open port delay 1 (Z.to_nat retries).

End SerialTest.

(** ** A whole session *)

Module Session.
Import Py Serial.

(** The client that a loop starts with: none with [--noserial] or without
    pyserial, else [SerialClient(port, baud)]; the result is [None] when
    the constructor raises. *)
Definition client_for (noserial have_serial : bool) (port : option string)
    (baud : Z) (comports : list string) (can_open : string -> Z -> bool)
    : result (option SerialClient) * list event :=
  if negb noserial && have_serial then
    match init have_serial port baud default_retries default_delay
            comports can_open with
    | (Some c, evs) => (Some (Some c), evs)
    | (None, evs) => (None, evs)
    end
  else (Some None, []).

(** The [finally] clause of both loops: [if serial_client:
    serial_client.close()]. *)
Definition finally (client : option SerialClient) : list event :=
  match client with
  | Some c => snd (close c)
  | None => []
  end.

(** The number of ports a client holds. *)
Definition holds (client : option SerialClient) : nat :=
  match client with
  | Some c => match _ser c with Some _ => 1 | None => 0 end
  | None => 0
  end.

Section WithHypot.
Variable hypot : Q -> Q -> Q.

(** The frames of [run] up to the first that raises; the flag says whether
    one did.  A frame that raises does so before it reaches the channel. *)
Fixpoint run_until (st : Expression.run_state) (frs : list Expression.frame)
    : Expression.run_state * list event * bool :=
  match frs with
  | [] => (st, [], false)
  | fr :: rest =>
      match Expression.run_frame hypot st fr with
      | None => (st, [], true)
      | Some (st', evs) =>
          let '(st'', evs', raised) := run_until st' rest in
          (st'', (evs ++ evs')%list, raised)
      end
  end.

(** [run] (FacialExpression.py, lines 195-263): the client is made first;
    when the camera does not open the function returns at once; then the
    detector is built, outside the [try], so that an exception of its
    constructor leaves the function with nothing closed; otherwise the
    frames are processed and the [finally] clause closes the client, also
    when a frame raised.  The result is the trace and whether the function
    ended by an exception. *)
Definition run (port : option string) (baud smooth : Z)
    (noserial have_serial camera_ok : bool) (comports : list string)
    (can_open : string -> Z -> bool) (frs : list Expression.frame)
    : list event * bool :=
  match client_for noserial have_serial port baud comports can_open with
  | (None, e0) => (e0, true)
  | (Some client, e0) =>
      if negb camera_ok then (e0, false)
      else
        match Expression.default_detector smooth with
        | None => (e0, true)
        | Some det =>
            let '(st, e1, raised) :=
              run_until (Expression.mk_run det None client) frs in
            ((e0 ++ e1 ++ finally (Expression.serial_client st))%list, raised)
        end
  end.

End WithHypot.

(** The same for [run_camera_loop] (_5Fingers.py, lines 169-232). *)
Fixpoint loop_until (st : Gesture.loop_state) (frs : list Gesture.frame)
    : Gesture.loop_state * list event * bool :=
  match frs with
  | [] => (st, [], false)
  | fr :: rest =>
      match Gesture.loop_frame st fr with
      | None => (st, [], true)
      | Some (st', evs) =>
          let '(st'', evs', raised) := loop_until st' rest in
          (st'', (evs ++ evs')%list, raised)
      end
  end.

Definition run_camera_loop (port : option string) (baud smooth_frames : Z)
    (noserial have_serial camera_ok : bool) (comports : list string)
    (can_open : string -> Z -> bool) (frs : list Gesture.frame)
    : list event * bool :=
  match client_for noserial have_serial port baud comports can_open with
  | (None, e0) => (e0, true)
  | (Some client, e0) =>
      if negb camera_ok then (e0, false)
      else
        match Gesture.loop_init smooth_frames client with
        | None => (e0, true)
        | Some st0 =>
            let '(st, e1, raised) := loop_until st0 frs in
            ((e0 ++ e1 ++ finally (Gesture.serial_client st))%list, raised)
        end
  end.

End Session.

(** * Properties *)

(** ** The bounded buffer *)

Section DequeFacts.
Import Py Smoother.
Context {A : Type}.

Lemma tl_skipn (k : nat) (l : list A) : tl (skipn k l) = skipn (S k) l.
Proof.
  revert l; induction k as [|k IH]; intros [|a l]; simpl; auto.
Qed.

Lemma lastn_length (n : nat) (l : list A) :
  List.length (lastn n l) = Nat.min (List.length l) n.
Proof. unfold lastn. rewrite length_skipn. lia. Qed.

Lemma lastn_min (n : nat) (l : list A) :
  lastn (Nat.min (List.length l) n) l = lastn n l.
Proof. unfold lastn. f_equal. lia. Qed.

Lemma maxlen_append (d : deque A) (a : A) :
  maxlen (deque_append d a) = maxlen d.
Proof. reflexivity. Qed.

Lemma maxlen_feed (vs : list A) (d : deque A) : maxlen (feed d vs) = maxlen d.
Proof.
  revert d; induction vs as [|v vs IH]; intros d; [reflexivity|].
  change (maxlen (feed (deque_append d v) vs) = maxlen d).
  rewrite IH. reflexivity.
Qed.

(** One append keeps the buffer equal to the tail of the history. *)
Lemma append_window (d : deque A) (hist : list A) (a : A) :
  1 <= maxlen d ->
  items d = lastn (Z.to_nat (maxlen d)) hist ->
  items (deque_append d a) = lastn (Z.to_nat (maxlen d)) (hist ++ [a]).
Proof.
  intros Hn Hd. unfold deque_append; simpl.
  rewrite length_app, Hd, lastn_length; simpl.
  unfold lastn. rewrite length_app; simpl.
  set (n := Z.to_nat (maxlen d)) in *.
  assert (Hn' : (1 <= n)%nat) by (subst n; lia).
  assert (HN : maxlen d = Z.of_nat n) by (subst n; lia).
  rewrite HN.
  destruct (Z.ltb_spec (Z.of_nat n) (Z.of_nat (Nat.min (List.length hist) n + 1))) as [Hlt|Hge].
  - assert (Hle : (n <= List.length hist)%nat) by lia.
    rewrite skipn_app.
    replace (List.length hist + 1 - n)%nat with (S (List.length hist - n)) by lia.
    replace (S (List.length hist - n) - List.length hist)%nat with 0%nat by lia.
    simpl skipn at 3. rewrite <- tl_skipn.
    destruct (skipn (List.length hist - n) hist) eqn:E.
    + apply (f_equal (@List.length A)) in E. rewrite length_skipn in E.
      simpl in E. lia.
    + reflexivity.
  - assert (Hle : (List.length hist < n)%nat) by lia.
    replace (List.length hist - n)%nat with 0%nat by lia.
    replace (List.length hist + 1 - n)%nat with 0%nat by lia.
    reflexivity.
Qed.

(** The buffer after any sequence of appends. *)
Lemma feed_window (N : Z) (vs : list A) :
  1 <= N -> items (feed (mk_deque N []) vs) = lastn (Z.to_nat N) vs.
Proof.
  intros HN. induction vs as [|v vs IH] using rev_ind.
  - reflexivity.
  - pose proof (maxlen_feed vs (mk_deque N [])) as Hm. simpl in Hm.
    pose proof (append_window (feed (mk_deque N []) vs) vs v) as Hw.
    rewrite Hm in Hw. unfold feed at 1. rewrite fold_left_app. simpl.
    apply Hw; auto.
Qed.

Lemma feed_snoc (d : deque A) (vs : list A) (v : A) :
  feed d (vs ++ [v]) = deque_append (feed d vs) v.
Proof. unfold feed. rewrite fold_left_app. reflexivity. Qed.

(** A full buffer loses its oldest item on an append. *)
Lemma append_full (d : deque A) (a : A) :
  1 <= maxlen d -> len (items d) = maxlen d ->
  items (deque_append d a) = (tl (items d) ++ [a])%list.
Proof.
  intros Hn Hfull. unfold deque_append, len in *; simpl.
  rewrite length_app; simpl.
  destruct (Z.ltb_spec (maxlen d) (Z.of_nat (List.length (items d) + 1))); [|lia].
  destruct (items d); simpl in *; [lia | reflexivity].
Qed.

(** A buffer of capacity at least one is never empty after an append. *)
Lemma append_nonempty (d : deque A) (a : A) :
  1 <= maxlen d -> items (deque_append d a) <> [].
Proof.
  intros Hn. unfold deque_append; simpl. rewrite length_app; simpl.
  destruct (Z.ltb_spec (maxlen d) (Z.of_nat (List.length (items d) + 1))) as [Hlt|Hge].
  - destruct (items d) as [|b [|c l]]; simpl in *; try lia; discriminate.
  - destruct (items d); discriminate.
Qed.

End DequeFacts.

Section ConstructorFacts.
Import Py.

(** The constructor with [max(1, size)] returns for every size up to
    [ssize_max]. *)
Lemma deque_new_max {A} (size : Z) :
  size <= ssize_max ->
  @deque_new A (Z.max 1 size) = Some (mk_deque (Z.max 1 size) []).
Proof.
  intros H. unfold deque_new, ssize_max in *.
  destruct (Z.ltb_spec (Z.max 1 size) 0); [lia|].
  destruct (Z.ltb_spec 9223372036854775807 (Z.max 1 size)); [lia|].
  reflexivity.
Qed.

Lemma deque_new_inv {A} (n : Z) (d : deque A) :
  deque_new n = Some d -> d = mk_deque n [] /\ 0 <= n <= ssize_max.
Proof.
  unfold deque_new. destruct (Z.ltb_spec n 0); [discriminate|].
  destruct (Z.ltb_spec ssize_max n); [discriminate|].
  intros [= <-]. split; [reflexivity | lia].
Qed.

Lemma deque_new_over {A} (n : Z) :
  ssize_max < n -> @deque_new A n = None.
Proof.
  intros H. unfold deque_new, ssize_max in *.
  destruct (Z.ltb_spec n 0); [reflexivity|].
  destruct (Z.ltb_spec 9223372036854775807 n); [reflexivity | lia].
Qed.

(** What the two loops start from, when their buffers are constructed. *)
Lemma loop_init_inv (smooth : Z) (client : option Serial.SerialClient)
    (st : Gesture.loop_state) :
  Gesture.loop_init smooth client = Some st ->
  st = Gesture.mk_loop (Gesture.mk_counter true true)
         (mk_deque (Z.max 1 smooth) []) None client
  /\ smooth <= ssize_max.
Proof.
  unfold Gesture.loop_init.
  destruct (deque_new (Z.max 1 smooth)) as [buf|] eqn:E; [|discriminate].
  apply deque_new_inv in E. destruct E as [-> Hr].
  cbn [bind ret]. intros [= <-]. split; [reflexivity | lia].
Qed.

Lemma detector_init_inv (size : Z) (smile frown margin : Q)
    (det : Expression.SmileDetector) :
  Expression.SmileDetector_init size smile frown margin = Some det ->
  det = Expression.mk_detector (mk_deque (Z.max 1 size) [])
          (mk_deque (Z.max 1 size) []) smile frown margin
  /\ size <= ssize_max.
Proof.
  unfold Expression.SmileDetector_init.
  destruct (deque_new (Z.max 1 size)) as [buf|] eqn:E; [|discriminate].
  apply deque_new_inv in E. destruct E as [-> Hr].
  cbn [bind ret]. intros [= <-]. split; [reflexivity | lia].
Qed.

End ConstructorFacts.

(** ** Sums and means *)

Section MeanFacts.
Import Py Smoother.

Lemma sum_float_fold (l : list Q) (a : Q) :
  (fold_left Qplus l a == a + fold_right Qplus 0 l)%Q.
Proof.
  revert a; induction l as [|b l IH]; intros a; simpl.
  - ring.
  - rewrite IH. ring.
Qed.

Lemma sum_int_fold (l : list Z) (a : Z) :
  (inject_Z (fold_left Z.add l a)
   == inject_Z a + fold_right Qplus 0 (map inject_Z l))%Q.
Proof.
  revert a; induction l as [|b l IH]; intros a; simpl.
  - ring.
  - rewrite IH, inject_Z_plus. ring.
Qed.

Lemma truediv_len {A} (a : Q) (l : list A) :
  l <> [] -> truediv a (inject_Z (len l)) = Some (a / inject_Z (len l))%Q.
Proof.
  intros Hl. unfold truediv.
  destruct (Qeq_bool (inject_Z (len l)) 0) eqn:E; auto.
  apply Qeq_bool_eq in E. unfold Qeq, len in E; simpl in E.
  destruct l; [congruence | simpl in E; lia].
Qed.

Lemma mean_float_spec (l : list Q) :
  (sum_float l / inject_Z (len l) == arithmetic_mean l)%Q.
Proof.
  unfold sum_float, arithmetic_mean, len. rewrite sum_float_fold.
  apply Qdiv_comp; [ring | reflexivity].
Qed.

Lemma mean_int_spec (l : list Z) :
  (inject_Z (sum_int l) / inject_Z (len l)
   == arithmetic_mean (map inject_Z l))%Q.
Proof.
  unfold sum_int, arithmetic_mean, len. rewrite sum_int_fold, length_map.
  apply Qdiv_comp; [ring | reflexivity].
Qed.

End MeanFacts.

(** ** The smoother *)

Section SmootherFacts.
Import Py Smoother.

Lemma push_total (d : deque Q) (v : Q) :
  1 <= maxlen d ->
  let d' := deque_append d v in
  push d v = (d', Some (sum_float (items d') / inject_Z (len (items d')))%Q)
  /\ items d' <> [].
Proof.
  intros Hn d'. pose proof (append_nonempty d v Hn) as Hne.
  split; auto. unfold push. fold d'. rewrite truediv_len; auto.
Qed.

Lemma push_int_total (d : deque Z) (v : Z) :
  1 <= maxlen d ->
  let d' := deque_append d v in
  push_int d v
  = (d', Some (inject_Z (sum_int (items d')) / inject_Z (len (items d')))%Q)
  /\ items d' <> [].
Proof.
  intros Hn d'. pose proof (append_nonempty d v Hn) as Hne.
  split; auto. unfold push_int. fold d'. rewrite truediv_len; auto.
Qed.

Lemma feed_append_window {A} (N : Z) (vs : list A) (v : A) :
  1 <= N ->
  deque_append (feed (mk_deque N []) vs) v
  = mk_deque N
      (lastn (Nat.min (List.length (vs ++ [v])) (Z.to_nat N)) (vs ++ [v])).
Proof.
  intros HN. rewrite lastn_min, <- feed_window by assumption.
  rewrite <- feed_snoc.
  pose proof (maxlen_feed (vs ++ [v]) (mk_deque N [])) as Hm. simpl in Hm.
  destruct (feed (mk_deque N []) (vs ++ [v])); simpl in *. congruence.
Qed.

Lemma lastn_forall {A} (P : A -> Prop) (n : nat) (l : list A) :
  Forall P l -> Forall P (lastn n l).
Proof.
  intros H. unfold lastn.
  rewrite <- (firstn_skipn (List.length l - n) l) in H.
  apply Forall_app in H. exact (proj2 H).
Qed.

Lemma div_by_len_nonempty {A} (x : double) (l : list A) :
  l <> [] ->
  div_by_len x (len l) = Some (PrimFloat.div x (double_of_len (len l))).
Proof.
  intros Hl. unfold div_by_len, len.
  destruct (Z.eqb_spec (Z.of_nat (List.length l)) 0) as [E|_]; [|reflexivity].
  destruct l; [congruence | simpl in E; lia].
Qed.

Lemma push_double_total (d : deque double) (v : double) :
  1 <= maxlen d ->
  let d' := deque_append d v in
  push_double d v
  = (d', Some (PrimFloat.div (sum_double (items d'))
                 (double_of_len (len (items d')))))
  /\ items d' <> [].
Proof.
  intros Hn d'. pose proof (append_nonempty d v Hn) as Hne.
  split; auto. unfold push_double. fold d'.
  rewrite div_by_len_nonempty; auto.
Qed.

Lemma nearest_quotient_range (n d : Z) :
  0 <= n -> 0 < d -> 0 <= nearest_quotient n d <= n / d + 1.
Proof.
  intros Hn Hd. unfold nearest_quotient.
  pose proof (Z.div_pos n d Hn Hd) as Hq.
  destruct (2 * (n mod d) <? d); [lia|].
  destruct (d <? 2 * (n mod d)); [lia|].
  destruct (Z.even (n / d)); lia.
Qed.

(** The true division of two ints returns unless the divisor is zero or
    the quotient is beyond the doubles. *)
Lemma truediv_int_returns (a b : Z) :
  b <> 0 -> Z.abs a < 2 ^ 1023 * Z.abs b ->
  exists r, truediv_int a b = Some r.
Proof.
  intros Hb Hlt. unfold truediv_int.
  destruct (Z.eqb_spec b 0) as [|_]; [contradiction|].
  set (n := Z.abs a) in *. set (d := Z.abs b) in *.
  assert (Hd : 0 < d) by (subst d; lia).
  destruct (Z.eqb_spec n 0) as [|Hn0]; [eexists; reflexivity|].
  assert (Hn : 0 < n) by (subst n; lia).
  cbv zeta.
  set (k := Z.log2 n - Z.log2 d).
  set (l := if (if 0 <=? k then d * 2 ^ k <=? n else d <=? n * 2 ^ (- k))
            then k else k - 1).
  set (e := Z.max (l - 52) (-1074)).
  set (m := if 0 <=? e then nearest_quotient n (d * 2 ^ e)
            else nearest_quotient (n * 2 ^ (- e)) d).
  assert (Hk : k <= 1023).
  { assert (Z.log2 n <= Z.log2 (d * 2 ^ 1023)).
    { apply Z.log2_le_mono. lia. }
    rewrite Z.log2_mul_pow2 in H by lia. subst k. lia. }
  assert (Hl : l <= k) by (subst l; destruct (if 0 <=? k then _ else _); lia).
  assert (He : -1074 <= e <= 971) by (subst e; lia).
  assert (Hm : 0 <= m <= 2 ^ (1023 - e)).
  { subst m.
    destruct (Z.leb_spec 0 e) as [He0|He0].
    - assert (H2e : 0 < 2 ^ e) by (apply Z.pow_pos_nonneg; lia).
      destruct (nearest_quotient_range n (d * 2 ^ e) ltac:(lia) ltac:(lia))
        as [H0 H1].
      split; [exact H0|].
      assert (n / (d * 2 ^ e) < 2 ^ (1023 - e)); [|lia].
      apply Z.div_lt_upper_bound; [lia|].
      replace (d * 2 ^ e * 2 ^ (1023 - e)) with (2 ^ 1023 * d); [exact Hlt|].
      replace (2 ^ 1023) with (2 ^ e * 2 ^ (1023 - e)).
      + ring.
      + rewrite <- Z.pow_add_r by lia. f_equal; lia.
    - assert (H2e : 0 < 2 ^ (- e)) by (apply Z.pow_pos_nonneg; lia).
      destruct (nearest_quotient_range (n * 2 ^ (- e)) d ltac:(lia) ltac:(lia))
        as [H0 H1].
      split; [exact H0|].
      assert (n * 2 ^ (- e) / d < 2 ^ (1023 - e)); [|lia].
      apply Z.div_lt_upper_bound; [lia|].
      replace (2 ^ (1023 - e)) with (2 ^ 1023 * 2 ^ (- e)).
      + apply Z.lt_le_trans with (2 ^ 1023 * d * 2 ^ (- e)); [|lia].
        apply Z.mul_lt_mono_pos_r; assumption.
      + rewrite <- Z.pow_add_r by lia. f_equal; lia. }
  assert (Hlog : Z.log2 m + e < 1024).
  { destruct (Z.eq_dec m 0) as [->|Hm0]; [simpl; lia|].
    assert (Z.log2 m < 1024 - e); [|lia].
    apply Z.log2_lt_pow2; [lia|].
    apply Z.le_lt_trans with (2 ^ (1023 - e)); [lia|].
    apply Z.pow_lt_mono_r; lia. }
  destruct (Z.leb_spec 1024 (Z.log2 m + e)); [lia|].
  eexists; reflexivity.
Qed.

Lemma sum_int_range (l : list Z) (acc : Z) :
  Forall Serial.in_range l ->
  acc <= fold_left Z.add l acc <= acc + 5 * len l.
Proof.
  unfold len. intros H. revert acc.
  induction H as [|x l Hx _ IH]; intros acc; simpl fold_left.
  - simpl. lia.
  - specialize (IH (acc + x)). unfold Serial.in_range in Hx.
    simpl List.length. lia.
Qed.

(** The mean of counts between 0 and 5 is returned. *)
Lemma truediv_int_counts (l : list Z) :
  l <> [] -> Forall Serial.in_range l ->
  exists r, truediv_int (sum_int l) (len l) = Some r.
Proof.
  intros Hne Hall. pose proof (sum_int_range l 0 Hall) as Hs.
  fold (sum_int l) in Hs.
  assert (Hlen : 0 < len l).
  { unfold len. destruct l; [congruence | simpl; lia]. }
  apply truediv_int_returns; [lia|].
  assert (8 <= 2 ^ 1023).
  { change 8 with (2 ^ 3). apply Z.pow_le_mono_r; lia. }
  nia.
Qed.

End SmootherFacts.

(** In the rational reading of floats the quotient that a push returns is
    the arithmetic mean of the window. *)
Lemma push_exact_window_mean (N : Z) (vs : list Q) (v : Q)
    (cs : list Z) (c : Z) :
  1 <= N ->
  let window :=
    Smoother.lastn (Nat.min (List.length (vs ++ [v])) (Z.to_nat N)) (vs ++ [v]) in
  let cwindow :=
    Smoother.lastn (Nat.min (List.length (cs ++ [c])) (Z.to_nat N)) (cs ++ [c]) in
  (exists m,
      Smoother.push (Smoother.feed (Py.mk_deque N []) vs) v
      = (Py.mk_deque N window, Some m)
      /\ (m == Smoother.arithmetic_mean window)%Q)
  /\ (exists m,
      Smoother.push_int (Smoother.feed (Py.mk_deque N []) cs) c
      = (Py.mk_deque N cwindow, Some m)
      /\ (m == Smoother.arithmetic_mean (map inject_Z cwindow))%Q).
Proof.
  intros HN window cwindow. split.
  - destruct (push_total (Smoother.feed (Py.mk_deque N []) vs) v) as [Hp _].
    { rewrite maxlen_feed. exact HN. }
    rewrite Hp, feed_append_window by assumption. fold window.
    eexists; split; [reflexivity|]. apply mean_float_spec.
  - destruct (push_int_total (Smoother.feed (Py.mk_deque N []) cs) c) as [Hp _].
    { rewrite maxlen_feed. exact HN. }
    rewrite Hp, feed_append_window by assumption. fold cwindow.
    eexists; split; [reflexivity|]. apply mean_int_spec.
Qed.

(** C1 (as amended).  For every capacity [N >= 1] and every sequence of
    observations,
    the push that follows [k - 1] earlier pushes leaves in the buffer the
    last [min k N] values pushed, in order, a full buffer losing its oldest
    element, and returns [sum(window) / len(window)] as double arithmetic
    evaluates it: for the float buffers of the expression loop the sum
    rounded at every addition, divided by the length and rounded again; for
    the count buffer of the gesture loop the exact integer sum divided by
    the length and rounded once, which for counts between 0 and 5 always
    returns. *)
Theorem push_returns_rounded_mean (N : Z) (vs : list Py.double)
    (v : Py.double) (cs : list Z) (c : Z) :
  1 <= N ->
  let window :=
    Smoother.lastn (Nat.min (List.length (vs ++ [v])) (Z.to_nat N)) (vs ++ [v]) in
  let cwindow :=
    Smoother.lastn (Nat.min (List.length (cs ++ [c])) (Z.to_nat N)) (cs ++ [c]) in
  Smoother.push_double (Smoother.feed (Py.mk_deque N []) vs) v
  = (Py.mk_deque N window,
     Some (PrimFloat.div (Py.sum_double window)
             (Py.double_of_len (Py.len window))))
  /\ Smoother.push_count (Smoother.feed (Py.mk_deque N []) cs) c
     = (Py.mk_deque N cwindow,
        Py.truediv_int (Py.sum_int cwindow) (Py.len cwindow))
  /\ Py.len cwindow <> 0
  /\ (Forall Serial.in_range (cs ++ [c]) ->
      exists r, Py.truediv_int (Py.sum_int cwindow) (Py.len cwindow) = Some r)
  /\ (forall (d : Py.deque Py.double) (a : Py.double),
        Py.len (Py.items d) = Py.maxlen d -> 1 <= Py.maxlen d ->
        Py.items (Py.deque_append d a) = (tl (Py.items d) ++ [a])%list).
Proof.
  intros HN window cwindow.
  assert (Hc : cwindow <> []).
  { unfold cwindow. rewrite lastn_min, <- feed_window, feed_snoc by assumption.
    apply append_nonempty. rewrite maxlen_feed. exact HN. }
  split; [|split; [|split; [|split]]].
  - destruct (push_double_total (Smoother.feed (Py.mk_deque N []) vs) v) as [Hp _].
    { rewrite maxlen_feed. exact HN. }
    rewrite Hp, feed_append_window by assumption. reflexivity.
  - unfold Smoother.push_count. rewrite feed_append_window by assumption.
    reflexivity.
  - unfold Py.len. destruct cwindow; [congruence | simpl; lia].
  - intros Hall. apply truediv_int_counts; [exact Hc|].
    apply lastn_forall. exact Hall.
  - intros d a Hfull Hn. apply append_full; assumption.
Qed.

Lemma push_returns_rounded_mean_witness :
  Smoother.push_count (Smoother.feed (Py.mk_deque 2 []) [1; 2]) 4
  = (Py.mk_deque 2 [2; 4], Py.truediv_int 6 2)
  /\ exists r q,
       Py.truediv_int 6 2 = Some r /\ Py.exact_value r = Some q /\ (q == 3)%Q.
Proof.
  split; [|do 2 eexists; repeat split; vm_compute; reflexivity].
  exact (proj1 (proj2 (push_returns_rounded_mean 2 [] Samples.tenth [1; 2] 4
                         ltac:(lia)))).
Defined.

(** The quotient returned is not the exact mean: the counts 1, 2, 2 give
    the double [7505999378950827 / 2^52], not [5/3]; three observations of
    the double [0.1] give a double above it, not their mean. *)
Lemma pushed_mean_is_not_exact :
  (exists r q,
      Smoother.push_count (Smoother.feed (Py.mk_deque 3 []) [1; 2]) 2
      = (Py.mk_deque 3 [1; 2; 2], Some r)
      /\ Py.exact_value r = Some q
      /\ q = (7505999378950827 # 4503599627370496)%Q
      /\ ~ (q == Smoother.arithmetic_mean [1; 2; 2])%Q)
  /\ (exists r q t,
      Smoother.push_double
        (Smoother.feed (Py.mk_deque 3 []) [Samples.tenth; Samples.tenth])
        Samples.tenth
      = (Py.mk_deque 3 [Samples.tenth; Samples.tenth; Samples.tenth], Some r)
      /\ Py.exact_value r = Some q
      /\ Py.exact_value Samples.tenth = Some t
      /\ (t < q)%Q
      /\ ~ (q == Smoother.arithmetic_mean [t; t; t])%Q)
  /\ ~ (forall (N : Z) (cs : list Z) (c : Z),
          1 <= N ->
          exists r q,
            snd (Smoother.push_count (Smoother.feed (Py.mk_deque N []) cs) c)
            = Some r
            /\ Py.exact_value r = Some q
            /\ (q == Smoother.arithmetic_mean
                       (map inject_Z
                          (Py.items
                             (fst (Smoother.push_count
                                     (Smoother.feed (Py.mk_deque N []) cs) c)))))%Q).
Proof.
  split; [|split].
  - do 2 eexists. split; [vm_compute; reflexivity|].
    split; [vm_compute; reflexivity|]. split; [reflexivity|].
    vm_compute. discriminate.
  - do 3 eexists. split; [vm_compute; reflexivity|].
    split; [vm_compute; reflexivity|]. split; [vm_compute; reflexivity|].
    split; [vm_compute; reflexivity|]. vm_compute. discriminate.
  - intros H. destruct (H 3 [1; 2] 2 ltac:(lia)) as (r & q & Hr & Hq & Hm).
    vm_compute in Hr. injection Hr as <-.
    vm_compute in Hq. injection Hq as <-.
    vm_compute in Hm. discriminate Hm.
Qed.

(** C10 (as amended).  Whatever window size up to [ssize_max] is
    configured, zero and
    negative sizes included, both loops build their buffers with capacity
    [max(1, size)]; the construction does not raise, and after every push
    the buffer is non-empty and the mean is computed without a division by
    zero. *)
Theorem buffer_capacity_at_least_one (size : Z) (smile frown margin : Q)
    (client : option Serial.SerialClient) :
  size <= Py.ssize_max ->
  (exists det,
      Expression.SmileDetector_init size smile frown margin = Some det
      /\ Expression.mouth_buf det = Py.mk_deque (Z.max 1 size) []
      /\ Expression.corner_buf det = Py.mk_deque (Z.max 1 size) []
      /\ (forall (vs : list Q) (v : Q), exists d' m,
           Smoother.push (Smoother.feed (Expression.mouth_buf det) vs) v
           = (d', Some m)
           /\ Py.maxlen d' = Z.max 1 size /\ Py.items d' <> [])
      /\ (forall (xs : list Py.double) (x : Py.double), exists d' m,
           Smoother.push_double
             (Smoother.feed
                (Py.mk_deque (Py.maxlen (Expression.mouth_buf det)) []) xs) x
           = (d', Some m)
           /\ Py.maxlen d' = Z.max 1 size /\ Py.items d' <> []))
  /\ (exists st,
      Gesture.loop_init size client = Some st
      /\ Gesture.buffer st = Py.mk_deque (Z.max 1 size) []
      /\ (forall (cs : list Z) (c : Z), exists d' m,
           Smoother.push_int (Smoother.feed (Gesture.buffer st) cs) c
           = (d', Some m)
           /\ Py.maxlen d' = Z.max 1 size /\ Py.items d' <> [])
      /\ (forall (cs : list Z) (c : Z),
           Forall Serial.in_range (cs ++ [c]) -> exists d' m,
           Smoother.push_count (Smoother.feed (Gesture.buffer st) cs) c
           = (d', Some m)
           /\ Py.maxlen d' = Z.max 1 size /\ Py.items d' <> [])).
Proof.
  intros Hsize.
  assert (H1 : 1 <= Z.max 1 size) by lia.
  split.
  - unfold Expression.SmileDetector_init.
    rewrite (deque_new_max size Hsize). cbn [Py.bind Py.ret].
    eexists; split; [reflexivity|]. cbn [Expression.mouth_buf Expression.corner_buf].
    split; [reflexivity|]. split; [reflexivity|]. split.
    + intros vs v.
      destruct (push_total (Smoother.feed (Py.mk_deque (Z.max 1 size) []) vs) v)
        as [Hp Hne].
      { rewrite maxlen_feed. exact H1. }
      rewrite Hp. do 2 eexists. split; [reflexivity|]. split; [|exact Hne].
      rewrite maxlen_append, maxlen_feed. reflexivity.
    + intros xs x. cbn [Py.maxlen].
      destruct (push_double_total
                  (Smoother.feed (Py.mk_deque (Z.max 1 size) []) xs) x)
        as [Hp Hne].
      { rewrite maxlen_feed. exact H1. }
      rewrite Hp. do 2 eexists. split; [reflexivity|]. split; [|exact Hne].
      rewrite maxlen_append, maxlen_feed. reflexivity.
  - unfold Gesture.loop_init.
    rewrite (deque_new_max size Hsize). cbn [Py.bind Py.ret].
    eexists; split; [reflexivity|]. cbn [Gesture.buffer].
    split; [reflexivity|]. split.
    + intros cs c.
      destruct (push_int_total (Smoother.feed (Py.mk_deque (Z.max 1 size) []) cs) c)
        as [Hp Hne].
      { rewrite maxlen_feed. exact H1. }
      rewrite Hp. do 2 eexists. split; [reflexivity|]. split; [|exact Hne].
      rewrite maxlen_append, maxlen_feed. reflexivity.
    + intros cs c Hall.
      pose proof (append_nonempty
                    (Smoother.feed (Py.mk_deque (Z.max 1 size) []) cs) c) as Hne.
      rewrite maxlen_feed in Hne. specialize (Hne H1).
      destruct (truediv_int_counts
                  (Py.items (Py.deque_append
                     (Smoother.feed (Py.mk_deque (Z.max 1 size) []) cs) c)))
        as [r Hr]; [exact Hne | |].
      { rewrite <- feed_snoc, feed_window by exact H1.
        apply lastn_forall. exact Hall. }
      unfold Smoother.push_count. rewrite Hr. do 2 eexists.
      split; [reflexivity|]. split; [|exact Hne].
      rewrite maxlen_append, maxlen_feed. reflexivity.
Qed.

Lemma buffer_capacity_at_least_one_witness :
  exists det,
    Expression.SmileDetector_init (-3) (32 # 100) (22 # 100) (15 # 1000)
    = Some det
    /\ Expression.mouth_buf det = Py.mk_deque 1 []
    /\ Expression.corner_buf det = Py.mk_deque 1 [].
Proof.
  destruct (buffer_capacity_at_least_one (-3) (32 # 100) (22 # 100)
              (15 # 1000) None ltac:(unfold Py.ssize_max; lia))
    as [(det & Hd & Hm & Hc & _) _].
  exists det. repeat split; assumption.
Defined.

(** With a window size of [2^63] neither buffer is constructed. *)
Lemma buffer_construction_overflows :
  Py.ssize_max + 1 = 2 ^ 63
  /\ Expression.default_detector (2 ^ 63) = None
  /\ Gesture.loop_init (2 ^ 63) None = None
  /\ ~ (forall (size : Z) (smile frown margin : Q)
          (client : option Serial.SerialClient),
          (exists det,
              Expression.SmileDetector_init size smile frown margin = Some det)
          /\ (exists st, Gesture.loop_init size client = Some st)).
Proof.
  split; [reflexivity|]. split; [reflexivity|]. split; [reflexivity|].
  intros H. destruct (H (2 ^ 63) 0%Q 0%Q 0%Q None) as [[det Hd] _].
  discriminate Hd.
Qed.

(** ** Comparisons and extrema *)

Section OrderFacts.
Import Py.

Lemma Qltb_lt (a b : Q) : Qltb a b = true <-> (a < b)%Q.
Proof.
  unfold Qltb. rewrite negb_true_iff. split; intros H.
  - apply Qnot_le_lt. intros Hle. apply Qle_bool_iff in Hle. congruence.
  - destruct (Qle_bool b a) eqn:E; auto.
    apply Qle_bool_iff in E. exfalso. exact (Qlt_not_le _ _ H E).
Qed.

Lemma Qltb_ge (a b : Q) : Qltb a b = false <-> (b <= a)%Q.
Proof.
  unfold Qltb. rewrite negb_false_iff. apply Qle_bool_iff.
Qed.

Lemma fold_max_ge (l : list Q) (a : Q) :
  (a <= fold_left (fun m y => if Qltb m y then y else m) l a)%Q.
Proof.
  revert a; induction l as [|b l IH]; intros a; simpl.
  - apply Qle_refl.
  - destruct (Qltb a b) eqn:E.
    + apply Qltb_lt in E. eapply Qle_trans; [apply Qlt_le_weak, E | apply IH].
    + apply IH.
Qed.

Lemma fold_min_le (l : list Q) (a : Q) :
  (fold_left (fun m y => if Qltb y m then y else m) l a <= a)%Q.
Proof.
  revert a; induction l as [|b l IH]; intros a; simpl.
  - apply Qle_refl.
  - destruct (Qltb b a) eqn:E.
    + apply Qltb_lt in E. eapply Qle_trans; [apply IH | apply Qlt_le_weak, E].
    + apply IH.
Qed.

(** On a non-empty sequence [max] and [min] return, and in that order. *)
Lemma extrema (l : list Q) :
  l <> [] ->
  exists hi lo, max_of l = Some hi /\ min_of l = Some lo /\ (lo <= hi)%Q.
Proof.
  destruct l as [|a l]; [congruence|]. intros _. simpl.
  do 2 eexists. split; [reflexivity|]. split; [reflexivity|].
  eapply Qle_trans; [apply fold_min_le | apply fold_max_ge].
Qed.

Lemma truediv_pos (a b : Q) :
  (0 < b)%Q -> truediv a b = Some (a / b)%Q.
Proof.
  intros Hb. unfold truediv. destruct (Qeq_bool b 0) eqn:E; auto.
  apply Qeq_bool_eq in E. rewrite E in Hb. exfalso.
  exact (Qlt_irrefl _ Hb).
Qed.

End OrderFacts.

(** ** The expression classifier *)

Section ExpressionFacts.
Import Py Mp Expression.

Lemma smile_test (self : SmileDetector) (avg_w avg_corner : Q) :
  Qle_bool (smile_thresh self) avg_w && Qltb avg_corner (- corner_margin self)
  = true <-> smile_condition self avg_w avg_corner.
Proof.
  unfold smile_condition. rewrite andb_true_iff, Qle_bool_iff, Qltb_lt.
  reflexivity.
Qed.

Lemma frown_test (self : SmileDetector) (avg_w avg_corner : Q) :
  Qle_bool avg_w (frown_thresh self) && Qltb (corner_margin self) avg_corner
  = true <-> frown_condition self avg_w avg_corner.
Proof.
  unfold frown_condition. rewrite andb_true_iff, Qle_bool_iff, Qltb_lt.
  reflexivity.
Qed.

(** The label as a function of the two smoothed values: the smile test
    comes first. *)
Lemma heuristics_cases (self : SmileDetector) (avg_w avg_corner : Q) :
  let label := heuristics self avg_w avg_corner in
  (label = "smile"%string <-> smile_condition self avg_w avg_corner)
  /\ (label = "frown"%string <->
      ~ smile_condition self avg_w avg_corner
      /\ frown_condition self avg_w avg_corner)
  /\ (label = "neutral"%string <->
      ~ smile_condition self avg_w avg_corner
      /\ ~ frown_condition self avg_w avg_corner).
Proof.
  unfold heuristics.
  pose proof (smile_test self avg_w avg_corner) as Hs.
  pose proof (frown_test self avg_w avg_corner) as Hf.
  destruct (Qle_bool (smile_thresh self) avg_w
            && Qltb avg_corner (- corner_margin self)).
  - assert (S : smile_condition self avg_w avg_corner) by (apply Hs; reflexivity).
    simpl. intuition (try discriminate; try reflexivity).
  - assert (S : ~ smile_condition self avg_w avg_corner).
    { intros H'. apply Hs in H'. discriminate. }
    destruct (Qle_bool avg_w (frown_thresh self)
              && Qltb (corner_margin self) avg_corner).
    + assert (F : frown_condition self avg_w avg_corner) by (apply Hf; reflexivity).
      simpl. intuition (try discriminate; try reflexivity).
    + assert (F : ~ frown_condition self avg_w avg_corner).
      { intros H'. apply Hf in H'. discriminate. }
      simpl. intuition (try discriminate; try reflexivity).
Qed.

(** With a non-negative margin the two conditions exclude each other. *)
Lemma conditions_exclusive (self : SmileDetector) (avg_w avg_corner : Q) :
  (0 <= corner_margin self)%Q ->
  frown_condition self avg_w avg_corner ->
  ~ smile_condition self avg_w avg_corner.
Proof.
  intros Hm [_ Hf] [_ Hs].
  assert (H1 : (avg_corner < 0)%Q).
  { eapply Qlt_le_trans; [exact Hs|].
    apply (Qopp_le_compat 0 (corner_margin self)) in Hm. exact Hm. }
  assert (H2 : (0 < avg_corner)%Q) by (eapply Qle_lt_trans; eauto).
  exact (Qlt_irrefl _ (Qlt_trans _ _ _ H1 H2)).
Qed.

(** So with a non-negative margin the frown test alone decides ['frown']. *)
Lemma frown_iff_of_nonneg_margin (self : SmileDetector) (avg_w avg_corner : Q) :
  (0 <= corner_margin self)%Q ->
  (heuristics self avg_w avg_corner = "frown"%string
   <-> frown_condition self avg_w avg_corner).
Proof.
  intros Hm. destruct (heuristics_cases self avg_w avg_corner) as (_ & Hf & _).
  rewrite Hf. split; [tauto|]. intros H. split; auto.
  apply conditions_exclusive; assumption.
Qed.

End ExpressionFacts.

Section ComputeFacts.
Import Py Mp Expression.

Variable hypot : Q -> Q -> Q.
Hypothesis hypot_nonneg : forall a b, (0 <= hypot a b)%Q.

Lemma eps_pos : (0 < eps)%Q.
Proof. reflexivity. Qed.

Lemma index_some {A} (l : list A) (i : nat) :
  (i < List.length l)%nat -> exists a, index l i = Some a.
Proof.
  intros Hi. unfold index. destruct (nth_error l i) eqn:E; eauto.
  apply nth_error_None in E. lia.
Qed.

Lemma extent_pos (l : list Q) :
  l <> [] ->
  exists hi lo, max_of l = Some hi /\ min_of l = Some lo
                /\ (0 < hi - lo + eps)%Q.
Proof.
  intros Hl. destruct (extrema l Hl) as (hi & lo & Hhi & Hlo & Hle).
  exists hi, lo. repeat split; auto.
  apply Qlt_le_trans with (y := eps); [apply eps_pos|].
  rewrite <- (Qplus_0_l eps) at 1. apply Qplus_le_compat; [|apply Qle_refl].
  unfold Qminus. rewrite <- (Qplus_opp_r lo).
  apply Qplus_le_compat; [exact Hle | apply Qle_refl].
Qed.

(** On a face mesh that has the four mouth landmarks the measurements of
    a frame are computed without raising. *)
Lemma measure_total (lms : list Landmark) (img_w img_h : Z) :
  (R_IDX < List.length lms)%nat ->
  exists m, measure hypot lms img_w img_h = Some m.
Proof.
  intros Hlen. unfold measure, R_IDX, L_IDX, U_IDX, B_IDX in *.
  destruct (index_some lms 61) as [l ->]; [lia|].
  destruct (index_some lms 291) as [r ->]; [lia|].
  destruct (index_some lms 13) as [u ->]; [lia|].
  destruct (index_some lms 14) as [b ->]; [lia|].
  cbn [bind].
  rewrite truediv_pos.
  2:{ apply Qlt_le_trans with (y := eps); [apply eps_pos|].
      rewrite <- (Qplus_0_l eps) at 1.
      apply Qplus_le_compat; [apply hypot_nonneg | apply Qle_refl]. }
  cbn [bind].
  assert (Hne : forall f : Landmark -> Q, map f lms <> []).
  { intros f. destruct lms; simpl in *; [lia | discriminate]. }
  destruct (extent_pos _ (Hne (fun p => (x p * inject_Z img_w)%Q)))
    as (hx & lx & -> & -> & Hx).
  destruct (extent_pos _ (Hne (fun p => (y p * inject_Z img_h)%Q)))
    as (hy & ly & -> & -> & Hy).
  cbn [bind].
  rewrite (truediv_pos _ _ Hx). cbn [bind].
  rewrite (truediv_pos _ _ Hy). cbn [bind].
  eexists. reflexivity.
Qed.

(** [compute] returns; its label is the thresholding of the means of the
    two buffers after the appends. *)
Lemma compute_spec (self : SmileDetector) (lms : list Landmark)
    (img_w img_h : Z) :
  1 <= maxlen (mouth_buf self) -> 1 <= maxlen (corner_buf self) ->
  (R_IDX < List.length lms)%nat ->
  exists mouth_w_norm corner_diff_norm mouth_w mouth_h,
    measure hypot lms img_w img_h
    = Some (mouth_w_norm, corner_diff_norm, mouth_w, mouth_h)
    /\ let mb := deque_append (mouth_buf self) mouth_w_norm in
       let cb := deque_append (corner_buf self) corner_diff_norm in
       let avg_w := (sum_float (items mb) / inject_Z (len (items mb)))%Q in
       let avg_corner := (sum_float (items cb) / inject_Z (len (items cb)))%Q in
       compute hypot self lms img_w img_h
       = Some (mk_detector mb cb (smile_thresh self) (frown_thresh self)
                 (corner_margin self),
               (heuristics self avg_w avg_corner,
                mouth_w_norm, mouth_w, mouth_h)).
Proof.
  intros Hm Hc Hlen.
  destruct (measure_total lms img_w img_h Hlen) as [[[[mwn cdn] mw] mh] Hmeas].
  exists mwn, cdn, mw, mh. split; [exact Hmeas|].
  intros mb cb avg_w avg_corner.
  unfold compute. rewrite Hmeas. cbn [bind].
  destruct (push_total (mouth_buf self) mwn Hm) as [-> _].
  destruct (push_total (corner_buf self) cdn Hc) as [-> _].
  reflexivity.
Qed.

End ComputeFacts.

(** C2 (as amended).  On a face mesh that has the mouth landmarks,
    [compute] returns a label decided by the means of the two buffers after
    the frame's values were appended: ['smile'] iff the smoothed width is at
    least [smile_thresh] and the smoothed offset is below [-corner_margin];
    ['frown'] iff the smile test fails and the smoothed width is at most
    [frown_thresh] and the smoothed offset is above [corner_margin];
    ['neutral'] iff both tests fail.  With the default thresholds, width
    0.35 and offset +0.02 give ['neutral']. *)
Theorem compute_label_by_thresholds (hypot : Q -> Q -> Q)
    (self : Expression.SmileDetector) (lms : list Mp.Landmark)
    (img_w img_h : Z) :
  (forall a b, (0 <= hypot a b)%Q) ->
  1 <= Py.maxlen (Expression.mouth_buf self) ->
  1 <= Py.maxlen (Expression.corner_buf self) ->
  (Expression.R_IDX < List.length lms)%nat ->
  (exists self' label mouth_w_norm mouth_w mouth_h,
      Expression.compute hypot self lms img_w img_h
      = Some (self', (label, mouth_w_norm, mouth_w, mouth_h))
      /\ let mb := Py.items (Expression.mouth_buf self') in
         let cb := Py.items (Expression.corner_buf self') in
         let avg_w := (Py.sum_float mb / inject_Z (Py.len mb))%Q in
         let avg_corner := (Py.sum_float cb / inject_Z (Py.len cb))%Q in
         (label = "smile"%string
          <-> Expression.smile_condition self avg_w avg_corner)
         /\ (label = "frown"%string
             <-> ~ Expression.smile_condition self avg_w avg_corner
                 /\ Expression.frown_condition self avg_w avg_corner)
         /\ (label = "neutral"%string
             <-> ~ Expression.smile_condition self avg_w avg_corner
                 /\ ~ Expression.frown_condition self avg_w avg_corner))
  /\ (forall smooth, smooth <= Py.ssize_max -> exists det,
        Expression.default_detector smooth = Some det
        /\ Expression.heuristics det (35 # 100) (2 # 100) = "neutral"%string)
  /\ (forall smooth det,
        Expression.default_detector smooth = Some det ->
        Expression.heuristics det (35 # 100) (2 # 100) = "neutral"%string).
Proof.
  intros Hh Hm Hc Hlen.
  assert (Hdef : forall smooth, smooth <= Py.ssize_max -> exists det,
             Expression.default_detector smooth = Some det
             /\ Expression.heuristics det (35 # 100) (2 # 100)
                = "neutral"%string).
  { intros smooth Hs.
    unfold Expression.default_detector, Expression.SmileDetector_init.
    rewrite (deque_new_max smooth Hs). cbn [Py.bind Py.ret].
    eexists. split; reflexivity. }
  split; [|split; [exact Hdef|]].
  2:{ intros smooth det Hdet.
      destruct (Z_le_gt_dec smooth Py.ssize_max) as [Hs|Hs].
      - destruct (Hdef smooth Hs) as (det' & Hd' & Hn). congruence.
      - unfold Expression.default_detector, Expression.SmileDetector_init in Hdet.
        rewrite deque_new_over in Hdet by lia. discriminate. }
  destruct (compute_spec hypot Hh self lms img_w img_h Hm Hc Hlen)
    as (mwn & cdn & mw & mh & _ & Hcomp).
  cbv zeta in Hcomp.
  do 5 eexists. split; [exact Hcomp|].
  cbn [Expression.mouth_buf Expression.corner_buf].
  apply heuristics_cases.
Qed.

Lemma compute_label_by_thresholds_witness :
  exists self' label mouth_w_norm mouth_w mouth_h,
    Expression.compute Samples.taxicab Samples.default_detector Samples.face
      640 480
    = Some (self', (label, mouth_w_norm, mouth_w, mouth_h))
    /\ (label = "neutral"%string
        <-> ~ Expression.smile_condition Samples.default_detector
                (Py.sum_float (Py.items (Expression.mouth_buf self'))
                 / inject_Z (Py.len (Py.items (Expression.mouth_buf self'))))
                (Py.sum_float (Py.items (Expression.corner_buf self'))
                 / inject_Z (Py.len (Py.items (Expression.corner_buf self'))))
            /\ ~ Expression.frown_condition Samples.default_detector
                (Py.sum_float (Py.items (Expression.mouth_buf self'))
                 / inject_Z (Py.len (Py.items (Expression.mouth_buf self'))))
                (Py.sum_float (Py.items (Expression.corner_buf self'))
                 / inject_Z (Py.len (Py.items (Expression.corner_buf self'))))).
Proof.
  destruct (compute_label_by_thresholds Samples.taxicab
              Samples.default_detector Samples.face 640 480)
    as [(self' & label & mwn & mw & mh & Hc & _ & _ & Hn) _].
  - intros a b. unfold Samples.taxicab.
    apply (Qplus_le_compat 0 (Qabs a) 0 (Qabs b)); apply Qabs_nonneg.
  - simpl. lia.
  - simpl. lia.
  - vm_compute. lia.
  - exists self', label, mwn, mw, mh. split; [exact Hc | exact Hn].
Defined.

(** C2, counterexample.  The claim's second equivalence, ['frown'] iff
    width [<= frown_thresh] and offset [> corner_margin], fails for
    [SmileDetector(1, 0.2, 0.3, -0.1)] at width 0.25 and offset 0: both
    tests pass there and the label is ['smile'].  A 640 x 480 frame with
    the face [wide_face] brings the detector there. *)
Lemma frown_iff_fails_when_tests_overlap :
  Expression.heuristics Samples.overlap_detector (25 # 100) 0 = "smile"%string
  /\ Expression.frown_condition Samples.overlap_detector (25 # 100) 0
  /\ (exists self' mouth_w_norm mouth_w mouth_h,
        Expression.compute Samples.taxicab Samples.overlap_detector
          Samples.wide_face 640 480
        = Some (self', ("smile"%string, mouth_w_norm, mouth_w, mouth_h))
        /\ Expression.frown_condition Samples.overlap_detector
             (Py.sum_float (Py.items (Expression.mouth_buf self'))
              / inject_Z (Py.len (Py.items (Expression.mouth_buf self'))))
             (Py.sum_float (Py.items (Expression.corner_buf self'))
              / inject_Z (Py.len (Py.items (Expression.corner_buf self')))))
  /\ ~ (forall self avg_w avg_corner,
          Expression.heuristics self avg_w avg_corner = "frown"%string
          <-> Expression.frown_condition self avg_w avg_corner).
Proof.
  assert (Hf : Expression.frown_condition Samples.overlap_detector (25 # 100) 0).
  { split; vm_compute; [discriminate | reflexivity]. }
  split; [reflexivity|]. split; [exact Hf|]. split.
  - do 4 eexists. split; [vm_compute; reflexivity|].
    split; vm_compute; [discriminate | reflexivity].
  - intros H. apply (H Samples.overlap_detector) in Hf. discriminate Hf.
Qed.

(** ** Frames without a subject *)

(** C3 (as amended).  On a frame in which no face is found the expression
    loop leaves its whole state, both smoothing buffers included, as it
    was and sends nothing.  On a frame in which no hand is found the
    gesture loop appends the count 0 to its buffer. *)
Theorem frame_without_subject (hypot : Q -> Q -> Q)
    (st : Expression.run_state) (fr : Expression.frame)
    (gst : Gesture.loop_state) (gfr : Gesture.frame) :
  Mp.detected (Expression.faces fr) = false ->
  Mp.detected (Gesture.hands gfr) = false ->
  1 <= Py.maxlen (Gesture.buffer gst) ->
  Expression.run_frame hypot st fr = Some (st, [])
  /\ exists gst' evs,
       Gesture.loop_frame gst gfr = Some (gst', evs)
       /\ Gesture.buffer gst' = Py.deque_append (Gesture.buffer gst) 0.
Proof.
  intros Hf Hh Hn. split.
  - unfold Expression.run_frame.
    destruct (Expression.faces fr) as [[|f fs]|]; try discriminate; reflexivity.
  - unfold Gesture.loop_frame.
    assert (Hc : match Gesture.hands gfr with
                 | Some (hand_landmarks :: _) =>
                     Gesture.count (Gesture.hand_counter gst) hand_landmarks
                       (Gesture.handedness gfr)
                 | _ => Py.ret 0
                 end = Some 0).
    { destruct (Gesture.hands gfr) as [[|f fs]|]; try discriminate; reflexivity. }
    rewrite Hc. cbn [Py.bind].
    destruct (push_int_total (Gesture.buffer gst) 0 Hn) as [-> _].
    cbn [Py.bind].
    destruct (Gesture.send_if_changed _ _ _ _) as [[client prev] evs].
    do 2 eexists. split; reflexivity.
Qed.

Lemma frame_without_subject_witness :
  Expression.run_frame Samples.taxicab Samples.at_start Samples.no_face
  = Some (Samples.at_start, [])
  /\ exists gst' evs,
       Gesture.loop_frame Samples.five_shown Samples.no_hand = Some (gst', evs)
       /\ Gesture.buffer gst' = Py.mk_deque 5 [5; 5; 0].
Proof.
  apply (frame_without_subject Samples.taxicab Samples.at_start Samples.no_face
           Samples.five_shown Samples.no_hand);
    [reflexivity | reflexivity | simpl; lia].
Defined.

(** C3, counterexample.  In the gesture loop a frame without a hand changes
    the buffer: after two frames with five fingers the buffer [5, 5]
    becomes [5, 5, 0]. *)
Lemma gesture_buffer_changes_without_hand :
  Mp.detected (Gesture.hands Samples.no_hand) = false
  /\ (exists gst' evs,
        Gesture.loop_frame Samples.five_shown Samples.no_hand = Some (gst', evs)
        /\ Py.items (Gesture.buffer gst') = [5; 5; 0]
        /\ Gesture.buffer gst' <> Gesture.buffer Samples.five_shown)
  /\ ~ (forall gst gfr gst' evs,
          Mp.detected (Gesture.hands gfr) = false ->
          Gesture.loop_frame gst gfr = Some (gst', evs) ->
          Gesture.buffer gst' = Gesture.buffer gst).
Proof.
  split; [reflexivity|]. split.
  - do 2 eexists. split; [reflexivity|]. split; [reflexivity | discriminate].
  - intros H.
    specialize (H Samples.five_shown Samples.no_hand _ _ eq_refl eq_refl).
    discriminate H.
Qed.

(** ** The finger counter *)

Section CounterFacts.
Import Py Mp Gesture.

Lemma thumb_bit (self : HandCounter) (label : option string)
    (tip joint : Landmark) :
  thumb self label tip joint = 0 \/ thumb self label tip joint = 1.
Proof.
  unfold thumb.
  repeat match goal with
         | |- context [if ?b then _ else _] => destruct b
         end; auto.
Qed.

Lemma b2z_if (b : bool) (n : Z) :
  (if b then n + 1 else n) = n + Z.b2z b.
Proof. destruct b; simpl; lia. Qed.

(** The loop over the four finger tips adds one per extended finger. *)
Lemma others_sum (lm : list Landmark) (fingers : Z) :
  (20 < List.length lm)%nat ->
  others lm [8; 12; 16; 20]%nat fingers
  = Some (fingers + Z.b2z (extended lm 8 6) + Z.b2z (extended lm 12 10)
          + Z.b2z (extended lm 16 14) + Z.b2z (extended lm 20 18)).
Proof.
  intros Hlen. unfold extended.
  destruct (index_some lm 8) as [t8 H8]; [lia|].
  destruct (index_some lm 6) as [p6 H6]; [lia|].
  destruct (index_some lm 12) as [t12 H12]; [lia|].
  destruct (index_some lm 10) as [p10 H10]; [lia|].
  destruct (index_some lm 16) as [t16 H16]; [lia|].
  destruct (index_some lm 14) as [p14 H14]; [lia|].
  destruct (index_some lm 20) as [t20 H20]; [lia|].
  destruct (index_some lm 18) as [p18 H18]; [lia|].
  cbn [others Nat.sub]. rewrite H8, H6. cbn [bind].
  rewrite H12, H10. cbn [bind]. rewrite H16, H14. cbn [bind].
  rewrite H20, H18. cbn [bind]. unfold ret.
  rewrite !b2z_if. reflexivity.
Qed.

Lemma clamp_id (n : Z) : 0 <= n <= 5 -> clamp n = n.
Proof.
  intros Hn. unfold clamp.
  destruct (Z.ltb_spec n 0); [lia|]. destruct (Z.ltb_spec 5 n); lia.
Qed.

Lemma clamp_range (n : Z) : 0 <= clamp n <= 5.
Proof.
  unfold clamp. destruct (Z.ltb_spec n 0).
  - simpl. lia.
  - destruct (Z.ltb_spec 5 n); lia.
Qed.

Lemma b2z_range (b : bool) : 0 <= Z.b2z b <= 1.
Proof. destruct b; simpl; lia. Qed.

(** [count] on a hand of 21 landmarks. *)
Lemma count_spec (self : HandCounter) (lm : list Landmark)
    (label : option string) :
  (20 < List.length lm)%nat ->
  exists tip joint,
    index lm 4 = Some tip /\ index lm 3 = Some joint
    /\ count self lm label
       = Some (clamp (thumb self label tip joint
                      + Z.b2z (extended lm 8 6) + Z.b2z (extended lm 12 10)
                      + Z.b2z (extended lm 16 14) + Z.b2z (extended lm 20 18))).
Proof.
  intros Hlen.
  destruct (index_some lm 4) as [tip H4]; [lia|].
  destruct (index_some lm 3) as [joint H3]; [lia|].
  exists tip, joint. repeat split; auto.
  unfold count. rewrite H4, H3. cbn [bind].
  rewrite (others_sum lm _ Hlen). cbn [bind]. reflexivity.
Qed.

Lemma count_range (self : HandCounter) (lm : list Landmark)
    (label : option string) (n : Z) :
  count self lm label = Some n -> 0 <= n <= 5.
Proof.
  unfold count. destruct (index lm 4); [|discriminate].
  destruct (index lm 3); [|discriminate]. cbn [bind].
  destruct (others lm _ _); [|discriminate]. cbn [bind]. unfold ret.
  intros H; injection H as <-. apply clamp_range.
Qed.

End CounterFacts.

Section TableFacts.
Import Py Mp Gesture.

Lemma bit_iff (b : bool) (P : Prop) :
  (b = true <-> P) -> ((if b then 1 else 0) = 1 <-> P).
Proof. destruct b; intros [H1 H2]; split; intros H; auto; try lia.
       apply H2 in H. discriminate. Qed.

Lemma extended_iff (lm : list Landmark) (tip_id pip_id : nat) :
  extended lm tip_id pip_id = true
  <-> exists tip pip, index lm tip_id = Some tip
                      /\ index lm pip_id = Some pip /\ (y tip < y pip)%Q.
Proof.
  unfold extended. split.
  - destruct (index lm tip_id) as [t|]; [|discriminate].
    destruct (index lm pip_id) as [p|]; [|discriminate].
    intros H. exists t, p. repeat split; auto. apply Qltb_lt, H.
  - intros (t & p & -> & -> & H). apply Qltb_lt, H.
Qed.

End TableFacts.

(** C4.  On a hand of 21 landmarks the thumb adds 1 to the count exactly
    as the table says: reported Right and mirrored, iff tip.x < joint.x;
    Right and not mirrored, iff tip.x > joint.x; Left and mirrored, iff
    tip.x > joint.x; Left and not mirrored, iff tip.x < joint.x.  When no
    handedness is reported the configured hand is used in its place and
    [count] still returns; the gesture loop configures the right hand and a
    mirrored image. *)
Theorem thumb_follows_table (self : Gesture.HandCounter)
    (lm : list Mp.Landmark) (label : option string) (a : bool) :
  (20 < List.length lm)%nat ->
  (exists tip joint,
      Py.index lm 4 = Some tip /\ Py.index lm 3 = Some joint
      /\ (Gesture.thumb (Gesture.mk_counter a true) (Some "Right"%string) tip joint = 1
          <-> (Mp.x tip < Mp.x joint)%Q)
      /\ (Gesture.thumb (Gesture.mk_counter a false) (Some "Right"%string) tip joint = 1
          <-> (Mp.x joint < Mp.x tip)%Q)
      /\ (Gesture.thumb (Gesture.mk_counter a true) (Some "Left"%string) tip joint = 1
          <-> (Mp.x joint < Mp.x tip)%Q)
      /\ (Gesture.thumb (Gesture.mk_counter a false) (Some "Left"%string) tip joint = 1
          <-> (Mp.x tip < Mp.x joint)%Q)
      /\ (Gesture.thumb self label tip joint = 0
          \/ Gesture.thumb self label tip joint = 1)
      /\ (Py.truthy label = false ->
          Gesture.thumb self label tip joint
          = Gesture.thumb self
              (Some (if Gesture.assume_right_hand self
                     then "Right" else "Left")%string) tip joint)
      /\ exists rest,
           0 <= rest <= 4
           /\ Gesture.count self lm label
              = Some (Gesture.thumb self label tip joint + rest))
  /\ (forall smooth client, smooth <= Py.ssize_max -> exists st,
        Gesture.loop_init smooth client = Some st
        /\ Gesture.hand_counter st = Gesture.mk_counter true true)
  /\ (forall smooth client st,
        Gesture.loop_init smooth client = Some st ->
        Gesture.hand_counter st = Gesture.mk_counter true true).
Proof.
  intros Hlen. split; [|split].
  - destruct (count_spec self lm label Hlen) as (tip & joint & H4 & H3 & Hc).
    exists tip, joint. split; [exact H4|]. split; [exact H3|].
    split; [apply bit_iff, Qltb_lt|]. split; [apply bit_iff, Qltb_lt|].
    split; [apply bit_iff, Qltb_lt|]. split; [apply bit_iff, Qltb_lt|].
    split; [apply thumb_bit|]. split.
    + intros Hl. unfold Gesture.thumb. rewrite Hl.
      destruct (Gesture.assume_right_hand self); reflexivity.
    + pose proof (thumb_bit self label tip joint) as Ht.
      pose proof (b2z_range (Gesture.extended lm 8 6)).
      pose proof (b2z_range (Gesture.extended lm 12 10)).
      pose proof (b2z_range (Gesture.extended lm 16 14)).
      pose proof (b2z_range (Gesture.extended lm 20 18)).
      rewrite clamp_id in Hc by lia.
      exists (Z.b2z (Gesture.extended lm 8 6) + Z.b2z (Gesture.extended lm 12 10)
              + Z.b2z (Gesture.extended lm 16 14)
              + Z.b2z (Gesture.extended lm 20 18)).
      split; [lia|]. rewrite Hc. f_equal. ring.
  - intros smooth client Hs. unfold Gesture.loop_init.
    rewrite (deque_new_max smooth Hs). cbn [Py.bind Py.ret].
    eexists. split; reflexivity.
  - intros smooth client st. unfold Gesture.loop_init.
    destruct (Py.deque_new (Z.max 1 smooth)) as [buf|]; [|discriminate].
    cbn [Py.bind Py.ret]. intros [= <-]. reflexivity.
Qed.

Lemma thumb_follows_table_witness :
  Gesture.thumb (Gesture.mk_counter true true) (Some "Right"%string)
    (Mp.mk_lm (40 # 100) (1 # 2)) (Mp.mk_lm (45 # 100) (1 # 2)) = 1
  /\ exists n,
       Gesture.count (Gesture.mk_counter true true) Samples.thumb_out None
       = Some n.
Proof.
  destruct (thumb_follows_table (Gesture.mk_counter true true)
              Samples.thumb_out None true ltac:(simpl; lia))
    as [(tip & joint & H4 & H3 & Hrow & _ & _ & _ & _ & _ & rest & _ & Hc) _].
  injection H4 as <-. injection H3 as <-. split.
  - apply Hrow. reflexivity.
  - eexists. exact Hc.
Defined.

(** C5.  On a hand of 21 landmarks each of the index, middle, ring and
    pinky fingers counts as extended iff the y of its tip (8, 12, 16, 20)
    is strictly below the y of its proximal joint (6, 10, 14, 18), each on
    its own, and [count] returns the sum of the five decisions, which lies
    in [0, 5] and which the clamp leaves as it is; whatever landmark list it
    is given, a count that is returned lies in [0, 5]. *)
Theorem count_is_clamped_sum (self : Gesture.HandCounter)
    (lm : list Mp.Landmark) (label : option string) :
  (20 < List.length lm)%nat ->
  (exists tip joint,
      Py.index lm 4 = Some tip /\ Py.index lm 3 = Some joint
      /\ let total :=
           Gesture.thumb self label tip joint
           + Z.b2z (Gesture.extended lm 8 6) + Z.b2z (Gesture.extended lm 12 10)
           + Z.b2z (Gesture.extended lm 16 14) + Z.b2z (Gesture.extended lm 20 18) in
         Gesture.count self lm label = Some (Gesture.clamp total)
         /\ Gesture.clamp total = total /\ 0 <= total <= 5)
  /\ (forall tip_id pip_id,
        Gesture.extended lm tip_id pip_id = true
        <-> exists tip pip,
              Py.index lm tip_id = Some tip /\ Py.index lm pip_id = Some pip
              /\ (Mp.y tip < Mp.y pip)%Q)
  /\ (forall (any : list Mp.Landmark) (hand : option string) (n : Z),
        Gesture.count self any hand = Some n -> 0 <= n <= 5).
Proof.
  intros Hlen. split; [|split].
  - destruct (count_spec self lm label Hlen) as (tip & joint & H4 & H3 & Hc).
    exists tip, joint. split; [exact H4|]. split; [exact H3|].
    intros total. split; [exact Hc|].
    pose proof (thumb_bit self label tip joint) as Ht.
    pose proof (b2z_range (Gesture.extended lm 8 6)).
    pose proof (b2z_range (Gesture.extended lm 12 10)).
    pose proof (b2z_range (Gesture.extended lm 16 14)).
    pose proof (b2z_range (Gesture.extended lm 20 18)).
    assert (Hr : 0 <= total <= 5) by (subst total; lia).
    split; [apply clamp_id, Hr | exact Hr].
  - intros tip_id pip_id. apply extended_iff.
  - intros any hand n. apply count_range.
Qed.

Lemma count_is_clamped_sum_witness :
  Gesture.count (Gesture.mk_counter true true) Samples.open_hand
    (Some "Right"%string) = Some 5.
Proof.
  destruct (count_is_clamped_sum (Gesture.mk_counter true true)
              Samples.open_hand (Some "Right"%string) ltac:(simpl; lia))
    as [(tip & joint & H4 & H3 & Hc & _) _].
  rewrite Hc. injection H4 as <-. injection H3 as <-. reflexivity.
Defined.

(** ** The serial channel *)

Section SerialFacts.
Import Py Serial.

Lemma line_of_code :
  line_of_int 1 = ("1" ++ newline)%string
  /\ line_of_int 2 = ("2" ++ newline)%string
  /\ line_of_int 3 = ("3" ++ newline)%string.
Proof. repeat split. Qed.

(** The keys of [mapping]. *)
Lemma mapping_keys (k : string) :
  dict_get mapping k = None
  <-> ~ In k ["neutral"; "smile"; "frown"]%string.
Proof.
  unfold mapping, dict_get.
  destruct (String.eqb_spec k "neutral") as [->|H1].
  { split; [discriminate | intros H; exfalso; apply H; simpl; auto]. }
  destruct (String.eqb_spec k "smile") as [->|H2].
  { split; [discriminate | intros H; exfalso; apply H; simpl; auto]. }
  destruct (String.eqb_spec k "frown") as [->|H3].
  { split; [discriminate | intros H; exfalso; apply H; simpl; auto]. }
  split; auto. intros _ [H|[H|[H|[]]]]; congruence.
Qed.

Lemma mapping_values (k : string) (val : Z) :
  dict_get mapping k = Some val -> In val [1; 2; 3].
Proof.
  unfold mapping, dict_get.
  destruct (String.eqb k "neutral"); [intros [= <-]; simpl; auto|].
  destruct (String.eqb k "smile"); [intros [= <-]; simpl; auto|].
  destruct (String.eqb k "frown"); [intros [= <-]; simpl; auto|].
  discriminate.
Qed.

(** An int below the limit of [int_max_str_digits] digits is formatted,
    one at or above it is not. *)
Lemma format_line_small (n : Z) :
  Z.abs n < 10 ^ int_max_str_digits -> format_line n = Some (line_of_int n).
Proof.
  intros H. unfold format_line.
  destruct (Z.leb_spec (10 ^ int_max_str_digits) (Z.abs n)); [lia | reflexivity].
Qed.

Lemma format_line_large (n : Z) :
  10 ^ int_max_str_digits <= Z.abs n -> format_line n = None.
Proof.
  intros H. unfold format_line.
  destruct (Z.leb_spec (10 ^ int_max_str_digits) (Z.abs n)); [reflexivity | lia].
Qed.

Lemma format_line_inv (n : Z) (msg : string) :
  format_line n = Some msg ->
  msg = line_of_int n /\ Z.abs n < 10 ^ int_max_str_digits.
Proof.
  unfold format_line.
  destruct (Z.leb_spec (10 ^ int_max_str_digits) (Z.abs n)); [discriminate|].
  intros [= <-]. split; [reflexivity | assumption].
Qed.

Lemma format_line_digit (n : Z) :
  0 <= n <= 9 -> format_line n = Some (line_of_int n).
Proof.
  intros H. apply format_line_small.
  apply Z.lt_le_trans with (10 ^ 1); [simpl; lia|].
  apply Z.pow_le_mono_r; [lia | unfold int_max_str_digits; lia].
Qed.

Lemma mapping_codes (k : string) (val : Z) :
  dict_get mapping k = Some val -> format_line val = Some (line_of_int val).
Proof.
  intros H. apply mapping_values in H. apply format_line_digit.
  simpl in H. lia.
Qed.

(** A label that the mapping does not know, after stripping and
    lower-casing, is not sent, whatever the state of the client. *)
Lemma send_signal_unknown (self : SerialClient) (label : option string)
    (ok : bool) :
  dict_get mapping (lower (strip (or_empty label))) = None ->
  send_signal self label ok = (false, self, [Ev_send_signal label]).
Proof.
  intros Hk. unfold send_signal. rewrite Hk.
  destruct (negb (usable self)); reflexivity.
Qed.

Lemma send_signal_known (self : SerialClient) (label : option string)
    (val : Z) :
  usable self = true ->
  dict_get mapping (lower (strip (or_empty label))) = Some val ->
  send_signal self label true
  = (true, self, [Ev_send_signal label; Ev_write (line_of_int val)]).
Proof.
  intros Hu Hk. unfold send_signal.
  rewrite Hu, Hk, (mapping_codes _ _ Hk). reflexivity.
Qed.

End SerialFacts.

(** C6 (as amended).  On an open channel whose write succeeds, ['neutral']
    is transmitted as 2, ['smile'] as 3 and ['frown'] as 1, each followed
    by a newline, and the send returns true.  The label is looked up after
    white space is stripped from its ends and it is lower-cased: a label
    whose stripped, lower-cased form is not one of the three makes the send
    return false with zero bytes written and the client as it was, without
    raising; one whose stripped, lower-cased form is one of the three is
    transmitted as that label's code. *)
Theorem send_signal_mapping (self : Serial.SerialClient)
    (label : option string) (ok : bool) :
  Serial.usable self = true ->
  let key := Py.lower (Py.strip (Py.or_empty label)) in
  Serial.send_signal self (Some "neutral"%string) true
  = (true, self, [Serial.Ev_send_signal (Some "neutral"%string);
                  Serial.Ev_write ("2" ++ Py.newline)%string])
  /\ Serial.send_signal self (Some "smile"%string) true
     = (true, self, [Serial.Ev_send_signal (Some "smile"%string);
                     Serial.Ev_write ("3" ++ Py.newline)%string])
  /\ Serial.send_signal self (Some "frown"%string) true
     = (true, self, [Serial.Ev_send_signal (Some "frown"%string);
                     Serial.Ev_write ("1" ++ Py.newline)%string])
  /\ (~ In key ["neutral"; "smile"; "frown"]%string ->
      exists evs,
        Serial.send_signal self label ok = (false, self, evs)
        /\ Serial.wire evs = EmptyString /\ Serial.written evs = [])
  /\ (forall val,
        Py.dict_get Serial.mapping key = Some val ->
        Serial.send_signal self label true
        = (true, self, [Serial.Ev_send_signal label;
                        Serial.Ev_write (Py.line_of_int val)])).
Proof.
  intros Hu key.
  split; [apply (send_signal_known self (Some "neutral"%string) 2 Hu); reflexivity|].
  split; [apply (send_signal_known self (Some "smile"%string) 3 Hu); reflexivity|].
  split; [apply (send_signal_known self (Some "frown"%string) 1 Hu); reflexivity|].
  split.
  - intros Hk. apply mapping_keys in Hk.
    rewrite (send_signal_unknown self label ok Hk).
    eexists. split; [reflexivity|]. split; reflexivity.
  - intros val Hk. apply send_signal_known; assumption.
Qed.

Lemma send_signal_mapping_witness :
  Serial.wire
    (snd (Serial.send_signal Samples.open_client (Some "smile"%string) true))
  = ("3" ++ Py.newline)%string
  /\ exists evs,
       Serial.send_signal Samples.open_client (Some "grin"%string) true
       = (false, Samples.open_client, evs)
       /\ Serial.wire evs = EmptyString.
Proof.
  destruct (send_signal_mapping Samples.open_client (Some "grin"%string) true
              eq_refl) as (_ & Hs & _ & Hu & _).
  split.
  - rewrite Hs. reflexivity.
  - destruct Hu as (evs & He & Hw & _).
    + vm_compute. intros [H|[H|[H|[]]]]; discriminate H.
    + exists evs. split; assumption.
Defined.

(** C6, counterexample.  ['SMILE'] is not a key of the mapping, yet on an
    open channel [send_signal('SMILE')] writes [3] and a newline and
    returns true: the claim that every label outside the mapping is
    refused with zero bytes written fails there. *)
Lemma send_signal_accepts_upper_case :
  ~ In "SMILE"%string ["neutral"; "smile"; "frown"]%string
  /\ Serial.send_signal Samples.open_client (Some "SMILE"%string) true
     = (true, Samples.open_client,
        [Serial.Ev_send_signal (Some "SMILE"%string);
         Serial.Ev_write ("3" ++ Py.newline)%string])
  /\ ~ (forall self label ok,
          ~ In label ["neutral"; "smile"; "frown"]%string ->
          fst (fst (Serial.send_signal self (Some label) ok)) = false
          /\ Serial.wire (snd (Serial.send_signal self (Some label) ok))
             = EmptyString).
Proof.
  assert (Hn : ~ In "SMILE"%string ["neutral"; "smile"; "frown"]%string).
  { intros [H|[H|[H|[]]]]; discriminate H. }
  split; [exact Hn|]. split; [reflexivity|].
  intros H. destruct (H Samples.open_client "SMILE"%string true Hn) as [Hf _].
  discriminate Hf.
Qed.

Section FailureFacts.
Import Py Serial.

Lemma failed_unusable (self : SerialClient) : usable (failed self) = false.
Proof. reflexivity. Qed.

Lemma do_call_unusable (self : SerialClient) (k : call) :
  usable self = false ->
  exists e, do_call self k = (false, self, [e]) /\ is_send e = true.
Proof.
  intros Hu. destruct k as [label ok|n ok]; simpl;
    unfold send_signal, send_count; rewrite Hu; simpl;
    eexists; split; reflexivity.
Qed.

(** A client that is not usable answers false to every send, stays as it
    is, and touches no port. *)
Lemma do_calls_unusable (self : SerialClient) (ks : list call) :
  usable self = false ->
  exists evs,
    do_calls self ks = (repeat false (List.length ks), self, evs)
    /\ filter is_port_action evs = [] /\ wire evs = EmptyString
    /\ written evs = [].
Proof.
  intros Hu. induction ks as [|k ks (evs & IH & Hp & Hw & Hwr)].
  - exists []. repeat split.
  - destruct (do_call_unusable self k Hu) as (e & He & Hs).
    exists (e :: evs). simpl. rewrite He, IH. split; [reflexivity|].
    destruct e; try discriminate Hs; simpl; auto.
Qed.

End FailureFacts.

(** C8.  When the write of a send fails, on either variant of the client,
    the send closes the port, drops the handle, marks the client
    unavailable and returns false (a count too long to be formatted ends
    the same way before any write); every later send on that client, with
    any argument and whatever the device would answer, returns false,
    leaves the client in that state, writes nothing and opens nothing. *)
Theorem write_failure_is_terminal (self : Serial.SerialClient)
    (label : option string) (val n : Z) (later : list Serial.call) :
  Serial.usable self = true ->
  Py.dict_get Serial.mapping (Py.lower (Py.strip (Py.or_empty label)))
  = Some val ->
  Serial.send_signal self label false
  = (false, Serial.failed self,
     [Serial.Ev_send_signal label; Serial.Ev_write_error (Py.line_of_int val);
      Serial.Ev_close])
  /\ Serial.send_count self n false
     = (false, Serial.failed self,
        Serial.Ev_send_count n
        :: match Py.format_line n with
           | Some msg => [Serial.Ev_write_error msg; Serial.Ev_close]
           | None => [Serial.Ev_close]
           end)
  /\ (Z.abs n < 10 ^ Py.int_max_str_digits ->
      Py.format_line n = Some (Py.line_of_int n))
  /\ Serial._ser (Serial.failed self) = None
  /\ Serial._available (Serial.failed self) = false
  /\ exists evs,
       Serial.do_calls (Serial.failed self) later
       = (repeat false (List.length later), Serial.failed self, evs)
       /\ filter Serial.is_port_action evs = []
       /\ Serial.wire evs = EmptyString.
Proof.
  intros Hu Hk. split; [|split; [|split; [|split; [|split]]]];
    try reflexivity.
  - unfold Serial.send_signal.
    rewrite Hu, Hk, (mapping_codes _ _ Hk). reflexivity.
  - unfold Serial.send_count. rewrite Hu.
    destruct (Py.format_line n); reflexivity.
  - apply format_line_small.
  - destruct (do_calls_unusable (Serial.failed self) later eq_refl)
      as (evs & Hd & Hp & Hw & _).
    exists evs. repeat split; assumption.
Qed.

Lemma write_failure_is_terminal_witness :
  exists evs,
    Serial.do_calls (Serial.failed Samples.open_client)
      [Serial.Call_signal (Some "smile"%string) true; Serial.Call_count 4 true]
    = ([false; false], Serial.failed Samples.open_client, evs)
    /\ Serial.wire evs = EmptyString.
Proof.
  destruct (write_failure_is_terminal Samples.open_client
              (Some "frown"%string) 1 2
              [Serial.Call_signal (Some "smile"%string) true;
               Serial.Call_count 4 true] eq_refl eq_refl)
    as (_ & _ & _ & _ & _ & evs & Hd & _ & Hw).
  exists evs. split; assumption.
Defined.

(** ** Sending on change *)

Section GateFacts.
Import Py Serial.

Lemma same_label_iff (a : string) (b : option string) :
  Expression.same_label a b = true <-> b = Some a.
Proof.
  destruct b as [s|]; simpl; [|split; discriminate].
  destruct (String.eqb_spec a s) as [->|Hn]; split; auto; try discriminate.
  intros [= ->]. congruence.
Qed.

Lemma same_count_iff (a : Z) (b : option Z) :
  Gesture.same_count a b = true <-> b = Some a.
Proof.
  destruct b as [n|]; simpl; [|split; discriminate].
  destruct (Z.eqb_spec a n) as [->|Hn]; split; auto; try discriminate.
  intros [= ->]. congruence.
Qed.

(** Each call of a send method is recorded once. *)
Lemma send_signal_once (self : SerialClient) (label : option string)
    (ok : bool) :
  sends (snd (send_signal self label ok)) = 1%nat.
Proof.
  unfold send_signal. destruct (negb (usable self)); [reflexivity|].
  destruct (dict_get mapping _); [|reflexivity].
  destruct (format_line _); [|reflexivity]. destruct ok; reflexivity.
Qed.

Lemma send_count_once (self : SerialClient) (n : Z) (ok : bool) :
  sends (snd (send_count self n ok)) = 1%nat.
Proof.
  unfold send_count. destruct (negb (usable self)); [reflexivity|].
  destruct (format_line n); [|reflexivity]. destruct ok; reflexivity.
Qed.

(** The gate of the expression loop. *)
Lemma signal_gate (c : SerialClient) (prev : option string) (label : string)
    (ok : bool) :
  (prev = Some label ->
   Expression.send_if_changed (Some c) prev label ok = (Some c, prev, []))
  /\ (prev <> Some label ->
      Expression.send_if_changed (Some c) prev label ok
      = (Some (snd (fst (send_signal c (Some label) ok))),
         (if fst (fst (send_signal c (Some label) ok))
          then Some label else prev),
         snd (send_signal c (Some label) ok))).
Proof.
  unfold Expression.send_if_changed.
  pose proof (same_label_iff label prev) as Hs.
  destruct (Expression.same_label label prev); simpl; split; intros H.
  - reflexivity.
  - exfalso. apply H, Hs. reflexivity.
  - apply Hs in H. discriminate.
  - destruct (send_signal c (Some label) ok) as [[sent c'] evs]. reflexivity.
Qed.

(** The gate of the gesture loop. *)
Lemma count_gate (c : SerialClient) (prev : option Z) (avg : Z) (ok : bool) :
  (prev = Some avg ->
   Gesture.send_if_changed (Some c) prev avg ok = (Some c, prev, []))
  /\ (prev <> Some avg ->
      Gesture.send_if_changed (Some c) prev avg ok
      = (Some (snd (fst (send_count c avg ok))),
         (if fst (fst (send_count c avg ok)) then Some avg else prev),
         snd (send_count c avg ok))).
Proof.
  unfold Gesture.send_if_changed.
  pose proof (same_count_iff avg prev) as Hs.
  destruct (Gesture.same_count avg prev); simpl; split; intros H.
  - reflexivity.
  - exfalso. apply H, Hs. reflexivity.
  - apply Hs in H. discriminate.
  - destruct (send_count c avg ok) as [[sent c'] evs]. reflexivity.
Qed.

(** Frames that repeat the label last sent send nothing. *)
Lemma signal_repeats (c : SerialClient) (label : string) (oks : list bool) :
  Expression.send_each (Some c) (Some label) (map (pair label) oks)
  = (Some c, Some label, []).
Proof.
  induction oks as [|ok oks IH]; [reflexivity|].
  cbn [map Expression.send_each].
  rewrite (proj1 (signal_gate c (Some label) label ok) eq_refl).
  rewrite IH. reflexivity.
Qed.

Lemma count_repeats (c : SerialClient) (avg : Z) (oks : list bool) :
  Gesture.send_each (Some c) (Some avg) (map (pair avg) oks)
  = (Some c, Some avg, []).
Proof.
  induction oks as [|ok oks IH]; [reflexivity|].
  cbn [map Gesture.send_each].
  rewrite (proj1 (count_gate c (Some avg) avg ok) eq_refl).
  rewrite IH. reflexivity.
Qed.

Lemma option_string_dec (a b : option string) : {a = b} + {a <> b}.
Proof. decide equality. apply string_dec. Qed.

Lemma option_Z_dec (a b : option Z) : {a = b} + {a <> b}.
Proof. decide equality. apply Z.eq_dec. Qed.

End GateFacts.

(** C7.  With a channel present, the gate of either loop calls the
    channel's send exactly when the new value differs from the one last
    sent, and not at all otherwise; the value last sent becomes the new
    value when that send returned true and stays as it was when it returned
    false.  Hence once a value has been sent, any number of frames that
    repeat it call no send, and after a send that returned false a later
    frame with the same value calls the send again. *)
Theorem send_only_on_change (c : Serial.SerialClient)
    (prev : option string) (label : string) (cprev : option Z) (avg : Z)
    (ok : bool) (oks : list bool) :
  let r := Expression.send_if_changed (Some c) prev label ok in
  let sent := fst (fst (Serial.send_signal c (Some label) ok)) in
  let g := Gesture.send_if_changed (Some c) cprev avg ok in
  let gsent := fst (fst (Serial.send_count c avg ok)) in
  ((Serial.sends (snd r) = 1%nat <-> prev <> Some label)
   /\ (Serial.sends (snd r) = 0%nat <-> prev = Some label)
   /\ (prev <> Some label ->
       snd (fst r) = (if sent then Some label else prev)
       /\ snd r = snd (Serial.send_signal c (Some label) ok))
   /\ (prev = Some label -> r = (Some c, prev, []))
   /\ Expression.send_each (Some c) (Some label) (map (pair label) oks)
      = (Some c, Some label, [])
   /\ (prev <> Some label -> sent = false ->
       snd (fst r) = prev
       /\ forall c' ok',
            Serial.sends
              (snd (Expression.send_if_changed (Some c') (snd (fst r)) label ok'))
            = 1%nat))
  /\ ((Serial.sends (snd g) = 1%nat <-> cprev <> Some avg)
      /\ (Serial.sends (snd g) = 0%nat <-> cprev = Some avg)
      /\ (cprev <> Some avg ->
          snd (fst g) = (if gsent then Some avg else cprev)
          /\ snd g = snd (Serial.send_count c avg ok))
      /\ (cprev = Some avg -> g = (Some c, cprev, []))
      /\ Gesture.send_each (Some c) (Some avg) (map (pair avg) oks)
         = (Some c, Some avg, [])
      /\ (cprev <> Some avg -> gsent = false ->
          snd (fst g) = cprev
          /\ forall c' ok',
               Serial.sends
                 (snd (Gesture.send_if_changed (Some c') (snd (fst g)) avg ok'))
               = 1%nat)).
Proof.
  intros r sent g gsent. split.
  - destruct (signal_gate c prev label ok) as [Hsame Hdiff].
    assert (Hd : prev <> Some label -> Serial.sends (snd r) = 1%nat).
    { intros Hn. subst r. rewrite (Hdiff Hn). apply send_signal_once. }
    assert (Hs : prev = Some label -> Serial.sends (snd r) = 0%nat).
    { intros He. subst r. rewrite (Hsame He). reflexivity. }
    split; [split; [|exact Hd]|].
    { intros H1 He. rewrite (Hs He) in H1. discriminate. }
    split; [split; [|exact Hs]|].
    { intros H0. destruct (option_string_dec prev (Some label)) as [|Hn]; auto.
      rewrite (Hd Hn) in H0. discriminate. }
    split. { intros Hn. subst r. rewrite (Hdiff Hn). split; reflexivity. }
    split. { exact Hsame. }
    split. { apply signal_repeats. }
    intros Hn Hf. subst r. rewrite (Hdiff Hn). cbn [fst snd].
    fold sent. rewrite Hf. split; [reflexivity|].
    intros c' ok'. rewrite (proj2 (signal_gate c' prev label ok') Hn).
    apply send_signal_once.
  - destruct (count_gate c cprev avg ok) as [Hsame Hdiff].
    assert (Hd : cprev <> Some avg -> Serial.sends (snd g) = 1%nat).
    { intros Hn. subst g. rewrite (Hdiff Hn). apply send_count_once. }
    assert (Hs : cprev = Some avg -> Serial.sends (snd g) = 0%nat).
    { intros He. subst g. rewrite (Hsame He). reflexivity. }
    split; [split; [|exact Hd]|].
    { intros H1 He. rewrite (Hs He) in H1. discriminate. }
    split; [split; [|exact Hs]|].
    { intros H0. destruct (option_Z_dec cprev (Some avg)) as [|Hn]; auto.
      rewrite (Hd Hn) in H0. discriminate. }
    split. { intros Hn. subst g. rewrite (Hdiff Hn). split; reflexivity. }
    split. { exact Hsame. }
    split. { apply count_repeats. }
    intros Hn Hf. subst g. rewrite (Hdiff Hn). cbn [fst snd].
    fold gsent. rewrite Hf. split; [reflexivity|].
    intros c' ok'. rewrite (proj2 (count_gate c' cprev avg ok') Hn).
    apply send_count_once.
Qed.

Lemma send_only_on_change_witness :
  Expression.send_if_changed (Some Samples.open_client) None "smile" false
  = (Some (Serial.failed Samples.open_client), None,
     [Serial.Ev_send_signal (Some "smile"%string);
      Serial.Ev_write_error ("3" ++ Py.newline)%string; Serial.Ev_close])
  /\ Serial.sends
       (snd (Expression.send_if_changed
               (Some (Serial.failed Samples.open_client)) None "smile" true))
     = 1%nat
  /\ Gesture.send_each (Some Samples.open_client) (Some 3)
       [(3, true); (3, false); (3, true)]
     = (Some Samples.open_client, Some 3, []).
Proof.
  destruct (send_only_on_change Samples.open_client None "smile" (Some 3) 3
              false [true; false; true])
    as [(_ & _ & _ & _ & _ & Hretry) (_ & _ & _ & _ & Hrep & _)].
  destruct Hretry as [_ Hagain]; [discriminate | reflexivity |].
  split; [reflexivity|]. split; [apply Hagain | exact Hrep].
Defined.

(** ** What reaches the wire *)

Section RoundFacts.
Import Py.

(** [round] stays between integer bounds of its argument. *)
Lemma round_range (a b : Z) (q : Q) :
  (inject_Z a <= q)%Q -> (q <= inject_Z b)%Q -> a <= round q <= b.
Proof.
  intros Ha Hb.
  assert (Hfa : a <= Qfloor q).
  { rewrite <- (Qfloor_Z a). apply Qfloor_resp_le, Ha. }
  assert (Hfb : Qfloor q <= b).
  { rewrite <- (Qfloor_Z b). apply Qfloor_resp_le, Hb. }
  unfold round.
  destruct (Qltb (q - inject_Z (Qfloor q)) (1 # 2)) eqn:E1; [lia|].
  assert (Hlt : Qfloor q < b).
  { apply Qltb_ge in E1.
    assert (Hq : (inject_Z (Qfloor q) < q)%Q).
    { apply Qlt_le_trans with (y := (inject_Z (Qfloor q) + (1 # 2))%Q).
      - rewrite <- (Qplus_0_r (inject_Z (Qfloor q))) at 1.
        apply Qplus_lt_r. reflexivity.
      - apply (Qplus_le_r _ _ (- inject_Z (Qfloor q))).
        ring_simplify. ring_simplify in E1.
        setoid_replace (-1 * inject_Z (Qfloor q) + q)%Q
          with (q - inject_Z (Qfloor q))%Q by ring.
        setoid_replace (q - inject_Z (Qfloor q))%Q
          with (q + -1 * inject_Z (Qfloor q))%Q by ring.
        exact E1. }
    pose proof (Qlt_le_trans _ _ _ Hq Hb) as Hfb'.
    rewrite <- Zlt_Qlt in Hfb'. exact Hfb'. }
  destruct (Qltb (1 # 2) (q - inject_Z (Qfloor q))); [lia|].
  destruct (Z.even (Qfloor q)); lia.
Qed.

Lemma sum_int_bounds (l : list Z) (acc : Z) :
  Forall (fun c => 0 <= c <= 5) l ->
  acc <= fold_left Z.add l acc <= acc + 5 * len l.
Proof.
  unfold len. intros Hl. revert acc.
  induction Hl as [|c l Hc Hl IH]; intros acc; simpl fold_left.
  - simpl. lia.
  - specialize (IH (acc + c)). cbn [List.length]. lia.
Qed.

(** The mean of counts between 0 and 5 is between 0 and 5. *)
Lemma mean_bounds (l : list Z) :
  l <> [] -> Forall (fun c => 0 <= c <= 5) l ->
  (inject_Z 0 <= inject_Z (sum_int l) / inject_Z (len l))%Q
  /\ (inject_Z (sum_int l) / inject_Z (len l) <= inject_Z 5)%Q.
Proof.
  intros Hne Hl. pose proof (sum_int_bounds l 0 Hl) as Hs.
  fold (sum_int l) in Hs.
  assert (Hn : (0 < inject_Z (len l))%Q).
  { rewrite <- (Zlt_Qlt 0). unfold len. destruct l; [congruence|].
    simpl. lia. }
  split.
  - apply Qle_shift_div_l; [exact Hn|].
    setoid_replace (inject_Z 0 * inject_Z (len l))%Q with (inject_Z 0) by ring.
    rewrite <- Zle_Qle. lia.
  - apply Qle_shift_div_r; [exact Hn|].
    rewrite <- inject_Z_mult, <- Zle_Qle. lia.
Qed.

Lemma append_keeps_range (d : deque Z) (c : Z) :
  Forall (fun c => 0 <= c <= 5) (items d) -> 0 <= c <= 5 ->
  Forall (fun c => 0 <= c <= 5) (items (deque_append d c)).
Proof.
  intros Hd Hc. unfold deque_append; simpl.
  assert (Hb : Forall (fun c => 0 <= c <= 5) (items d ++ [c])).
  { apply Forall_app. split; auto. }
  destruct (maxlen d <? _); auto.
  destruct (items d ++ [c])%list; simpl; auto.
  inversion Hb; auto.
Qed.

End RoundFacts.

Section WireFacts.
Import Py Serial.

Lemma written_app (a b : list event) :
  written (a ++ b) = (written a ++ written b)%list.
Proof.
  induction a as [|e a IH]; [reflexivity|].
  destruct e; simpl; rewrite IH; reflexivity.
Qed.

Lemma count_line_of (n : Z) : in_range n -> count_line (line_of_int n).
Proof.
  unfold in_range, count_line. intros Hn. apply in_map.
  simpl. lia.
Qed.

Lemma send_signal_written (self : SerialClient) (label : option string)
    (ok : bool) :
  Forall signal_line (written (snd (send_signal self label ok))).
Proof.
  unfold send_signal. destruct (negb (usable self)); [constructor|].
  destruct (dict_get mapping _) as [val|] eqn:E; [|constructor].
  rewrite (mapping_codes _ _ E).
  destruct ok; simpl; constructor; [|constructor].
  apply in_map. apply (mapping_values _ _ E).
Qed.

Lemma send_count_written (self : SerialClient) (n : Z) (ok : bool) :
  in_range n -> Forall count_line (written (snd (send_count self n ok))).
Proof.
  intros Hn. unfold send_count. destruct (negb (usable self)); [constructor|].
  rewrite format_line_digit by (unfold in_range in Hn; lia).
  destruct ok; simpl; constructor; [|constructor].
  apply count_line_of, Hn.
Qed.

Lemma signal_gate_written (client : option SerialClient)
    (prev : option string) (label : string) (ok : bool) :
  Forall signal_line
    (written (snd (Expression.send_if_changed client prev label ok))).
Proof.
  unfold Expression.send_if_changed. destruct client as [c|]; [|constructor].
  destruct (negb (Expression.same_label label prev)); [|constructor].
  pose proof (send_signal_written c (Some label) ok) as H.
  destruct (send_signal c (Some label) ok) as [[sent c'] evs]. exact H.
Qed.

Lemma count_gate_written (client : option SerialClient) (prev : option Z)
    (avg : Z) (ok : bool) :
  in_range avg ->
  Forall count_line
    (written (snd (Gesture.send_if_changed client prev avg ok))).
Proof.
  intros Ha. unfold Gesture.send_if_changed.
  destruct client as [c|]; [|constructor].
  destruct (negb (Gesture.same_count avg prev)); [|constructor].
  pose proof (send_count_written c avg ok Ha) as H.
  destruct (send_count c avg ok) as [[sent c'] evs]. exact H.
Qed.

Lemma run_frame_written (hypot : Q -> Q -> Q) (st : Expression.run_state)
    (fr : Expression.frame) (st' : Expression.run_state) (evs : list event) :
  Expression.run_frame hypot st fr = Some (st', evs) ->
  Forall signal_line (written evs).
Proof.
  unfold Expression.run_frame.
  destruct (Expression.faces fr) as [[|f fs]|];
    try (intros [= <- <-]; constructor).
  destruct (index f Expression.L_IDX); [|discriminate].
  destruct (index f Expression.R_IDX); [|discriminate]. cbn [bind].
  destruct (Expression.compute hypot _ f _ _) as [[det [[[label a] b] c]]|];
    [|discriminate].
  cbn [bind].
  pose proof (signal_gate_written (Expression.serial_client st)
                (Expression.prev_label st) label
                (Expression.write_ok fr)) as H.
  destruct (Expression.send_if_changed _ _ _ _) as [[client prev] evs'].
  intros [= <- <-]. exact H.
Qed.

Lemma run_frames_written (hypot : Q -> Q -> Q) (frs : list Expression.frame) :
  forall st st' evs,
    Expression.run_frames hypot st frs = Some (st', evs) ->
    Forall signal_line (written evs).
Proof.
  induction frs as [|fr frs IH]; intros st st' evs.
  - intros [= <- <-]. constructor.
  - cbn [Expression.run_frames].
    destruct (Expression.run_frame hypot st fr) as [[st1 evs1]|] eqn:E1;
      [|discriminate].
    cbn [bind].
    destruct (Expression.run_frames hypot st1 frs) as [[st2 evs2]|] eqn:E2;
      [|discriminate].
    cbn [bind]. intros [= <- <-]. rewrite written_app. apply Forall_app.
    split; [eapply run_frame_written; eauto | eapply IH; eauto].
Qed.

(** One frame of the gesture loop keeps the buffered counts in [0, 5] and
    writes nothing but a count in [0, 5]. *)
Lemma loop_frame_written (st : Gesture.loop_state) (fr : Gesture.frame)
    (st' : Gesture.loop_state) (evs : list event) :
  Forall in_range (items (Gesture.buffer st)) ->
  Gesture.loop_frame st fr = Some (st', evs) ->
  Forall in_range (items (Gesture.buffer st'))
  /\ Forall count_line (written evs).
Proof.
  intros Hinv. unfold Gesture.loop_frame.
  destruct (match Gesture.hands fr with
            | Some (hand_landmarks :: _) =>
                Gesture.count (Gesture.hand_counter st) hand_landmarks
                  (Gesture.handedness fr)
            | _ => ret 0
            end) as [c|] eqn:Ec; [|discriminate].
  assert (Hc : in_range c).
  { destruct (Gesture.hands fr) as [[|f fs]|];
      try (injection Ec as <-; unfold in_range; lia).
    eapply count_range; eauto. }
  cbn [bind]. unfold Smoother.push_int.
  pose proof (append_keeps_range _ _ Hinv Hc) as Hinv'.
  set (d' := deque_append (Gesture.buffer st) c) in *.
  unfold truediv. destruct (Qeq_bool (inject_Z (len (items d'))) 0) eqn:Ez;
    [discriminate|].
  cbn [bind].
  assert (Hne : items d' <> []).
  { intros Hnil. rewrite Hnil in Ez. discriminate. }
  destruct (mean_bounds (items d') Hne Hinv') as [Hlo Hhi].
  pose proof (round_range 0 5 _ Hlo Hhi) as Hr.
  pose proof (count_gate_written (Gesture.serial_client st)
                (Gesture.prev_sent st) _ (Gesture.write_ok fr) Hr) as Hw.
  destruct (Gesture.send_if_changed _ _ _ _) as [[client prev] evs'].
  intros [= <- <-]. split; [exact Hinv' | exact Hw].
Qed.

Lemma loop_frames_written (frs : list Gesture.frame) :
  forall st st' evs,
    Forall in_range (items (Gesture.buffer st)) ->
    Gesture.loop_frames st frs = Some (st', evs) ->
    Forall in_range (items (Gesture.buffer st'))
    /\ Forall count_line (written evs).
Proof.
  induction frs as [|fr frs IH]; intros st st' evs Hinv.
  - intros [= <- <-]. split; [exact Hinv | constructor].
  - cbn [Gesture.loop_frames].
    destruct (Gesture.loop_frame st fr) as [[st1 evs1]|] eqn:E1;
      [|discriminate].
    cbn [bind].
    destruct (Gesture.loop_frames st1 frs) as [[st2 evs2]|] eqn:E2;
      [|discriminate].
    cbn [bind]. intros [= <- <-].
    destruct (loop_frame_written _ _ _ _ Hinv E1) as [Hinv1 Hw1].
    destruct (IH _ _ _ Hinv1 E2) as [Hinv2 Hw2].
    split; [exact Hinv2|]. rewrite written_app. apply Forall_app. auto.
Qed.

End WireFacts.

(** C9.  Every message written in a run of the expression loop is one of
    the codes 1, 2, 3 followed by a newline, and so is every message
    [send_signal] writes; every message written in a run of the gesture
    loop from its start is one of 0..5 followed by a newline, because the
    buffered counts stay in [0, 5] and so does the rounded mean of a
    non-empty buffer of such counts. *)
Theorem transmitted_values_in_range (hypot : Q -> Q -> Q)
    (st st' : Expression.run_state) (frs : list Expression.frame)
    (evs : list Serial.event) (smooth : Z)
    (client : option Serial.SerialClient) (gst gst' : Gesture.loop_state)
    (gfrs : list Gesture.frame) (gevs : list Serial.event) :
  Expression.run_frames hypot st frs = Some (st', evs) ->
  Gesture.loop_init smooth client = Some gst ->
  Gesture.loop_frames gst gfrs = Some (gst', gevs) ->
  Forall Serial.signal_line (Serial.written evs)
  /\ Forall Serial.count_line (Serial.written gevs)
  /\ Forall Serial.in_range (Py.items (Gesture.buffer gst'))
  /\ (forall self label ok,
        Forall Serial.signal_line
          (Serial.written (snd (Serial.send_signal self label ok))))
  /\ (forall counts,
        counts <> [] -> Forall Serial.in_range counts ->
        Serial.in_range
          (Py.round (inject_Z (Py.sum_int counts) / inject_Z (Py.len counts))))
  /\ map Py.line_of_int [1; 2; 3]
     = (map (fun d => d ++ Py.newline) ["1"; "2"; "3"])%string
  /\ map Py.line_of_int [0; 1; 2; 3; 4; 5]
     = (map (fun d => d ++ Py.newline) ["0"; "1"; "2"; "3"; "4"; "5"])%string.
Proof.
  intros Hrun Hinit Hloop.
  split; [eapply run_frames_written; eauto|].
  assert (Hinv : Forall Serial.in_range (Py.items (Gesture.buffer gst))).
  { destruct (loop_init_inv _ _ _ Hinit) as [-> _]. constructor. }
  destruct (loop_frames_written gfrs gst gst' gevs Hinv Hloop) as [Hb Hw].
  split; [exact Hw|]. split; [exact Hb|].
  split; [intros; apply send_signal_written|].
  split; [|split; reflexivity].
  intros counts Hne Hc. destruct (mean_bounds counts Hne Hc) as [Hlo Hhi].
  apply (round_range 0 5 _ Hlo Hhi).
Qed.

Lemma transmitted_values_in_range_witness :
  exists evs gevs,
    Serial.written evs = ["2" ++ Py.newline]%string
    /\ Serial.written gevs
       = ["5" ++ Py.newline; "2" ++ Py.newline; "0" ++ Py.newline]%string
    /\ Forall Serial.signal_line (Serial.written evs)
    /\ Forall Serial.count_line (Serial.written gevs).
Proof.
  destruct (Expression.run_frames Samples.taxicab Samples.at_start
              [Samples.face_frame; Samples.no_face; Samples.face_frame])
    as [[st' evs]|] eqn:Hrun; [|vm_compute in Hrun; discriminate Hrun].
  destruct (Gesture.loop_init 2 (Some Samples.open_client))
    as [gst|] eqn:Hinit; [|discriminate Hinit].
  destruct (Gesture.loop_frames gst
              [Samples.hand_frame; Samples.no_hand; Samples.no_hand])
    as [[gst' gevs]|] eqn:Hloop.
  2:{ injection Hinit as <-. vm_compute in Hloop. discriminate Hloop. }
  destruct (transmitted_values_in_range _ _ _ _ _ _ _ _ _ _ _ Hrun Hinit Hloop)
    as (H1 & H2 & _).
  exists evs, gevs. split; [|split; [|split; assumption]].
  - vm_compute in Hrun. injection Hrun as _ <-. reflexivity.
  - injection Hinit as <-. vm_compute in Hloop. injection Hloop as _ <-.
    reflexivity.
Defined.

(** * Further properties of the code *)

(** ** Opening the port *)

Section OpenFacts.
Import Py Serial Trace.

Variable can_open : string -> Z -> bool.
Variable delay : Q.

(** The sleeps after an accepted attempt return. *)
Lemma sleep_settle : sleep (1 # 10) = Some tt /\ sleep (2 # 10) = Some tt.
Proof. split; reflexivity. Qed.

Lemma sleep_default : sleep default_delay = Some tt.
Proof. reflexivity. Qed.

(** A negative length is refused. *)
Lemma sleep_negative (secs : Q) : (secs < 0)%Q -> sleep secs = None.
Proof.
  intros H. unfold sleep, Qltb.
  destruct (Qle_bool 0 secs) eqn:E; [|reflexivity].
  apply Qle_bool_iff in E. exfalso. apply (Qlt_not_le _ _ H E).
Qed.

(** The attempts on one device stop at the first that succeeds. *)
Lemma try_open_first (p : string) (k : nat) :
  (k = 0%nat \/ sleep delay = Some tt) ->
  forall (attempt : Z) (left : nat),
    (k < left)%nat ->
    (forall j, (j < k)%nat -> can_open p (attempt + Z.of_nat j) = false) ->
    can_open p (attempt + Z.of_nat k) = true ->
    try_open can_open delay p attempt left
    = (Opened (mk_handle p), repeat (Ev_open_error p) k ++ [Ev_open p])%list.
Proof.
  intros Hs. induction k as [|k IH]; intros attempt left Hk Hfail Hok.
  - destruct left as [|left]; [lia|]. simpl.
    rewrite Z.add_0_r in Hok. rewrite Hok. reflexivity.
  - destruct Hs as [Hs|Hs]; [discriminate|].
    destruct left as [|left]; [lia|]. cbn [try_open].
    pose proof (Hfail 0%nat ltac:(lia)) as H0. rewrite Z.add_0_r in H0.
    rewrite H0, Hs.
    rewrite (IH (or_intror Hs) (attempt + 1) left); [reflexivity | lia | |].
    + intros j Hj. specialize (Hfail (S j) ltac:(lia)).
      rewrite <- Hfail. f_equal. lia.
    + rewrite <- Hok. f_equal. lia.
Qed.

(** When every attempt is refused there are exactly [left] of them if the
    sleep between them returns, and one if it raises. *)
Lemma try_open_exhausted (p : string) :
  forall (left : nat) (attempt : Z),
    (forall j, (j < left)%nat -> can_open p (attempt + Z.of_nat j) = false) ->
    try_open can_open delay p attempt left
    = match sleep delay, left with
      | Some _, _ => (Refused, repeat (Ev_open_error p) left)
      | None, O => (Refused, [])
      | None, S _ => (Aborted, [Ev_open_error p])
      end.
Proof.
  induction left as [|left IH]; intros attempt Hfail.
  - destruct (sleep delay); reflexivity.
  - cbn [try_open].
    pose proof (Hfail 0%nat ltac:(lia)) as H0. rewrite Z.add_0_r in H0.
    rewrite H0, IH.
    + destruct (sleep delay); reflexivity.
    + intros j Hj. specialize (Hfail (S j) ltac:(lia)).
      rewrite <- Hfail. f_equal. lia.
Qed.

(** The attempts on one device name no other device, and there are at most
    [left] of them. *)
Lemma try_open_attempted (p : string) :
  forall (left : nat) (attempt : Z),
    Forall (eq p) (attempted (snd (try_open can_open delay p attempt left)))
    /\ (List.length (attempted (snd (try_open can_open delay p attempt left)))
        <= left)%nat.
Proof.
  induction left as [|left IH]; intros attempt; cbn [try_open].
  - split; [constructor | simpl; lia].
  - destruct (can_open p attempt).
    + split; [repeat constructor | simpl; lia].
    + destruct (sleep delay); [|split; [repeat constructor | simpl; lia]].
      specialize (IH (attempt + 1)).
      destruct (try_open can_open delay p (attempt + 1) left) as [r evs].
      cbn [snd attempted List.length] in *. destruct IH as [H1 H2].
      split; [constructor; [reflexivity | exact H1] | lia].
Qed.

(** A handle that is returned is a handle on the device asked for, and the
    trace ends with its [Ev_open]. *)
Lemma try_open_opened (p : string) :
  forall (left : nat) (attempt : Z) (s : handle) (evs : list event),
    try_open can_open delay p attempt left = (Opened s, evs) ->
    s = mk_handle p
    /\ exists k, evs = (repeat (Ev_open_error p) k ++ [Ev_open p])%list
                 /\ (k < left)%nat
                 /\ can_open p (attempt + Z.of_nat k) = true
                 /\ (k = 0%nat \/ sleep delay = Some tt).
Proof.
  induction left as [|left IH]; intros attempt s evs; cbn [try_open];
    [discriminate|].
  destruct (can_open p attempt) eqn:Hc.
  - intros [= <- <-]. split; [reflexivity|]. exists 0%nat.
    rewrite Z.add_0_r. repeat split; auto; lia.
  - destruct (sleep delay) as [[]|] eqn:Hs; [|discriminate].
    destruct (try_open can_open delay p (attempt + 1) left) as [r evs'] eqn:E.
    intros [= -> <-]. destruct (IH _ _ _ E) as [Hh (k & -> & Hk & Hok & _)].
    split; [exact Hh|]. exists (S k).
    split; [reflexivity|]. split; [lia|]. split; [|right; reflexivity].
    rewrite <- Hok. f_equal. lia.
Qed.

Lemma try_open_refused (p : string) :
  forall (left : nat) (attempt : Z) (evs : list event),
    try_open can_open delay p attempt left = (Refused, evs) ->
    evs = repeat (Ev_open_error p) left
    /\ forall j, (j < left)%nat -> can_open p (attempt + Z.of_nat j) = false.
Proof.
  induction left as [|left IH]; intros attempt evs; cbn [try_open].
  - intros [= <-]. split; [reflexivity | intros j Hj; lia].
  - destruct (can_open p attempt) eqn:Hc; [discriminate|].
    destruct (sleep delay); [|discriminate].
    destruct (try_open can_open delay p (attempt + 1) left) as [r evs'] eqn:E.
    intros [= -> <-]. destruct (IH _ _ E) as [-> Hall].
    split; [reflexivity|]. intros [|j] Hj.
    + rewrite Z.add_0_r. exact Hc.
    + rewrite <- (Hall j ltac:(lia)). f_equal. lia.
Qed.

(** The loop is left by an exception only at the first refused attempt,
    and only when the sleep raises. *)
Lemma try_open_aborted (p : string) :
  forall (left : nat) (attempt : Z) (evs : list event),
    try_open can_open delay p attempt left = (Aborted, evs) ->
    sleep delay = None /\ evs = [Ev_open_error p]
    /\ can_open p attempt = false /\ (0 < left)%nat.
Proof.
  induction left as [|left IH]; intros attempt evs; cbn [try_open];
    [discriminate|].
  destruct (can_open p attempt) eqn:Hc; [discriminate|].
  destruct (sleep delay) eqn:Hs.
  - destruct (try_open can_open delay p (attempt + 1) left) as [r evs'] eqn:E.
    intros [= -> <-]. destruct (IH _ _ E) as [Hn _]. discriminate.
  - intros [= <-]. repeat split; auto; lia.
Qed.

Lemma attempted_app (a b : list event) :
  attempted (a ++ b) = (attempted a ++ attempted b)%list.
Proof.
  induction a as [|e a IH]; [reflexivity|].
  destruct e; simpl; rewrite IH; reflexivity.
Qed.

(** Only candidates are attempted. *)
Lemma open_candidates_attempted (n : Z) (candidates : list string) :
  Forall (fun d => In d candidates)
    (attempted (snd (open_candidates can_open n delay candidates))).
Proof.
  induction candidates as [|p rest IH]; simpl; [constructor|].
  pose proof (proj1 (try_open_attempted p (Z.to_nat n) 1)) as Hp.
  assert (Hp' : Forall (fun d => In d (p :: rest))
                  (attempted (snd (try_open can_open delay p 1 (Z.to_nat n))))).
  { eapply Forall_impl; [|exact Hp]. intros d <-. left. reflexivity. }
  destruct (try_open can_open delay p 1 (Z.to_nat n)) as [[s| |] evs];
    simpl in *; try exact Hp'.
  destruct (open_candidates can_open n delay rest) as [r evs']. simpl in *.
  rewrite attempted_app. apply Forall_app. split; [exact Hp'|].
  eapply Forall_impl; [|exact IH]. intros d Hd. right. exact Hd.
Qed.

(** A handle that is obtained is on a device that was attempted. *)
Lemma open_candidates_opened (n : Z) (candidates : list string) :
  forall (s : handle) (evs : list event),
    open_candidates can_open n delay candidates = (Opened s, evs) ->
    In (device s) (attempted evs).
Proof.
  induction candidates as [|p rest IH]; intros s evs; simpl; [discriminate|].
  destruct (try_open can_open delay p 1 (Z.to_nat n)) as [[s1| |] evs1] eqn:E1.
  - intros [= <- <-].
    destruct (try_open_opened p _ _ _ _ E1) as [-> (k & -> & _)].
    rewrite attempted_app. apply in_or_app. right. simpl. auto.
  - destruct (open_candidates can_open n delay rest) as [r evs2] eqn:E2.
    intros [= -> <-]. rewrite attempted_app. apply in_or_app. right.
    eapply IH. reflexivity.
  - discriminate.
Qed.

End OpenFacts.

(** X1.  [open] on a client with a port: when attempt [k + 1] is the first
    that the device accepts, [k < retries], and the sleep between attempts
    returns (or [k = 0], when there is none), the client ends available
    with a handle on that port after [k] failed attempts and one
    successful one, and [open] returns; the ports listed by the host play
    no part. *)
Theorem open_explicit_port_succeeds (can_open : string -> Z -> bool)
    (self : Serial.SerialClient) (comports : list string) (k : nat) :
  Py.truthy (Serial.port self) = true ->
  (k = 0%nat \/ Py.sleep (Serial.delay self) = Some tt) ->
  (k < Z.to_nat (Serial.retries self))%nat ->
  (forall j, (j < k)%nat ->
     can_open (Py.or_empty (Serial.port self)) (1 + Z.of_nat j) = false) ->
  can_open (Py.or_empty (Serial.port self)) (1 + Z.of_nat k) = true ->
  Serial.open self comports can_open
  = (Serial.mk_client (Serial.port self) (Serial.baud self)
       (Serial.retries self) (Serial.delay self)
       (Some (Serial.mk_handle (Py.or_empty (Serial.port self)))) true,
     repeat (Serial.Ev_open_error (Py.or_empty (Serial.port self))) k
     ++ [Serial.Ev_open (Py.or_empty (Serial.port self))],
     false)%list.
Proof.
  intros Hp Hs Hk Hfail Hok. unfold Serial.open. rewrite Hp.
  cbn [Serial.open_candidates].
  rewrite (try_open_first can_open _ _ k Hs 1 _ Hk Hfail Hok). reflexivity.
Qed.

Lemma open_explicit_port_succeeds_witness :
  Serial.usable
    (fst (fst (Serial.open (Serial.failed Samples.open_client)
                 ["/dev/ttyUSB7"%string] (fun _ attempt => attempt =? 3))))
  = true
  /\ Trace.attempted
       (snd (fst (Serial.open (Serial.failed Samples.open_client)
                    ["/dev/ttyUSB7"%string] (fun _ attempt => attempt =? 3))))
     = ["/dev/ttyACM0"; "/dev/ttyACM0"; "/dev/ttyACM0"]%string.
Proof.
  rewrite (open_explicit_port_succeeds (fun _ attempt => attempt =? 3)
             (Serial.failed Samples.open_client) ["/dev/ttyUSB7"%string] 2
             eq_refl (or_intror eq_refl) ltac:(simpl; lia)).
  - split; reflexivity.
  - intros j Hj. apply Z.eqb_neq. lia.
  - reflexivity.
Defined.

(** X2.  [open] on a client with a port that refuses every attempt leaves
    the client as it was, without a handle.  When the sleep between
    attempts returns it makes exactly [retries] attempts on that port
    (none when [retries <= 0]) and returns.  When the sleep raises, as it
    does for a negative delay, and [retries >= 1], it makes one attempt
    and the exception leaves [open], whatever later attempts would have
    met. *)
Theorem open_explicit_port_exhausted (can_open : string -> Z -> bool)
    (self : Serial.SerialClient) (comports : list string) :
  Py.truthy (Serial.port self) = true ->
  (Py.sleep (Serial.delay self) = Some tt ->
   (forall j, (j < Z.to_nat (Serial.retries self))%nat ->
      can_open (Py.or_empty (Serial.port self)) (1 + Z.of_nat j) = false) ->
   Serial.open self comports can_open
   = (self,
      repeat (Serial.Ev_open_error (Py.or_empty (Serial.port self)))
        (Z.to_nat (Serial.retries self)),
      false))
  /\ (Py.sleep (Serial.delay self) = None ->
      1 <= Serial.retries self ->
      can_open (Py.or_empty (Serial.port self)) 1 = false ->
      Serial.open self comports can_open
      = (self, [Serial.Ev_open_error (Py.or_empty (Serial.port self))], true))
  /\ ((Serial.delay self < 0)%Q -> Py.sleep (Serial.delay self) = None).
Proof.
  intros Hp. split; [|split].
  - intros Hs Hfail. unfold Serial.open. rewrite Hp.
    cbn [Serial.open_candidates].
    rewrite (try_open_exhausted can_open _ _ _ 1 Hfail), Hs. cbn.
    rewrite app_nil_r. reflexivity.
  - intros Hs Hr Hfail. unfold Serial.open. rewrite Hp.
    cbn [Serial.open_candidates].
    destruct (Z.to_nat (Serial.retries self)) as [|left] eqn:El; [lia|].
    cbn [Serial.try_open]. rewrite Hfail, Hs. reflexivity.
  - apply sleep_negative.
Qed.

Lemma open_explicit_port_exhausted_witness :
  Serial.open (Serial.failed Samples.open_client) [] (fun _ _ => false)
  = (Serial.failed Samples.open_client,
     repeat (Serial.Ev_open_error "/dev/ttyACM0"%string) 3, false)
  /\ Serial.open
       (Serial.mk_client (Some "/dev/ttyACM0"%string) 9600 3 (-1) None false)
       [] (fun _ attempt => 1 <? attempt)
     = (Serial.mk_client (Some "/dev/ttyACM0"%string) 9600 3 (-1) None false,
        [Serial.Ev_open_error "/dev/ttyACM0"%string], true).
Proof.
  split.
  - apply (proj1 (open_explicit_port_exhausted (fun _ _ => false)
                    (Serial.failed Samples.open_client) [] eq_refl));
      [reflexivity | intros j Hj; reflexivity].
  - apply (proj1 (proj2 (open_explicit_port_exhausted
                           (fun _ attempt => 1 <? attempt)
                           (Serial.mk_client (Some "/dev/ttyACM0"%string) 9600
                              3 (-1) None false) [] eq_refl)));
      [reflexivity | simpl; lia | reflexivity].
Defined.

(** X3.  [open] on a client without a port tries only devices that the
    host lists and whose name contains [ACM] or [USB]; a handle it obtains
    is on such a device. *)
Theorem open_discovery_filters (can_open : string -> Z -> bool)
    (self : Serial.SerialClient) (comports : list string) :
  Py.truthy (Serial.port self) = false ->
  let wanted d :=
    In d comports
    /\ (Serial.contains "ACM" d || Serial.contains "USB" d) = true in
  Forall wanted
    (Trace.attempted (snd (fst (Serial.open self comports can_open))))
  /\ (forall s, Serial._ser self = None ->
        Serial._ser (fst (fst (Serial.open self comports can_open))) = Some s ->
        wanted (Serial.device s)).
Proof.
  intros Hp wanted. unfold Serial.open. rewrite Hp.
  set (candidates := filter _ comports).
  assert (Hc : forall d, In d candidates -> wanted d).
  { intros d Hd. unfold candidates in Hd. apply filter_In in Hd. exact Hd. }
  pose proof (open_candidates_attempted can_open (Serial.delay self)
                (Serial.retries self) candidates) as Ha.
  destruct (Serial.open_candidates can_open (Serial.retries self)
              (Serial.delay self) candidates) as [[s| |] evs] eqn:E;
    cbn [fst snd Serial._ser] in *.
  - split; [eapply Forall_impl; [|exact Ha]; exact Hc|].
    intros s' _ [= <-].
    pose proof (open_candidates_opened can_open _ _ _ _ _ E) as Hs.
    rewrite Forall_forall in Ha. apply Hc, Ha, Hs.
  - split; [eapply Forall_impl; [|exact Ha]; exact Hc|].
    intros s' Hnone Hs. congruence.
  - split; [eapply Forall_impl; [|exact Ha]; exact Hc|].
    intros s' Hnone Hs. congruence.
Qed.

Lemma open_discovery_filters_witness :
  Forall (fun d => In d ["/dev/ttyS0"; "/dev/ttyUSB0"; "/dev/ttyACM1"]%string
                   /\ (Serial.contains "ACM" d || Serial.contains "USB" d) = true)
    (Trace.attempted
       (snd (fst (Serial.open (Serial.mk_client None 9600 1 1 None false)
                    ["/dev/ttyS0"; "/dev/ttyUSB0"; "/dev/ttyACM1"]%string
                    (fun d _ => String.eqb d "/dev/ttyACM1")))))
  /\ Trace.attempted
       (snd (fst (Serial.open (Serial.mk_client None 9600 1 1 None false)
                    ["/dev/ttyS0"; "/dev/ttyUSB0"; "/dev/ttyACM1"]%string
                    (fun d _ => String.eqb d "/dev/ttyACM1"))))
     = ["/dev/ttyUSB0"; "/dev/ttyACM1"]%string.
Proof.
  split; [|reflexivity].
  exact (proj1 (open_discovery_filters (fun d _ => String.eqb d "/dev/ttyACM1")
                  (Serial.mk_client None 9600 1 1 None false)
                  ["/dev/ttyS0"; "/dev/ttyUSB0"; "/dev/ttyACM1"]%string eq_refl)).
Defined.

(** ** Constructing and closing a client *)

Section LifeFacts.
Import Py Serial Trace.

Lemma truthy_some (p : option string) :
  truthy p = true -> p = Some (or_empty p) /\ or_empty p <> EmptyString.
Proof. destruct p as [[|c t]|]; try discriminate. split; [reflexivity | discriminate]. Qed.

Lemma repeat_attempted (p : string) (k : nat) :
  attempted (repeat (Ev_open_error p) k) = repeat p k.
Proof. induction k as [|k IH]; simpl; [|rewrite IH]; reflexivity. Qed.

(** Calls on a client that is not usable record the calls and nothing
    else. *)
Lemma do_calls_unusable_trace (self : SerialClient) (ks : list call) :
  usable self = false ->
  Forall (fun e => is_send e = true) (snd (do_calls self ks))
  /\ fst (do_calls self ks) = (repeat false (List.length ks), self).
Proof.
  intros Hu. induction ks as [|k ks [IHe IHr]]; simpl.
  - split; [constructor | reflexivity].
  - destruct (do_call_unusable self k Hu) as (e & He & Hs). rewrite He.
    destruct (do_calls self ks) as [[rs c'] evs]. simpl in *.
    injection IHr as -> ->. split; [|reflexivity].
    constructor; assumption.
Qed.

Lemma count_sends_only (kind : event -> bool) (evs : list event) :
  (forall e, is_send e = true -> kind e = false) ->
  Forall (fun e => is_send e = true) evs -> count kind evs = 0%nat.
Proof.
  intros Hk Hall. unfold count. induction Hall as [|e evs He _ IH]; [reflexivity|].
  simpl. rewrite (Hk e He). exact IH.
Qed.

Lemma written_sends_only (evs : list event) :
  Forall (fun e => is_send e = true) evs -> written evs = [].
Proof.
  induction 1 as [|e evs He _ IH]; [reflexivity|].
  destruct e; try discriminate He; exact IH.
Qed.

Lemma sends_all (evs : list event) :
  Forall (fun e => is_send e = true) evs -> sends evs = List.length evs.
Proof.
  unfold sends. induction 1 as [|e evs He _ IH]; [reflexivity|].
  simpl. rewrite He. simpl. rewrite IH. reflexivity.
Qed.

Lemma count_app (kind : event -> bool) (a b : list event) :
  count kind (a ++ b) = (count kind a + count kind b)%nat.
Proof. unfold count. rewrite filter_app, length_app. reflexivity. Qed.

Lemma sends_app (a b : list event) : sends (a ++ b) = (sends a + sends b)%nat.
Proof. unfold sends. rewrite filter_app, length_app. reflexivity. Qed.

(** The four ways a call on a usable client can end: nothing to send, a
    write, a failed write, a count that cannot be formatted. *)
Lemma do_call_usable (self : SerialClient) (k : call) :
  usable self = true ->
  (exists e, is_send e = true /\ do_call self k = (false, self, [e]))
  \/ (exists e msg, is_send e = true
                    /\ do_call self k = (true, self, [e; Ev_write msg]))
  \/ (exists e msg, is_send e = true
                    /\ do_call self k
                       = (false, failed self, [e; Ev_write_error msg; Ev_close]))
  \/ (exists e, is_send e = true
                /\ do_call self k = (false, failed self, [e; Ev_close])).
Proof.
  intros Hu. destruct k as [label ok|n ok]; cbn [do_call];
    unfold send_signal, send_count; rewrite Hu; cbn [negb].
  - destruct (dict_get mapping (lower (strip (or_empty label)))) as [val|].
    + destruct (format_line val) as [msg|].
      * destruct ok; [right; left | right; right; left]; do 2 eexists;
          (split; [|reflexivity]); reflexivity.
      * right; right; right. eexists. (split; [|reflexivity]); reflexivity.
    + left. eexists. (split; [|reflexivity]); reflexivity.
  - destruct (format_line n) as [msg|].
    + destruct ok; [right; left | right; right; left]; do 2 eexists;
        (split; [|reflexivity]); reflexivity.
    + right; right; right. eexists. (split; [|reflexivity]); reflexivity.
Qed.

End LifeFacts.

(** X4.  A client constructed without a port, with an empty port, or
    without pyserial, whatever [retries] and [delay] it is given, opens
    nothing and is inert: every later send returns false, leaves it as it
    is, writes nothing and opens nothing. *)
Theorem init_without_port_is_inert (have_serial : bool) (p : option string)
    (b retries : Z) (delay : Q) (comports : list string)
    (can_open : string -> Z -> bool) (later : list Serial.call) :
  Py.truthy p && have_serial = false ->
  let self := Serial.mk_client p b retries delay None false in
  Serial.init have_serial p b retries delay comports can_open
  = (Some self, [])
  /\ exists evs,
       Serial.do_calls self later
       = (repeat false (List.length later), self, evs)
       /\ filter Serial.is_port_action evs = []
       /\ Serial.wire evs = EmptyString.
Proof.
  intros Hg self. unfold self, Serial.init. rewrite Hg. split; [reflexivity|].
  destruct (do_calls_unusable (Serial.mk_client p b retries delay None false)
              later eq_refl)
    as (evs & Hd & Hp & Hw & _).
  exists evs. repeat split; assumption.
Qed.

Lemma init_without_port_is_inert_witness :
  Serial.init true (Some EmptyString) 9600 3 1 ["/dev/ttyACM0"%string]
    (fun _ _ => true)
  = (Some (Serial.mk_client (Some EmptyString) 9600 3 1 None false), [])
  /\ exists evs,
       Serial.do_calls
         (Serial.mk_client (Some EmptyString) 9600 3 1 None false)
         [Serial.Call_count 3 true]
       = ([false], Serial.mk_client (Some EmptyString) 9600 3 1 None false, evs)
       /\ Serial.wire evs = EmptyString.
Proof.
  destruct (init_without_port_is_inert true (Some EmptyString) 9600 3 1
              ["/dev/ttyACM0"%string] (fun _ _ => true)
              [Serial.Call_count 3 true] eq_refl)
    as (Hi & evs & Hd & _ & Hw).
  split; [exact Hi|]. exists evs. split; assumption.
Defined.

(** X5.  The constructor never searches for a port: whatever the host
    lists, every open it attempts is on the port it was given, there are at
    most [retries] of them, and the client it returns is usable exactly
    when one of them succeeded.  No client is returned exactly when the
    first attempt is refused and the sleep that follows raises. *)
Theorem init_attempts_only_given_port (have_serial : bool)
    (p : option string) (b retries : Z) (delay : Q) (comports : list string)
    (can_open : string -> Z -> bool) :
  let r := Serial.init have_serial p b retries delay comports can_open in
  Forall (eq (Py.or_empty p)) (Trace.attempted (snd r))
  /\ (List.length (Trace.attempted (snd r)) <= Z.to_nat retries)%nat
  /\ (forall c, fst r = Some c ->
        (Serial.usable c = true
         <-> In (Serial.Ev_open (Py.or_empty p)) (snd r))
        /\ (Serial.usable c = true ->
            Serial._ser c = Some (Serial.mk_handle (Py.or_empty p)))
        /\ Serial.port c = p /\ Serial.baud c = b
        /\ Serial.retries c = retries /\ Serial.delay c = delay)
  /\ (fst r = None
      <-> Py.truthy p && have_serial = true /\ 1 <= retries
          /\ can_open (Py.or_empty p) 1 = false /\ Py.sleep delay = None)
  /\ (fst r = None -> snd r = [Serial.Ev_open_error (Py.or_empty p)]).
Proof.
  intros r. unfold r, Serial.init.
  destruct (Py.truthy p && have_serial) eqn:Hg.
  2:{ cbn [fst snd Trace.attempted List.length].
      split; [constructor|]. split; [lia|]. split.
      - intros c [= <-]. cbn. repeat split; try discriminate. intros [].
      - split; [|discriminate]. split; [discriminate|].
        intros (Hf & _). discriminate. }
  apply andb_true_iff in Hg. destruct Hg as [Hp _].
  unfold Serial.open. cbn [Serial.port Serial.retries Serial.delay]. rewrite Hp.
  cbn [Serial.open_candidates].
  destruct (try_open_attempted can_open delay (Py.or_empty p)
              (Z.to_nat retries) 1) as [Hall Hlen].
  destruct (Serial.try_open can_open delay (Py.or_empty p) 1 (Z.to_nat retries))
    as [[s| |] evs] eqn:E; cbn [fst snd] in *.
  - destruct (try_open_opened can_open delay _ _ _ _ _ E)
      as [-> (k & -> & Hk & _)].
    split; [exact Hall|]. split; [exact Hlen|]. split.
    + intros c [= <-]. cbn. repeat split; auto.
      intros _. apply in_or_app. right. simpl. auto.
    + split; [|discriminate]. split; [discriminate|].
      intros (_ & Hr & Hc & Hs).
      destruct (Z.to_nat retries) as [|left] eqn:El; [lia|].
      cbn [Serial.try_open] in E. rewrite Hc, Hs in E. discriminate.
  - destruct (try_open_refused can_open delay _ _ _ _ E) as [-> Hfail].
    rewrite app_nil_r in *.
    split; [exact Hall|]. split; [exact Hlen|]. split.
    + intros c [= <-]. cbn. repeat split; try discriminate; auto.
      intros Hin. apply repeat_spec in Hin. discriminate.
    + split; [|discriminate]. split; [discriminate|].
      intros (_ & Hr & Hc & Hs).
      destruct (Z.to_nat retries) as [|left] eqn:El; [lia|].
      cbn [Serial.try_open] in E. rewrite Hc, Hs in E. discriminate.
  - destruct (try_open_aborted can_open delay _ _ _ _ E)
      as (Hs & -> & Hc & Hleft).
    split; [exact Hall|]. split; [exact Hlen|]. split; [discriminate|].
    split; [|reflexivity]. split; [|reflexivity].
    intros _. repeat split; auto. lia.
Qed.

Lemma init_attempts_only_given_port_witness :
  Trace.attempted
    (snd (Serial.init true (Some "/dev/ttyACM0"%string) 9600 5 1
            ["/dev/ttyUSB0"%string] (fun _ _ => false)))
  = repeat "/dev/ttyACM0"%string 5
  /\ Forall (eq "/dev/ttyACM0"%string)
       (Trace.attempted
          (snd (Serial.init true (Some "/dev/ttyACM0"%string) 9600 5 1
                  ["/dev/ttyUSB0"%string] (fun _ _ => false)))).
Proof.
  split; [reflexivity|].
  exact (proj1 (init_attempts_only_given_port true
                  (Some "/dev/ttyACM0"%string) 9600 5 1
                  ["/dev/ttyUSB0"%string] (fun _ _ => false))).
Defined.

(** X6.  [close] closes the port when the client holds one and does
    nothing otherwise; a second [close] does nothing; after [close] the
    client holds no handle and every send returns false, writes nothing and
    opens nothing. *)
Theorem close_is_idempotent (self : Serial.SerialClient)
    (later : list Serial.call) :
  let c := fst (Serial.close self) in
  (snd (Serial.close self)
   = match Serial._ser self with
     | Some _ => [Serial.Ev_close]
     | None => []
     end)
  /\ Serial._ser c = None
  /\ Serial.close c = (c, [])
  /\ exists evs,
       Serial.do_calls c later = (repeat false (List.length later), c, evs)
       /\ filter Serial.is_port_action evs = []
       /\ Serial.wire evs = EmptyString.
Proof.
  intros c. unfold c, Serial.close.
  assert (Hu : Serial.usable
                 (fst (match Serial._ser self with
                       | Some _ => (Serial.failed self, [Serial.Ev_close])
                       | None => (self, [])
                       end)) = false).
  { destruct (Serial._ser self) eqn:E; [reflexivity|].
    unfold Serial.usable. simpl. rewrite E. apply andb_false_r. }
  destruct (do_calls_unusable _ later Hu) as (evs & Hd & Hp & Hw & _).
  destruct (Serial._ser self) eqn:E; cbn [fst snd] in *.
  - repeat split. exists evs. repeat split; assumption.
  - rewrite E. repeat split. exists evs. repeat split; assumption.
Qed.

(** ** Sequences of sends *)

Section CallFacts.
Import Py Serial Trace.

Lemma trues_false (n : nat) : List.length (filter id (repeat false n)) = 0%nat.
Proof. induction n; simpl; auto. Qed.

Lemma do_calls_unusable_length (self : SerialClient) (ks : list call) :
  usable self = false ->
  List.length (snd (do_calls self ks)) = List.length ks.
Proof.
  intros Hu. induction ks as [|k ks IH]; [reflexivity|]. simpl.
  destruct (do_call_unusable self k Hu) as (e & -> & _).
  destruct (do_calls self ks) as [[rs c] evs]. simpl in *. congruence.
Qed.

(** What a sequence of sends on an unusable client amounts to. *)
Lemma unusable_summary (self : SerialClient) (ks : list call) :
  usable self = false ->
  let r := do_calls self ks in
  snd (fst r) = self
  /\ count is_write_error (snd r) = 0%nat
  /\ count is_close (snd r) = 0%nat
  /\ sends (snd r) = List.length ks
  /\ List.length (fst (fst r)) = List.length ks
  /\ List.length (filter id (fst (fst r))) = 0%nat
  /\ written (snd r) = [].
Proof.
  intros Hu r. destruct (do_calls_unusable_trace self ks Hu) as [He Hr].
  pose proof (do_calls_unusable_length self ks Hu) as Hl.
  subst r. destruct (do_calls self ks) as [[rs c] evs]. cbn [fst snd] in *.
  injection Hr as -> ->.
  split; [reflexivity|].
  split; [apply count_sends_only; auto; intros []; simpl; congruence|].
  split; [apply count_sends_only; auto; intros []; simpl; congruence|].
  split; [rewrite sends_all; assumption|].
  split; [apply repeat_length|].
  split; [apply trues_false | apply written_sends_only; assumption].
Qed.

Lemma send_event_kinds (e : event) :
  is_send e = true ->
  is_write_error e = false /\ is_close e = false /\ written [e] = [].
Proof. destruct e; try discriminate; repeat split. Qed.

End CallFacts.

(** X7.  Over any sequence of sends on one client, whatever the device
    answers: the client ends as it was or in the state a write failure
    puts it in; at most one write fails and the port is closed at most
    once; every call is recorded once; and the sends that returned true are
    as many as the messages written. *)
Theorem sends_fail_at_most_once (self : Serial.SerialClient)
    (ks : list Serial.call) :
  let r := Serial.do_calls self ks in
  (snd (fst r) = self \/ snd (fst r) = Serial.failed self)
  /\ (Trace.count Trace.is_write_error (snd r) <= 1)%nat
  /\ (Trace.count Trace.is_close (snd r) <= 1)%nat
  /\ Serial.sends (snd r) = List.length ks
  /\ List.length (fst (fst r)) = List.length ks
  /\ List.length (filter id (fst (fst r)))
     = List.length (Serial.written (snd r)).
Proof.
  revert self. induction ks as [|k ks IH]; intros self r.
  { subst r. simpl. repeat split; auto. }
  destruct (Serial.usable self) eqn:Hu.
  2:{ destruct (unusable_summary self (k :: ks) Hu)
        as (H1 & H2 & H3 & H4 & H5 & H6 & H7).
      fold r in H1, H2, H3, H4, H5, H6, H7.
      rewrite H1, H2, H3, H4, H5, H6, H7. repeat split; auto. }
  subst r. cbn [Serial.do_calls].
  destruct (do_call_usable self k Hu)
    as [(e & Hs & ->)|[(e & msg & Hs & ->)|[(e & msg & Hs & ->)|(e & Hs & ->)]]];
    destruct (send_event_kinds e Hs) as (He1 & He2 & He3).
  - specialize (IH self).
    destruct (Serial.do_calls self ks) as [[rs c] evs]. cbn [fst snd] in *.
    destruct IH as (Hc & Hw & Hcl & Hse & Hl & Ht).
    split; [exact Hc|].
    unfold Trace.count, Serial.sends in *. cbn [app filter].
    rewrite He1, He2, Hs. cbn [List.length id].
    destruct e; try discriminate Hs; cbn [Serial.written];
      repeat split; auto; lia.
  - specialize (IH self).
    destruct (Serial.do_calls self ks) as [[rs c] evs]. cbn [fst snd] in *.
    destruct IH as (Hc & Hw & Hcl & Hse & Hl & Ht).
    split; [exact Hc|].
    unfold Trace.count, Serial.sends in *. cbn [app filter].
    rewrite He1, He2, Hs.
    cbn [List.length id Trace.is_write_error Trace.is_close Serial.is_send].
    destruct e; try discriminate Hs; cbn [Serial.written List.length];
      repeat split; auto; lia.
  - destruct (unusable_summary (Serial.failed self) ks eq_refl)
      as (H1 & H2 & H3 & H4 & H5 & H6 & H7).
    destruct (Serial.do_calls (Serial.failed self) ks) as [[rs c] evs].
    cbn [fst snd] in *. subst c.
    split; [right; reflexivity|].
    unfold Trace.count, Serial.sends in *. cbn [app filter].
    rewrite He1, He2, Hs.
    cbn [List.length id Trace.is_write_error Trace.is_close Serial.is_send].
    destruct e; try discriminate Hs; cbn [Serial.written List.length];
      rewrite ?H7; repeat split; auto; simpl; lia.
  - destruct (unusable_summary (Serial.failed self) ks eq_refl)
      as (H1 & H2 & H3 & H4 & H5 & H6 & H7).
    destruct (Serial.do_calls (Serial.failed self) ks) as [[rs c] evs].
    cbn [fst snd] in *. subst c.
    split; [right; reflexivity|].
    unfold Trace.count, Serial.sends in *. cbn [app filter].
    rewrite He1, He2, Hs.
    cbn [List.length id Trace.is_write_error Trace.is_close Serial.is_send].
    destruct e; try discriminate Hs; cbn [Serial.written List.length];
      rewrite ?H7; repeat split; auto; simpl; lia.
Qed.

(** ** The wire format *)

Section LineFacts.
Import Py Serial.

Lemma append_length (a b : string) :
  String.length (a ++ b) = (String.length a + String.length b)%nat.
Proof. induction a as [|c a IH]; simpl; [|rewrite IH]; reflexivity. Qed.

Lemma append_cancel_r (a b t : string) :
  (a ++ t)%string = (b ++ t)%string -> a = b.
Proof.
  revert b. induction a as [|c a IH]; intros [|d b] H; simpl in *.
  - reflexivity.
  - apply (f_equal String.length) in H. simpl in H.
    rewrite append_length in H. lia.
  - apply (f_equal String.length) in H. simpl in H.
    rewrite append_length in H. lia.
  - injection H as -> H. f_equal. apply IH, H.
Qed.

Lemma to_int_proper (z : Z) :
  Z.to_int z <> Decimal.Pos Decimal.Nil /\ Z.to_int z <> Decimal.Neg Decimal.Nil.
Proof.
  destruct z as [|p|p]; simpl; split; try discriminate; intros [= H];
    exact (Unsigned.to_uint_nonnil p H).
Qed.

(** Reading back the digits that [f"{n}\n"] prints gives [n]. *)
Lemma digits_round_trip (z : Z) :
  option_map Z.of_int (NilZero.int_of_string (NilZero.string_of_int (Z.to_int z)))
  = Some z.
Proof.
  destruct (to_int_proper z) as [H1 H2].
  rewrite (NilZero.isi _ H1 H2). simpl. f_equal. apply DecimalZ.of_to.
Qed.

End LineFacts.

(** X8.  [send_count] applies no range check of its own: on an open
    channel whose write succeeds it writes the decimal digits of any
    integer that can be formatted, one of at most [int_max_str_digits]
    digits, and a newline after them, and different integers give different
    messages.  For an integer of more digits it writes nothing, closes the
    port and returns false, whatever the device would answer. *)
Theorem send_count_lines_distinct (self other : Serial.SerialClient)
    (a b : Z) :
  Serial.usable self = true -> Serial.usable other = true ->
  (Z.abs a < 10 ^ Py.int_max_str_digits ->
   Serial.send_count self a true
   = (true, self, [Serial.Ev_send_count a; Serial.Ev_write (Py.line_of_int a)])
   /\ (Z.abs b < 10 ^ Py.int_max_str_digits ->
       Serial.written (snd (Serial.send_count self a true))
       = Serial.written (snd (Serial.send_count other b true)) -> a = b))
  /\ (10 ^ Py.int_max_str_digits <= Z.abs a ->
      forall ok,
        Serial.send_count self a ok
        = (false, Serial.failed self,
           [Serial.Ev_send_count a; Serial.Ev_close]))
  /\ (Py.line_of_int a = Py.line_of_int b -> a = b).
Proof.
  intros Hs Ho.
  assert (Hinj : Py.line_of_int a = Py.line_of_int b -> a = b).
  { unfold Py.line_of_int. intros H. apply append_cancel_r in H.
    pose proof (digits_round_trip a) as Ha.
    pose proof (digits_round_trip b) as Hb.
    rewrite H in Ha. congruence. }
  unfold Serial.send_count. rewrite Hs, Ho. cbn [negb].
  split; [|split; [|exact Hinj]].
  - intros Ha. rewrite (format_line_small a Ha). split; [reflexivity|].
    intros Hb. rewrite (format_line_small b Hb). cbn.
    intros [= H]. apply Hinj, H.
  - intros Ha ok. rewrite (format_line_large a Ha). reflexivity.
Qed.

Lemma send_count_lines_distinct_witness :
  Serial.written (snd (Serial.send_count Samples.open_client (-12) true))
  = [("-12" ++ Py.newline)%string]
  /\ Serial.send_count Samples.open_client (10 ^ 4300) true
     = (false, Serial.failed Samples.open_client,
        [Serial.Ev_send_count (10 ^ 4300); Serial.Ev_close]).
Proof.
  destruct (send_count_lines_distinct Samples.open_client Samples.open_client
              (-12) 7 eq_refl eq_refl) as (Hw & _).
  destruct (send_count_lines_distinct Samples.open_client Samples.open_client
              (10 ^ 4300) 7 eq_refl eq_refl) as (_ & Hbig & _).
  split.
  - destruct Hw as [-> _]; [|reflexivity].
    apply Z.lt_le_trans with (10 ^ 2); [simpl; lia|].
    apply Z.pow_le_mono_r; [lia | unfold Py.int_max_str_digits; lia].
  - apply Hbig. unfold Py.int_max_str_digits.
    rewrite Z.abs_eq; [lia|]. apply Z.pow_nonneg. lia.
Defined.

(** ** More on the smoothing window *)

Section WindowFacts.
Import Py Smoother.

Lemma lastn_all {A} (n : nat) (l : list A) :
  (List.length l <= n)%nat -> lastn n l = l.
Proof.
  intros H. unfold lastn. replace (List.length l - n)%nat with 0%nat by lia.
  reflexivity.
Qed.

(** The buffer after any sequence of appends, from any buffer that
    respects its capacity. *)
Lemma feed_window_from {A} (vs : list A) :
  forall d : deque A,
    1 <= maxlen d -> len (items d) <= maxlen d ->
    items (feed d vs) = lastn (Z.to_nat (maxlen d)) (items d ++ vs).
Proof.
  induction vs as [|v vs IH] using rev_ind; intros d Hn Hl.
  - simpl. rewrite app_nil_r, lastn_all; [reflexivity|]. unfold len in Hl. lia.
  - rewrite feed_snoc, app_assoc.
    pose proof (append_window (feed d vs) (items d ++ vs) v) as Hw.
    rewrite maxlen_feed in Hw. apply Hw; [exact Hn|]. apply IH; assumption.
Qed.

End WindowFacts.

(** X10.  A buffer that respects its capacity keeps doing so: after any
    further appends it holds the last [maxlen] of the old items followed by
    the new ones, so its length is the smaller of [maxlen] and the number of
    items seen. *)
Theorem buffer_never_exceeds_capacity {A : Type} (d : Py.deque A)
    (vs : list A) :
  1 <= Py.maxlen d -> Py.len (Py.items d) <= Py.maxlen d ->
  Py.items (Smoother.feed d vs)
  = Smoother.lastn (Z.to_nat (Py.maxlen d)) (Py.items d ++ vs)
  /\ Py.len (Py.items (Smoother.feed d vs))
     = Z.min (Py.maxlen d) (Py.len (Py.items d) + Py.len vs)
  /\ Py.maxlen (Smoother.feed d vs) = Py.maxlen d.
Proof.
  intros Hn Hl. rewrite (feed_window_from vs d Hn Hl).
  split; [reflexivity|]. split; [|apply maxlen_feed].
  unfold Py.len in *. rewrite lastn_length, length_app. lia.
Qed.

Lemma buffer_never_exceeds_capacity_witness :
  Py.items (Smoother.feed (Py.mk_deque 3 [1; 2]) [3; 4; 5]) = [3; 4; 5].
Proof.
  destruct (buffer_never_exceeds_capacity (Py.mk_deque 3 [1; 2]) [3; 4; 5]
              ltac:(simpl; lia) ltac:(simpl; unfold Py.len; simpl; lia))
    as [H _].
  rewrite H. reflexivity.
Defined.

(** ** A steady gesture *)

Section SteadyFacts.
Import Py Smoother Gesture View.

Lemma round_of_int (q : Q) (c : Z) : (q == inject_Z c)%Q -> round q = c.
Proof.
  intros Hq. unfold round.
  assert (Hf : Qfloor q = c) by (rewrite Hq; apply Qfloor_Z).
  rewrite Hf.
  assert (Hr : Qltb (q - inject_Z c) (1 # 2) = true).
  { apply Qltb_lt. rewrite Hq. setoid_replace (inject_Z c - inject_Z c)%Q
      with 0%Q by ring. reflexivity. }
  rewrite Hr. reflexivity.
Qed.

Lemma sum_int_repeat (c : Z) (n : nat) (acc : Z) :
  fold_left Z.add (repeat c n) acc = acc + c * Z.of_nat n.
Proof.
  revert acc. induction n as [|n IH]; intros acc.
  - simpl. lia.
  - cbn [repeat fold_left]. rewrite IH. lia.
Qed.

(** The rounded mean of a buffer that holds one value throughout is that
    value. *)
Lemma round_mean_repeat (c : Z) (n : nat) :
  (0 < n)%nat ->
  round (inject_Z (sum_int (repeat c n)) / inject_Z (len (repeat c n))) = c.
Proof.
  intros Hn. apply round_of_int. unfold sum_int, len.
  rewrite sum_int_repeat, repeat_length, Z.add_0_l, inject_Z_mult.
  field. intros H. apply (Qlt_irrefl 0). rewrite <- H at 2.
  rewrite <- (Zlt_Qlt 0). lia.
Qed.

Lemma skipn_repeat {A} (c : A) (m : nat) :
  forall k, skipn m (repeat c k) = repeat c (k - m).
Proof.
  induction m as [|m IH]; intros [|k]; simpl; auto.
Qed.

Lemma lastn_repeat {A} (l : list A) (c : A) (n k : nat) :
  (n <= k)%nat -> lastn n (l ++ repeat c k) = repeat c n.
Proof.
  intros Hk. unfold lastn. rewrite length_app, repeat_length, skipn_app.
  replace (List.length l + k - n - List.length l)%nat with (k - n)%nat by lia.
  rewrite skipn_all2 by lia. simpl. rewrite skipn_repeat. f_equal. lia.
Qed.

(** One frame of the gesture loop, given the count it contributes. *)
Lemma loop_frame_step (st : loop_state) (fr : frame) (c : Z) :
  1 <= maxlen (buffer st) ->
  detected_count (hand_counter st) fr = Some c ->
  let buf := deque_append (buffer st) c in
  let avg := round (inject_Z (sum_int (items buf)) / inject_Z (len (items buf))) in
  loop_frame st fr
  = Some (mk_loop (hand_counter st) buf
            (snd (fst (send_if_changed (serial_client st) (prev_sent st) avg
                         (write_ok fr))))
            (fst (fst (send_if_changed (serial_client st) (prev_sent st) avg
                         (write_ok fr)))),
          snd (send_if_changed (serial_client st) (prev_sent st) avg
                 (write_ok fr))).
Proof.
  intros Hn Hc buf avg. unfold loop_frame.
  unfold detected_count in Hc. rewrite Hc. cbn [bind].
  destruct (push_int_total (buffer st) c Hn) as [-> _]. cbn [bind].
  fold buf. fold avg.
  destruct (send_if_changed _ _ avg _) as [[client prev] evs]. reflexivity.
Qed.

Lemma loop_frames_steady (c : Z) (frs : list frame) :
  forall st,
    1 <= maxlen (buffer st) ->
    Forall (fun fr => detected_count (hand_counter st) fr = Some c) frs ->
    exists st' evs,
      loop_frames st frs = Some (st', evs)
      /\ buffer st' = feed (buffer st) (repeat c (List.length frs))
      /\ hand_counter st' = hand_counter st.
Proof.
  induction frs as [|fr frs IH]; intros st Hn Hall.
  - do 2 eexists. repeat split.
  - inversion Hall as [|? ? Hfr Hrest]; subst.
    cbn [loop_frames]. rewrite (loop_frame_step st fr c Hn Hfr). cbn [bind].
    match goal with
    | |- context [loop_frames ?s frs] => destruct (IH s) as (st' & evs & -> & Hb & Hh)
    end.
    + cbn [buffer]. rewrite maxlen_append. exact Hn.
    + exact Hrest.
    + cbn [bind]. do 2 eexists. split; [reflexivity|].
      split; [rewrite Hb | rewrite Hh]; reflexivity.
Qed.

End SteadyFacts.

(** X11.  When the frames contribute one and the same count [c] for at
    least as many frames as the buffer holds (for instance 0 while no hand
    is in view), the buffer then holds nothing but [c], and on every
    further such frame the buffer stays as it is and the value offered to
    the channel is [c] itself. *)
Theorem steady_count_is_offered (st : Gesture.loop_state)
    (frs : list Gesture.frame) (fr : Gesture.frame) (c : Z) :
  1 <= Py.maxlen (Gesture.buffer st) ->
  Py.len (Py.items (Gesture.buffer st)) <= Py.maxlen (Gesture.buffer st) ->
  Forall (fun f => View.detected_count (Gesture.hand_counter st) f = Some c) frs ->
  View.detected_count (Gesture.hand_counter st) fr = Some c ->
  Py.maxlen (Gesture.buffer st) <= Py.len frs ->
  exists st' evs,
    Gesture.loop_frames st frs = Some (st', evs)
    /\ Gesture.buffer st'
       = Py.mk_deque (Py.maxlen (Gesture.buffer st))
           (repeat c (Z.to_nat (Py.maxlen (Gesture.buffer st))))
    /\ let r := Gesture.send_if_changed (Gesture.serial_client st')
                  (Gesture.prev_sent st') c (Gesture.write_ok fr) in
       Gesture.loop_frame st' fr
       = Some (Gesture.mk_loop (Gesture.hand_counter st) (Gesture.buffer st')
                 (snd (fst r)) (fst (fst r)), snd r).
Proof.
  intros Hn Hl Hall Hfr Hk.
  destruct (loop_frames_steady c frs st Hn Hall) as (st' & evs & Hrun & Hb & Hh).
  exists st', evs. split; [exact Hrun|].
  set (N := Z.to_nat (Py.maxlen (Gesture.buffer st))) in *.
  assert (HN : (N <= List.length frs)%nat) by (unfold Py.len in Hk; lia).
  assert (Hbuf : forall k, (N <= k)%nat ->
            Smoother.feed (Gesture.buffer st) (repeat c k)
            = Py.mk_deque (Py.maxlen (Gesture.buffer st)) (repeat c N)).
  { intros k Hk'.
    pose proof (feed_window_from (repeat c k) (Gesture.buffer st) Hn Hl) as Hi.
    fold N in Hi. rewrite lastn_repeat in Hi by exact Hk'.
    pose proof (maxlen_feed (repeat c k) (Gesture.buffer st)) as Hm.
    destruct (Smoother.feed (Gesture.buffer st) (repeat c k)). simpl in *.
    congruence. }
  rewrite Hb, (Hbuf _ HN). split; [reflexivity|].
  assert (Hn' : 1 <= Py.maxlen (Gesture.buffer st')).
  { rewrite Hb, maxlen_feed. exact Hn. }
  rewrite <- Hh in Hfr.
  rewrite (loop_frame_step st' fr c Hn' Hfr).
  assert (Happ : Py.deque_append (Gesture.buffer st') c = Gesture.buffer st').
  { rewrite Hb, <- feed_snoc.
    replace (repeat c (List.length frs) ++ [c])%list
      with (repeat c (S (List.length frs))) by apply repeat_cons.
    rewrite !Hbuf by lia. reflexivity. }
  rewrite Happ, Hh.
  assert (Hitems : Py.items (Gesture.buffer st') = repeat c N).
  { rewrite Hb, (Hbuf _ HN). reflexivity. }
  rewrite Hitems, round_mean_repeat by (unfold N; lia).
  rewrite Hb, (Hbuf _ HN). reflexivity.
Qed.

Lemma steady_count_is_offered_witness :
  exists st' evs,
    Gesture.loop_frames Samples.five_shown
      [Samples.no_hand; Samples.no_hand; Samples.no_hand; Samples.no_hand;
       Samples.no_hand] = Some (st', evs)
    /\ Gesture.buffer st' = Py.mk_deque 5 [0; 0; 0; 0; 0].
Proof.
  destruct (steady_count_is_offered Samples.five_shown
              [Samples.no_hand; Samples.no_hand; Samples.no_hand;
               Samples.no_hand; Samples.no_hand] Samples.no_hand 0)
    as (st' & evs & Hrun & Hb & _).
  - simpl. lia.
  - unfold Py.len. simpl. lia.
  - repeat constructor.
  - reflexivity.
  - unfold Py.len. simpl. lia.
  - exists st', evs. split; [exact Hrun | exact Hb].
Defined.

(** ** The loops and the channel *)

Section LoopFacts.
Import Py Serial View.

Variable hypot : Q -> Q -> Q.

Lemma signal_gate_none (prev : option string) (label : string) (ok : bool) :
  Expression.send_if_changed None prev label ok = (None, prev, []).
Proof. reflexivity. Qed.

Lemma run_frame_no_client (st st' : Expression.run_state)
    (fr : Expression.frame) (evs : list event) :
  Expression.serial_client st = None ->
  Expression.run_frame hypot st fr = Some (st', evs) ->
  evs = [] /\ Expression.serial_client st' = None
  /\ Expression.prev_label st' = Expression.prev_label st.
Proof.
  intros Hc. unfold Expression.run_frame.
  destruct (Expression.faces fr) as [[|f fs]|];
    try (intros [= <- <-]; auto).
  destruct (index f Expression.L_IDX); [|discriminate].
  destruct (index f Expression.R_IDX); [|discriminate]. cbn [bind].
  destruct (Expression.compute hypot _ f _ _) as [[det [[[label a] b] c]]|];
    [|discriminate].
  cbn [bind]. rewrite Hc. cbn. intros [= <- <-]. auto.
Qed.

Lemma loop_frame_no_client (st st' : Gesture.loop_state) (fr : Gesture.frame)
    (evs : list event) :
  Gesture.serial_client st = None ->
  Gesture.loop_frame st fr = Some (st', evs) ->
  evs = [] /\ Gesture.serial_client st' = None
  /\ Gesture.prev_sent st' = Gesture.prev_sent st.
Proof.
  intros Hc. unfold Gesture.loop_frame.
  destruct (match Gesture.hands fr with
            | Some (hand_landmarks :: _) => _
            | _ => _
            end) as [c|]; [|discriminate].
  cbn [bind]. unfold Smoother.push_int.
  destruct (truediv _ _) as [m|]; [|discriminate]. cbn [bind].
  rewrite Hc. cbn. intros [= <- <-]. auto.
Qed.

(** The detector moves with the picture alone. *)
Lemma run_frame_same_detector (st1 st2 st1' : Expression.run_state)
    (fr1 fr2 : Expression.frame) (e1 : list event) :
  Expression.detector st1 = Expression.detector st2 ->
  picture fr1 = picture fr2 ->
  Expression.run_frame hypot st1 fr1 = Some (st1', e1) ->
  exists st2' e2,
    Expression.run_frame hypot st2 fr2 = Some (st2', e2)
    /\ Expression.detector st2' = Expression.detector st1'.
Proof.
  intros Hd Hp. unfold picture in Hp. injection Hp as Hf Hw Hh.
  unfold Expression.run_frame. rewrite <- Hf, <- Hw, <- Hh, <- Hd.
  destruct (Expression.faces fr1) as [[|f fs]|];
    try (intros [= <- <-]; do 2 eexists; split; [reflexivity | auto]).
  destruct (index f Expression.L_IDX); [|discriminate].
  destruct (index f Expression.R_IDX); [|discriminate]. cbn [bind].
  destruct (Expression.compute hypot _ f _ _) as [[det [[[label a] b] c]]|];
    [|discriminate].
  cbn [bind].
  destruct (Expression.send_if_changed (Expression.serial_client st1) _ _ _)
    as [[c1 p1] ev1].
  destruct (Expression.send_if_changed (Expression.serial_client st2) _ _ _)
    as [[c2 p2] ev2].
  intros [= <- <-]. do 2 eexists. split; reflexivity.
Qed.

Lemma loop_frame_same_buffer (st1 st2 st1' : Gesture.loop_state)
    (fr1 fr2 : Gesture.frame) (e1 : list event) :
  Gesture.hand_counter st1 = Gesture.hand_counter st2 ->
  Gesture.buffer st1 = Gesture.buffer st2 ->
  hand_picture fr1 = hand_picture fr2 ->
  Gesture.loop_frame st1 fr1 = Some (st1', e1) ->
  exists st2' e2,
    Gesture.loop_frame st2 fr2 = Some (st2', e2)
    /\ Gesture.hand_counter st2' = Gesture.hand_counter st1'
    /\ Gesture.buffer st2' = Gesture.buffer st1'.
Proof.
  intros Hh Hb Hp. unfold hand_picture in Hp. injection Hp as Hf Hl.
  unfold Gesture.loop_frame. rewrite <- Hf, <- Hl, <- Hh, <- Hb.
  destruct (match Gesture.hands fr1 with
            | Some (hand_landmarks :: _) => _
            | _ => _
            end) as [c|]; [|discriminate].
  cbn [bind]. unfold Smoother.push_int.
  destruct (truediv _ _) as [m|]; [|discriminate]. cbn [bind].
  destruct (Gesture.send_if_changed (Gesture.serial_client st1) _ _ _)
    as [[c1 p1] ev1].
  destruct (Gesture.send_if_changed (Gesture.serial_client st2) _ _ _)
    as [[c2 p2] ev2].
  intros [= <- <-]. do 2 eexists. repeat split.
Qed.

End LoopFacts.

(** X12.  Without a client (the [--noserial] mode, or pyserial missing)
    neither loop records any channel activity, over any frames, and the
    value last sent stays as it was. *)
Theorem no_client_no_events (hypot : Q -> Q -> Q)
    (frs : list Expression.frame) (gfrs : list Gesture.frame) :
  (forall st st' evs,
      Expression.serial_client st = None ->
      Expression.run_frames hypot st frs = Some (st', evs) ->
      evs = [] /\ Expression.serial_client st' = None
      /\ Expression.prev_label st' = Expression.prev_label st)
  /\ (forall st st' evs,
        Gesture.serial_client st = None ->
        Gesture.loop_frames st gfrs = Some (st', evs) ->
        evs = [] /\ Gesture.serial_client st' = None
        /\ Gesture.prev_sent st' = Gesture.prev_sent st).
Proof.
  split.
  - induction frs as [|fr rest IH]; intros st st' evs Hc.
    + intros [= <- <-]. auto.
    + cbn [Expression.run_frames].
      destruct (Expression.run_frame hypot st fr) as [[st1 e1]|] eqn:E1;
        [|discriminate].
      cbn [Py.bind].
      destruct (Expression.run_frames hypot st1 rest) as [[st2 e2]|] eqn:E2;
        [|discriminate].
      cbn [Py.bind]. intros [= <- <-].
      destruct (run_frame_no_client hypot _ _ _ _ Hc E1) as (-> & Hc1 & Hp1).
      destruct (IH _ _ _ Hc1 E2) as (-> & Hc2 & Hp2).
      repeat split; congruence.
  - induction gfrs as [|fr rest IH]; intros st st' evs Hc.
    + intros [= <- <-]. auto.
    + cbn [Gesture.loop_frames].
      destruct (Gesture.loop_frame st fr) as [[st1 e1]|] eqn:E1; [|discriminate].
      cbn [Py.bind].
      destruct (Gesture.loop_frames st1 rest) as [[st2 e2]|] eqn:E2;
        [|discriminate].
      cbn [Py.bind]. intros [= <- <-].
      destruct (loop_frame_no_client _ _ _ _ Hc E1) as (-> & Hc1 & Hp1).
      destruct (IH _ _ _ Hc1 E2) as (-> & Hc2 & Hp2).
      repeat split; congruence.
Qed.

Lemma no_client_no_events_witness :
  exists st',
    Gesture.loop_frames Samples.five_shown [Samples.hand_frame; Samples.no_hand]
    = Some (st', []).
Proof.
  destruct (Gesture.loop_frames Samples.five_shown
              [Samples.hand_frame; Samples.no_hand]) as [[st' evs]|] eqn:E.
  - destruct (proj2 (no_client_no_events Samples.taxicab []
                       [Samples.hand_frame; Samples.no_hand])
                Samples.five_shown _ _ eq_refl E) as (-> & _).
    exists st'. reflexivity.
  - vm_compute in E. discriminate E.
Defined.

(** X13.  What is classified does not depend on the channel: two runs of a
    loop that start with the same detector (or counter and buffer) and see
    the same pictures end with the same detector (or buffer), whatever
    their clients, the values they last sent and the answers of their
    devices; if one run completes, so does the other. *)
Theorem classification_ignores_channel (hypot : Q -> Q -> Q) :
  (forall frs1 frs2 st1 st2 st1' e1,
      Expression.detector st1 = Expression.detector st2 ->
      map View.picture frs1 = map View.picture frs2 ->
      Expression.run_frames hypot st1 frs1 = Some (st1', e1) ->
      exists st2' e2,
        Expression.run_frames hypot st2 frs2 = Some (st2', e2)
        /\ Expression.detector st2' = Expression.detector st1')
  /\ (forall frs1 frs2 st1 st2 st1' e1,
        Gesture.hand_counter st1 = Gesture.hand_counter st2 ->
        Gesture.buffer st1 = Gesture.buffer st2 ->
        map View.hand_picture frs1 = map View.hand_picture frs2 ->
        Gesture.loop_frames st1 frs1 = Some (st1', e1) ->
        exists st2' e2,
          Gesture.loop_frames st2 frs2 = Some (st2', e2)
          /\ Gesture.buffer st2' = Gesture.buffer st1').
Proof.
  split.
  - induction frs1 as [|fr1 rest1 IH]; intros [|fr2 rest2] st1 st2 st1' e1 Hd Hm;
      try discriminate Hm.
    + intros [= <- <-]. do 2 eexists. split; [reflexivity | auto].
    + cbn [map] in Hm.
      assert (Hp : View.picture fr1 = View.picture fr2) by congruence.
      assert (Hm' : map View.picture rest1 = map View.picture rest2)
        by congruence.
      clear Hm; rename Hm' into Hm. cbn [Expression.run_frames].
      destruct (Expression.run_frame hypot st1 fr1) as [[s1 ev1]|] eqn:E1;
        [|discriminate].
      cbn [Py.bind].
      destruct (Expression.run_frames hypot s1 rest1) as [[s1' ev1']|] eqn:E1';
        [|discriminate].
      cbn [Py.bind]. intros [= <- <-].
      destruct (run_frame_same_detector hypot _ st2 _ _ fr2 _ Hd Hp E1)
        as (s2 & ev2 & -> & Hd2).
      cbn [Py.bind].
      destruct (IH rest2 s1 s2 _ _ (eq_sym Hd2) Hm E1') as (s2' & ev2' & -> & Hd2').
      cbn [Py.bind]. do 2 eexists. split; [reflexivity | exact Hd2'].
  - induction frs1 as [|fr1 rest1 IH];
      intros [|fr2 rest2] st1 st2 st1' e1 Hh Hb Hm; try discriminate Hm.
    + intros [= <- <-]. do 2 eexists. split; [reflexivity | auto].
    + cbn [map] in Hm.
      assert (Hp : View.hand_picture fr1 = View.hand_picture fr2) by congruence.
      assert (Hm' : map View.hand_picture rest1 = map View.hand_picture rest2)
        by congruence.
      clear Hm; rename Hm' into Hm. cbn [Gesture.loop_frames].
      destruct (Gesture.loop_frame st1 fr1) as [[s1 ev1]|] eqn:E1;
        [|discriminate].
      cbn [Py.bind].
      destruct (Gesture.loop_frames s1 rest1) as [[s1' ev1']|] eqn:E1';
        [|discriminate].
      cbn [Py.bind]. intros [= <- <-].
      destruct (loop_frame_same_buffer _ st2 _ _ fr2 _ Hh Hb Hp E1)
        as (s2 & ev2 & -> & Hh2 & Hb2).
      cbn [Py.bind].
      destruct (IH rest2 s1 s2 _ _ (eq_sym Hh2) (eq_sym Hb2) Hm E1')
        as (s2' & ev2' & -> & Hb2').
      cbn [Py.bind]. do 2 eexists. split; [reflexivity | exact Hb2'].
Qed.

(** ** Consecutive messages differ *)

Section EdgeFacts.
Import Py Serial Trace View.

Lemma no_repeat_snoc {A} (l : list A) (a : A) :
  no_repeat l ->
  match rev l with [] => True | b :: _ => b <> a end ->
  no_repeat (l ++ [a]).
Proof.
  induction l as [|x l IH]; intros Hn Hl; [exact I|].
  destruct l as [|y l].
  - simpl in *. split; auto.
  - cbn [app]. cbn [no_repeat] in Hn. destruct Hn as [Hxy Hn].
    change (x <> y /\ no_repeat ((y :: l) ++ [a])). split; [exact Hxy|].
    apply IH; [exact Hn|]. cbn [rev] in Hl |- *.
    destruct (rev l ++ [y])%list as [|b t] eqn:E.
    + destruct (rev l); discriminate E.
    + simpl in Hl. exact Hl.
Qed.

Lemma last_written_app_nil (pre evs : list event) :
  written evs = [] -> written (pre ++ evs) = written pre.
Proof. intros H. rewrite written_app, H, app_nil_r. reflexivity. Qed.

Lemma last_written_snoc (pre evs : list event) (msg : string) :
  written evs = [msg] -> last_written (pre ++ evs) = Some msg.
Proof.
  intros H. unfold last_written. rewrite written_app, H, rev_app_distr.
  reflexivity.
Qed.

Lemma line_inj (a b : Z) : line_of_int a = line_of_int b -> a = b.
Proof.
  unfold line_of_int. intros H. apply append_cancel_r in H.
  pose proof (digits_round_trip a) as Ha. rewrite H in Ha.
  rewrite digits_round_trip in Ha. congruence.
Qed.

Lemma count_gate_inv (client : option SerialClient) (prev : option Z)
    (avg : Z) (ok : bool) (pre : list event) :
  count_inv prev pre ->
  count_inv (snd (fst (Gesture.send_if_changed client prev avg ok)))
    (pre ++ snd (Gesture.send_if_changed client prev avg ok)).
Proof.
  intros [Hn Hl]. unfold Gesture.send_if_changed.
  destruct client as [c|]; [|simpl; rewrite app_nil_r; split; assumption].
  pose proof (same_count_iff avg prev) as Hs.
  destruct (Gesture.same_count avg prev);
    [simpl; rewrite app_nil_r; split; assumption|].
  assert (Hne : prev <> Some avg).
  { intros H. apply Hs in H. discriminate. }
  cbn [negb]. unfold send_count.
  destruct (negb (usable c)).
  { cbn [fst snd]. unfold count_inv, last_written in *.
    rewrite last_written_app_nil by reflexivity. split; assumption. }
  destruct (format_line avg) as [msg|] eqn:Ef.
  2:{ cbn [fst snd]. unfold count_inv, last_written in *.
      rewrite last_written_app_nil by reflexivity. split; assumption. }
  destruct (format_line_inv _ _ Ef) as [-> _].
  destruct ok; cbn [fst snd].
  - unfold count_inv. split.
    + rewrite written_app. cbn [written].
      apply no_repeat_snoc; [exact Hn|].
      unfold last_written in Hl. destruct (rev (written pre)) as [|b t]; [exact I|].
      destruct prev as [p|]; [|discriminate Hl]. simpl in Hl.
      injection Hl as ->. intros H. apply line_inj in H. congruence.
    + apply last_written_snoc. reflexivity.
  - unfold count_inv, last_written in *.
    rewrite last_written_app_nil by reflexivity. split; assumption.
Qed.

Lemma loop_frame_inv (st st' : Gesture.loop_state) (fr : Gesture.frame)
    (evs pre : list event) :
  count_inv (Gesture.prev_sent st) pre ->
  Gesture.loop_frame st fr = Some (st', evs) ->
  count_inv (Gesture.prev_sent st') (pre ++ evs).
Proof.
  intros Hinv. unfold Gesture.loop_frame.
  destruct (match Gesture.hands fr with
            | Some (hand_landmarks :: _) => _
            | _ => _
            end) as [c|]; [|discriminate].
  cbn [bind]. unfold Smoother.push_int.
  destruct (truediv _ _) as [m|]; [|discriminate]. cbn [bind].
  pose proof (count_gate_inv (Gesture.serial_client st) (Gesture.prev_sent st)
                (round m) (Gesture.write_ok fr) pre Hinv) as H.
  destruct (Gesture.send_if_changed _ _ _ _) as [[client prev] e].
  intros [= <- <-]. exact H.
Qed.

Lemma loop_frames_inv (frs : list Gesture.frame) :
  forall st st' evs pre,
    count_inv (Gesture.prev_sent st) pre ->
    Gesture.loop_frames st frs = Some (st', evs) ->
    count_inv (Gesture.prev_sent st') (pre ++ evs).
Proof.
  induction frs as [|fr rest IH]; intros st st' evs pre Hinv.
  - intros [= <- <-]. rewrite app_nil_r. exact Hinv.
  - cbn [Gesture.loop_frames].
    destruct (Gesture.loop_frame st fr) as [[s1 e1]|] eqn:E1; [|discriminate].
    cbn [bind].
    destruct (Gesture.loop_frames s1 rest) as [[s2 e2]|] eqn:E2; [|discriminate].
    cbn [bind]. intros [= <- <-]. rewrite app_assoc.
    eapply IH; [|exact E2]. eapply loop_frame_inv; eauto.
Qed.

End EdgeFacts.

(** X14.  In a run of the gesture loop from its start no two consecutive
    messages on the wire are equal, and the last message written, if any,
    is the value the loop holds as last sent; nothing was written exactly
    when it holds none. *)
Theorem gesture_wire_is_edge_triggered (smooth : Z)
    (client : option Serial.SerialClient) (st st' : Gesture.loop_state)
    (frs : list Gesture.frame) (evs : list Serial.event) :
  Gesture.loop_init smooth client = Some st ->
  Gesture.loop_frames st frs = Some (st', evs) ->
  Trace.no_repeat (Serial.written evs)
  /\ View.last_written evs
     = option_map Py.line_of_int (Gesture.prev_sent st')
  /\ (Gesture.prev_sent st' = None <-> Serial.written evs = []).
Proof.
  intros Hinit Hrun.
  assert (H0 : View.count_inv (Gesture.prev_sent st) []).
  { unfold Gesture.loop_init in Hinit.
    destruct (Py.deque_new (Z.max 1 smooth)) as [buf|]; [|discriminate].
    injection Hinit as <-. split; [exact I | reflexivity]. }
  destruct (loop_frames_inv frs st st' evs [] H0 Hrun) as [Hn Hl].
  simpl in Hn, Hl. split; [exact Hn|]. split; [exact Hl|].
  unfold View.last_written in Hl.
  destruct (Gesture.prev_sent st') as [p|]; simpl in Hl.
  - split; [discriminate|]. intros Hw. rewrite Hw in Hl. discriminate.
  - split; [|reflexivity]. intros _.
    destruct (rev (Serial.written evs)) eqn:E; [|discriminate].
    apply (f_equal (@rev string)) in E. rewrite rev_involutive in E. exact E.
Qed.

Lemma gesture_wire_is_edge_triggered_witness :
  exists st' evs,
    Gesture.loop_frames
      (Gesture.mk_loop (Gesture.mk_counter true true) (Py.mk_deque 1 []) None
         (Some Samples.open_client))
      [Samples.hand_frame; Samples.hand_frame; Samples.no_hand;
       Samples.hand_frame] = Some (st', evs)
    /\ Serial.written evs
       = ["5" ++ Py.newline; "0" ++ Py.newline; "5" ++ Py.newline]%string
    /\ Trace.no_repeat (Serial.written evs).
Proof.
  destruct (Gesture.loop_frames
              (Gesture.mk_loop (Gesture.mk_counter true true)
                 (Py.mk_deque 1 []) None (Some Samples.open_client))
              [Samples.hand_frame; Samples.hand_frame; Samples.no_hand;
               Samples.hand_frame]) as [[st' evs]|] eqn:E.
  - destruct (gesture_wire_is_edge_triggered 1 (Some Samples.open_client)
                _ st' _ evs eq_refl E) as (Hn & _).
    exists st', evs. split; [reflexivity|]. split; [|exact Hn].
    vm_compute in E. injection E as _ <-. reflexivity.
  - vm_compute in E. discriminate E.
Defined.

Section LabelEdgeFacts.
Import Py Serial Trace View.

Variable hypot : Q -> Q -> Q.

Lemma heuristics_label (self : Expression.SmileDetector) (a b : Q) :
  In (Expression.heuristics self a b) labels.
Proof.
  unfold Expression.heuristics, labels.
  destruct (_ && _); [simpl; auto|]. destruct (_ && _); simpl; auto.
Qed.

Lemma compute_label (self det : Expression.SmileDetector)
    (lms : list Mp.Landmark) (w h : Z) (label : string) (a b c : Q) :
  Expression.compute hypot self lms w h = Some (det, (label, a, b, c)) ->
  In label labels.
Proof.
  unfold Expression.compute.
  destruct (Expression.measure hypot lms w h) as [[[[m1 m2] m3] m4]|];
    [|discriminate].
  cbn [bind]. unfold Smoother.push.
  destruct (truediv _ _) as [aw|]; [|discriminate]. cbn [bind].
  destruct (truediv _ _) as [ac|]; [|discriminate]. cbn [bind].
  intros [= _ <- _ _ _]. apply heuristics_label.
Qed.

(** On the three labels the codes differ. *)
Lemma code_of_inj (l1 l2 : string) :
  In l1 labels -> In l2 labels -> code_of l1 = code_of l2 -> l1 = l2.
Proof.
  unfold labels. intros [<-|[<-|[<-|[]]]] [<-|[<-|[<-|[]]]];
    vm_compute; congruence.
Qed.

Lemma code_of_label (l : string) : In l labels -> exists v, code_of l = Some v.
Proof.
  unfold labels. intros [<-|[<-|[<-|[]]]]; eexists; reflexivity.
Qed.

Lemma signal_gate_inv (client : option SerialClient) (prev : option string)
    (label : string) (ok : bool) (pre : list event) :
  In label labels ->
  label_inv prev pre ->
  label_inv (snd (fst (Expression.send_if_changed client prev label ok)))
    (pre ++ snd (Expression.send_if_changed client prev label ok)).
Proof.
  intros Hlab [Hn Hl]. unfold Expression.send_if_changed.
  destruct client as [c|]; [|simpl; rewrite app_nil_r; split; assumption].
  pose proof (same_label_iff label prev) as Hs.
  destruct (Expression.same_label label prev);
    [simpl; rewrite app_nil_r; split; assumption|].
  assert (Hne : prev <> Some label).
  { intros H. apply Hs in H. discriminate. }
  cbn [negb]. unfold send_signal.
  destruct (negb (usable c)).
  { cbn [fst snd]. unfold label_inv, last_written in *.
    rewrite last_written_app_nil by reflexivity. split; assumption. }
  cbn [or_empty]. fold (code_of label).
  destruct (code_of_label label Hlab) as [val Hval]. rewrite Hval.
  rewrite (mapping_codes _ _ Hval).
  destruct ok; cbn [fst snd].
  - unfold label_inv. split.
    + rewrite written_app. cbn [written].
      apply no_repeat_snoc; [exact Hn|].
      unfold last_written in Hl.
      destruct (rev (written pre)) as [|b t]; [exact I|].
      destruct prev as [l|]; [|discriminate Hl].
      destruct Hl as [Hin Hl]. destruct (code_of_label l Hin) as [v Hv].
      rewrite Hv in Hl. simpl in Hl. injection Hl as ->.
      intros H. apply line_inj in H. subst v.
      apply Hne. f_equal. apply code_of_inj; auto. congruence.
    + split; [exact Hlab|]. rewrite Hval. apply last_written_snoc. reflexivity.
  - unfold label_inv, last_written in *.
    rewrite last_written_app_nil by reflexivity. split; assumption.
Qed.

Lemma run_frame_inv (st st' : Expression.run_state) (fr : Expression.frame)
    (evs pre : list event) :
  label_inv (Expression.prev_label st) pre ->
  Expression.run_frame hypot st fr = Some (st', evs) ->
  label_inv (Expression.prev_label st') (pre ++ evs).
Proof.
  intros Hinv. unfold Expression.run_frame.
  destruct (Expression.faces fr) as [[|f fs]|];
    try (intros [= <- <-]; rewrite app_nil_r; exact Hinv).
  destruct (index f Expression.L_IDX); [|discriminate].
  destruct (index f Expression.R_IDX); [|discriminate]. cbn [bind].
  destruct (Expression.compute hypot _ f _ _) as [[det [[[label a] b] c]]|] eqn:E;
    [|discriminate].
  cbn [bind].
  pose proof (signal_gate_inv (Expression.serial_client st)
                (Expression.prev_label st) label (Expression.write_ok fr) pre
                (compute_label _ _ _ _ _ _ _ _ _ E) Hinv) as H.
  destruct (Expression.send_if_changed _ _ _ _) as [[client prev] e].
  intros [= <- <-]. exact H.
Qed.

Lemma run_frames_inv (frs : list Expression.frame) :
  forall st st' evs pre,
    label_inv (Expression.prev_label st) pre ->
    Expression.run_frames hypot st frs = Some (st', evs) ->
    label_inv (Expression.prev_label st') (pre ++ evs).
Proof.
  induction frs as [|fr rest IH]; intros st st' evs pre Hinv.
  - intros [= <- <-]. rewrite app_nil_r. exact Hinv.
  - cbn [Expression.run_frames].
    destruct (Expression.run_frame hypot st fr) as [[s1 e1]|] eqn:E1;
      [|discriminate].
    cbn [bind].
    destruct (Expression.run_frames hypot s1 rest) as [[s2 e2]|] eqn:E2;
      [|discriminate].
    cbn [bind]. intros [= <- <-]. rewrite app_assoc.
    eapply IH; [|exact E2]. eapply run_frame_inv; eauto.
Qed.

End LabelEdgeFacts.

(** X15.  In a run of the expression loop that starts with nothing sent,
    no two consecutive messages on the wire are equal; the label the loop
    holds as last sent is one of ['smile'], ['frown'], ['neutral'] and the
    last message written is that label's code; the loop holds none exactly
    when nothing was written. *)
Theorem expression_wire_is_edge_triggered (hypot : Q -> Q -> Q)
    (st st' : Expression.run_state) (frs : list Expression.frame)
    (evs : list Serial.event) :
  Expression.prev_label st = None ->
  Expression.run_frames hypot st frs = Some (st', evs) ->
  Trace.no_repeat (Serial.written evs)
  /\ match Expression.prev_label st' with
     | None => Serial.written evs = []
     | Some l =>
         In l View.labels
         /\ View.last_written evs = option_map Py.line_of_int (View.code_of l)
         /\ Serial.written evs <> []
     end.
Proof.
  intros Hp Hrun.
  assert (H0 : View.label_inv (Expression.prev_label st) []).
  { rewrite Hp. split; [exact I | reflexivity]. }
  destruct (run_frames_inv hypot frs st st' evs [] H0 Hrun) as [Hn Hl].
  simpl in Hn, Hl. split; [exact Hn|].
  destruct (Expression.prev_label st') as [l|].
  - destruct Hl as [Hin Hl]. split; [exact Hin|]. split; [exact Hl|].
    intros Hw. unfold View.last_written in Hl. rewrite Hw in Hl.
    destruct (code_of_label l Hin) as [v Hv]. rewrite Hv in Hl. discriminate.
  - unfold View.last_written in Hl.
    destruct (rev (Serial.written evs)) eqn:E; [|discriminate].
    apply (f_equal (@rev string)) in E. rewrite rev_involutive in E. exact E.
Qed.

Lemma expression_wire_is_edge_triggered_witness :
  exists st' evs,
    Expression.run_frames Samples.taxicab Samples.at_start
      [Samples.face_frame; Samples.face_frame; Samples.no_face;
       Samples.face_frame] = Some (st', evs)
    /\ Serial.written evs = ["2" ++ Py.newline]%string
    /\ Trace.no_repeat (Serial.written evs).
Proof.
  destruct (Expression.run_frames Samples.taxicab Samples.at_start
              [Samples.face_frame; Samples.face_frame; Samples.no_face;
               Samples.face_frame]) as [[st' evs]|] eqn:E.
  - destruct (expression_wire_is_edge_triggered Samples.taxicab
                Samples.at_start st' _ evs eq_refl E) as (Hn & _).
    exists st', evs. split; [reflexivity|]. split; [|exact Hn].
    vm_compute in E. injection E as _ <-. reflexivity.
  - vm_compute in E. discriminate E.
Defined.

(** ** More on the finger counter *)

Section CounterMore.
Import Py Mp Gesture View.

Lemma Qltb_mirror (a b : Q) : Qltb (1 - a) (1 - b) = Qltb b a.
Proof.
  destruct (Qltb b a) eqn:E.
  - apply Qltb_lt. apply Qltb_lt in E.
    unfold Qminus. apply Qplus_lt_r. apply Qopp_lt_compat. exact E.
  - apply Qltb_ge. apply Qltb_ge in E.
    unfold Qminus. apply Qplus_le_r. apply Qopp_le_compat. exact E.
Qed.

Lemma index_mirror (lm : list Landmark) (i : nat) :
  index (mirror lm) i
  = option_map (fun p => mk_lm (1 - x p) (y p)) (index lm i).
Proof. unfold index, mirror. apply nth_error_map. Qed.

Lemma others_mirror (lm : list Landmark) (tips : list nat) :
  forall fingers, others (mirror lm) tips fingers = others lm tips fingers.
Proof.
  induction tips as [|t tips IH]; intros fingers; [reflexivity|].
  cbn [others]. rewrite !index_mirror.
  destruct (index lm t) as [tip|]; [|reflexivity].
  destruct (index lm (t - 2)) as [pip|]; [|reflexivity].
  cbn [option_map bind y]. apply IH.
Qed.

Lemma thumb_mirror (a f : bool) (label : option string) (tip joint : Landmark) :
  thumb (mk_counter a (negb f)) label
    (mk_lm (1 - x tip) (y tip)) (mk_lm (1 - x joint) (y joint))
  = thumb (mk_counter a f) label tip joint.
Proof.
  unfold thumb. cbn [assume_right_hand flipped x].
  rewrite !Qltb_mirror.
  destruct (String.eqb _ "Right"), f; reflexivity.
Qed.

Lemma thumb_other_hand (a f : bool) (tip joint : Landmark) :
  thumb (mk_counter a f) (Some "Right"%string) tip joint
  = thumb (mk_counter a (negb f)) (Some "Left"%string) tip joint.
Proof. unfold thumb. destruct f; reflexivity. Qed.

Lemma count_by_thumb (s1 s2 : HandCounter) (l1 l2 : option string)
    (lm : list Landmark) :
  (forall tip joint, thumb s1 l1 tip joint = thumb s2 l2 tip joint) ->
  count s1 lm l1 = count s2 lm l2.
Proof.
  intros H. unfold count.
  destruct (index lm 4) as [tip|]; [|reflexivity].
  destruct (index lm 3) as [joint|]; [|reflexivity].
  cbn [bind]. rewrite H. reflexivity.
Qed.

End CounterMore.

(** X16.  On a hand of 21 landmarks [count] returns 5 exactly when the
    thumb and all four fingers are extended, and 0 exactly when none
    is. *)
Theorem count_five_and_zero (self : Gesture.HandCounter)
    (lm : list Mp.Landmark) (label : option string) :
  (20 < List.length lm)%nat ->
  exists tip joint,
    Py.index lm 4 = Some tip /\ Py.index lm 3 = Some joint
    /\ (Gesture.count self lm label = Some 5
        <-> Gesture.thumb self label tip joint = 1
            /\ Gesture.extended lm 8 6 = true
            /\ Gesture.extended lm 12 10 = true
            /\ Gesture.extended lm 16 14 = true
            /\ Gesture.extended lm 20 18 = true)
    /\ (Gesture.count self lm label = Some 0
        <-> Gesture.thumb self label tip joint = 0
            /\ Gesture.extended lm 8 6 = false
            /\ Gesture.extended lm 12 10 = false
            /\ Gesture.extended lm 16 14 = false
            /\ Gesture.extended lm 20 18 = false).
Proof.
  intros Hlen.
  destruct (count_spec self lm label Hlen) as (tip & joint & H4 & H3 & Hc).
  exists tip, joint. split; [exact H4|]. split; [exact H3|].
  pose proof (thumb_bit self label tip joint) as Ht.
  rewrite Hc.
  destruct (Gesture.extended lm 8 6), (Gesture.extended lm 12 10),
    (Gesture.extended lm 16 14), (Gesture.extended lm 20 18);
    destruct Ht as [-> | ->]; cbn; split; split;
      intros; try discriminate; try reflexivity; intuition discriminate.
Qed.

Lemma count_five_and_zero_witness :
  Gesture.count (Gesture.mk_counter true true) Samples.fist None = Some 0.
Proof.
  destruct (count_five_and_zero (Gesture.mk_counter true true) Samples.fist
              None ltac:(simpl; lia)) as (tip & joint & H4 & H3 & _ & H0).
  injection H4 as <-. injection H3 as <-. apply H0. repeat split.
Defined.

(** X17.  The [flipped] flag makes up for a mirror: the count of a hand
    seen in a mirror (every x replaced by 1 - x) with the flag negated is
    the count of the hand itself; and a hand reported Right counts as the
    same hand reported Left with the flag negated. *)
Theorem flipped_compensates_mirror (a f : bool) (lm : list Mp.Landmark)
    (label : option string) :
  Gesture.count (Gesture.mk_counter a (negb f)) (View.mirror lm) label
  = Gesture.count (Gesture.mk_counter a f) lm label
  /\ Gesture.count (Gesture.mk_counter a f) lm (Some "Right"%string)
     = Gesture.count (Gesture.mk_counter a (negb f)) lm (Some "Left"%string).
Proof.
  split.
  - unfold Gesture.count. rewrite !index_mirror.
    destruct (Py.index lm 4) as [tip|]; [|reflexivity].
    destruct (Py.index lm 3) as [joint|]; [|reflexivity].
    cbn [option_map Py.bind]. rewrite thumb_mirror, others_mirror. reflexivity.
  - apply count_by_thumb. intros tip joint. apply thumb_other_hand.
Qed.

(** X18.  Only the exact label ['Right'] selects the right-hand rule: any
    other non-empty label, ['right'] or ['Unknown'] as much as ['Left'],
    counts as the left hand, and a non-empty label makes the configured
    default hand irrelevant. *)
Theorem label_other_than_right_is_left (self : Gesture.HandCounter)
    (lm : list Mp.Landmark) (label : string) (a : bool) :
  label <> EmptyString ->
  (label <> "Right"%string ->
   Gesture.count self lm (Some label) = Gesture.count self lm (Some "Left"%string))
  /\ Gesture.count self lm (Some label)
     = Gesture.count (Gesture.mk_counter a (Gesture.flipped self)) lm (Some label).
Proof.
  intros Hne. split.
  - intros Hr. apply count_by_thumb. intros tip joint. unfold Gesture.thumb.
    destruct label as [|c t]; [congruence|]. cbn [Py.truthy Py.or_empty].
    destruct (String.eqb_spec (String c t) "Right"); [congruence|]. reflexivity.
  - apply count_by_thumb. intros tip joint. unfold Gesture.thumb.
    destruct label as [|c t]; [congruence|]. reflexivity.
Qed.

Lemma label_other_than_right_is_left_witness :
  Gesture.count (Gesture.mk_counter true true) Samples.thumb_out
    (Some "right"%string) = Some 0
  /\ Gesture.count (Gesture.mk_counter true true) Samples.thumb_out
       (Some "Right"%string) = Some 1.
Proof.
  destruct (label_other_than_right_is_left (Gesture.mk_counter true true)
              Samples.thumb_out "right" true ltac:(discriminate)) as [H _].
  rewrite H by discriminate. split; reflexivity.
Defined.

Section CounterSupport.
Import Py Mp Gesture.

Lemma index_none {A} (l : list A) (i : nat) :
  (List.length l <= i)%nat -> index l i = None.
Proof. intros H. apply nth_error_None. exact H. Qed.

Lemma others_short (lm : list Landmark) (fingers : Z) :
  (List.length lm <= 20)%nat -> others lm [8; 12; 16; 20]%nat fingers = None.
Proof.
  intros H. cbn [others Nat.sub].
  destruct (index lm 8); [|reflexivity].
  destruct (index lm 6); [|reflexivity]. cbn [bind].
  destruct (index lm 12); [|reflexivity].
  destruct (index lm 10); [|reflexivity]. cbn [bind].
  destruct (index lm 16); [|reflexivity].
  destruct (index lm 14); [|reflexivity]. cbn [bind].
  rewrite (index_none lm 20 H). reflexivity.
Qed.

Lemma extended_by_y (lm1 lm2 : list Landmark) (t p : nat) :
  option_map y (index lm1 t) = option_map y (index lm2 t) ->
  option_map y (index lm1 p) = option_map y (index lm2 p) ->
  extended lm1 t p = extended lm2 t p.
Proof.
  unfold extended. intros Ht Hp.
  destruct (index lm1 t), (index lm2 t); try discriminate Ht;
    destruct (index lm1 p), (index lm2 p); try discriminate Hp; auto.
  simpl in Ht, Hp. injection Ht as ->. injection Hp as ->. reflexivity.
Qed.

Lemma thumb_by_x (self : HandCounter) (label : option string)
    (t1 j1 t2 j2 : Landmark) :
  x t1 = x t2 -> x j1 = x j2 ->
  thumb self label t1 j1 = thumb self label t2 j2.
Proof. intros Ht Hj. unfold thumb. rewrite Ht, Hj. reflexivity. Qed.

End CounterSupport.

(** X19.  [count] returns exactly when the landmark list has a landmark
    20, and then depends on nothing but the x of landmarks 3 and 4 and the
    y of landmarks 6, 8, 10, 12, 14, 16, 18 and 20: two hands that agree
    there have the same count. *)
Theorem count_reads_ten_coordinates (self : Gesture.HandCounter)
    (lm1 lm2 : list Mp.Landmark) (label : option string) :
  (Gesture.count self lm1 label <> None <-> (20 < List.length lm1)%nat)
  /\ ((20 < List.length lm1)%nat -> (20 < List.length lm2)%nat ->
      (forall i, In i [3; 4]%nat ->
         option_map Mp.x (Py.index lm1 i) = option_map Mp.x (Py.index lm2 i)) ->
      (forall i, In i [6; 8; 10; 12; 14; 16; 18; 20]%nat ->
         option_map Mp.y (Py.index lm1 i) = option_map Mp.y (Py.index lm2 i)) ->
      Gesture.count self lm1 label = Gesture.count self lm2 label).
Proof.
  split.
  - split.
    + intros Hc. destruct (Nat.lt_ge_cases 20 (List.length lm1)) as [|Hs]; auto.
      exfalso. apply Hc. unfold Gesture.count.
      destruct (Py.index lm1 4); [|reflexivity].
      destruct (Py.index lm1 3); [|reflexivity]. cbn [Py.bind].
      rewrite others_short by lia. reflexivity.
    + intros Hl. destruct (count_spec self lm1 label Hl) as (t & j & _ & _ & ->).
      discriminate.
  - intros H1 H2 Hx Hy.
    destruct (count_spec self lm1 label H1) as (t1 & j1 & Ht1 & Hj1 & ->).
    destruct (count_spec self lm2 label H2) as (t2 & j2 & Ht2 & Hj2 & ->).
    pose proof (Hx 4%nat ltac:(simpl; auto)) as Hx4.
    pose proof (Hx 3%nat ltac:(simpl; auto)) as Hx3.
    rewrite Ht1, Ht2 in Hx4. rewrite Hj1, Hj2 in Hx3.
    injection Hx4 as Hx4. injection Hx3 as Hx3.
    rewrite (thumb_by_x self label t1 j1 t2 j2 Hx4 Hx3).
    rewrite (extended_by_y lm1 lm2 8 6), (extended_by_y lm1 lm2 12 10),
      (extended_by_y lm1 lm2 16 14), (extended_by_y lm1 lm2 20 18);
      try reflexivity; apply Hy; simpl; auto 10.
Qed.

Lemma count_reads_ten_coordinates_witness :
  Gesture.count (Gesture.mk_counter true true)
    (repeat (Mp.mk_lm (1 # 2) (1 # 2)) 20) None = None
  /\ Gesture.count (Gesture.mk_counter true true) Samples.fist None <> None.
Proof.
  destruct (count_reads_ten_coordinates (Gesture.mk_counter true true)
              (repeat (Mp.mk_lm (1 # 2) (1 # 2)) 20) Samples.fist None)
    as [[Hshort _] _].
  destruct (count_reads_ten_coordinates (Gesture.mk_counter true true)
              Samples.fist Samples.fist None) as [[_ Hlong] _].
  split; [|apply Hlong; simpl; lia].
  destruct (Gesture.count (Gesture.mk_counter true true)
              (repeat (Mp.mk_lm (1 # 2) (1 # 2)) 20) None) eqn:E; [|reflexivity].
  exfalso. assert (H : (20 < 20)%nat) by (apply Hshort; discriminate). lia.
Defined.

(** ** More on the expression detector *)

Section DetectorMore.
Import Py Mp Expression View.

Variable hypot : Q -> Q -> Q.

Lemma measure_short (lms : list Landmark) (w h : Z) :
  (List.length lms <= R_IDX)%nat -> measure hypot lms w h = None.
Proof.
  intros H. unfold measure.
  destruct (index lms L_IDX); [|reflexivity]. cbn [bind].
  rewrite (index_none lms R_IDX H). reflexivity.
Qed.

(** What [compute] does to the detector when it returns. *)
Lemma compute_shape (self det : SmileDetector) (lms : list Landmark)
    (w h : Z) (out : string * Q * Q * Q) :
  compute hypot self lms w h = Some (det, out) ->
  exists a b,
    det = mk_detector (deque_append (mouth_buf self) a)
            (deque_append (corner_buf self) b)
            (smile_thresh self) (frown_thresh self) (corner_margin self)
    /\ snd (fst (fst out)) = a.
Proof.
  unfold compute.
  destruct (measure hypot lms w h) as [[[[m1 m2] m3] m4]|]; [|discriminate].
  cbn [bind]. unfold Smoother.push.
  destruct (truediv _ _) as [aw|]; [|discriminate]. cbn [bind].
  destruct (truediv _ _) as [ac|]; [|discriminate]. cbn [bind].
  intros [= <- <-]. exists m1, m2. split; reflexivity.
Qed.

Lemma run_frame_shape (st st' : run_state) (fr : frame)
    (evs : list Serial.event) :
  run_frame hypot st fr = Some (st', evs) ->
  if detected (faces fr)
  then exists a b,
      detector st'
      = mk_detector (deque_append (mouth_buf (detector st)) a)
          (deque_append (corner_buf (detector st)) b)
          (smile_thresh (detector st)) (frown_thresh (detector st))
          (corner_margin (detector st))
  else detector st' = detector st.
Proof.
  unfold run_frame.
  destruct (faces fr) as [[|f fs]|]; cbn [detected];
    try (intros [= <- <-]; reflexivity).
  destruct (index f L_IDX); [|discriminate].
  destruct (index f R_IDX); [|discriminate]. cbn [bind].
  destruct (compute hypot _ f _ _) as [[det out]|] eqn:E; [|discriminate].
  cbn [bind]. destruct out as [[[label a] b] c].
  destruct (send_if_changed _ _ _ _) as [[client prev] e].
  intros [= <- <-]. cbn [detector].
  destruct (compute_shape _ _ _ _ _ _ E) as (x1 & x2 & -> & _).
  exists x1, x2. reflexivity.
Qed.

Lemma run_frames_shape (frs : list frame) :
  forall st st' evs,
    run_frames hypot st frs = Some (st', evs) ->
    exists ms cs,
      List.length ms = seen frs /\ List.length cs = seen frs
      /\ detector st'
         = mk_detector (Smoother.feed (mouth_buf (detector st)) ms)
             (Smoother.feed (corner_buf (detector st)) cs)
             (smile_thresh (detector st)) (frown_thresh (detector st))
             (corner_margin (detector st)).
Proof.
  induction frs as [|fr rest IH]; intros st st' evs.
  - intros [= <- <-]. exists [], []. repeat split. destruct (detector st).
    reflexivity.
  - cbn [run_frames].
    destruct (run_frame hypot st fr) as [[s1 e1]|] eqn:E1; [|discriminate].
    cbn [bind].
    destruct (run_frames hypot s1 rest) as [[s2 e2]|] eqn:E2; [|discriminate].
    cbn [bind]. intros [= <- <-].
    destruct (IH _ _ _ E2) as (ms & cs & Hm & Hc & Hd).
    pose proof (run_frame_shape _ _ _ _ E1) as Hs.
    unfold seen in *. cbn [filter].
    destruct (detected (faces fr)).
    + destruct Hs as (a & b & Hs). exists (a :: ms), (b :: cs).
      cbn [List.length]. rewrite Hm, Hc, Hd, Hs. repeat split.
    + exists ms, cs. rewrite Hm, Hc, Hd, Hs. repeat split.
Qed.

End DetectorMore.

(** X20.  With buffers of capacity at least one, [compute] returns exactly
    when the face mesh has a landmark 291; however degenerate the mesh is
    otherwise, it does not raise.  When it returns, the thresholds and the
    capacities are as before and the second component of its result is the
    frame's own unsmoothed width, the value just appended. *)
Theorem compute_returns_iff_mouth_present (hypot : Q -> Q -> Q)
    (self : Expression.SmileDetector) (lms : list Mp.Landmark) (w h : Z) :
  (forall a b, (0 <= hypot a b)%Q) ->
  1 <= Py.maxlen (Expression.mouth_buf self) ->
  1 <= Py.maxlen (Expression.corner_buf self) ->
  (Expression.compute hypot self lms w h <> None
   <-> (Expression.R_IDX < List.length lms)%nat)
  /\ (forall det label mouth_w_norm mouth_w mouth_h,
        Expression.compute hypot self lms w h
        = Some (det, (label, mouth_w_norm, mouth_w, mouth_h)) ->
        Expression.smile_thresh det = Expression.smile_thresh self
        /\ Expression.frown_thresh det = Expression.frown_thresh self
        /\ Expression.corner_margin det = Expression.corner_margin self
        /\ Py.maxlen (Expression.mouth_buf det)
           = Py.maxlen (Expression.mouth_buf self)
        /\ Py.maxlen (Expression.corner_buf det)
           = Py.maxlen (Expression.corner_buf self)
        /\ Expression.mouth_buf det
           = Py.deque_append (Expression.mouth_buf self) mouth_w_norm).
Proof.
  intros Hh Hm Hc. split.
  - split.
    + intros Hr.
      destruct (Nat.lt_ge_cases Expression.R_IDX (List.length lms)) as [|Hs]; auto.
      exfalso. apply Hr. unfold Expression.compute.
      rewrite (measure_short hypot lms w h Hs). reflexivity.
    + intros Hl.
      destruct (compute_spec hypot Hh self lms w h Hm Hc Hl)
        as (a & b & c & d & _ & Hcomp).
      cbv zeta in Hcomp. rewrite Hcomp. discriminate.
  - intros det label a b c E.
    destruct (compute_shape hypot _ _ _ _ _ _ E) as (x1 & x2 & -> & Hx).
    simpl in Hx. subst x1. repeat split.
Qed.

Lemma compute_returns_iff_mouth_present_witness :
  Expression.compute Samples.taxicab Samples.default_detector
    (repeat (Mp.mk_lm 0 0) 468) 640 480 <> None
  /\ Expression.compute Samples.taxicab Samples.default_detector
       (repeat (Mp.mk_lm 0 0) 291) 640 480 = None.
Proof.
  assert (Hh : forall a b, (0 <= Samples.taxicab a b)%Q).
  { intros a b. unfold Samples.taxicab.
    apply (Qplus_le_compat 0 (Qabs a) 0 (Qabs b)); apply Qabs_nonneg. }
  destruct (compute_returns_iff_mouth_present Samples.taxicab
              Samples.default_detector (repeat (Mp.mk_lm 0 0) 468) 640 480
              Hh ltac:(simpl; lia) ltac:(simpl; lia)) as [[_ Hlong] _].
  destruct (compute_returns_iff_mouth_present Samples.taxicab
              Samples.default_detector (repeat (Mp.mk_lm 0 0) 291) 640 480
              Hh ltac:(simpl; lia) ltac:(simpl; lia)) as [[Hshort _] _].
  split.
  - apply Hlong. rewrite repeat_length. unfold Expression.R_IDX. lia.
  - destruct (Expression.compute Samples.taxicab Samples.default_detector
                (repeat (Mp.mk_lm 0 0) 291) 640 480) eqn:E; [|reflexivity].
    exfalso.
    assert (H : (Expression.R_IDX < List.length (repeat (Mp.mk_lm 0 0) 291))%nat)
      by (apply Hshort; discriminate).
    rewrite repeat_length in H. unfold Expression.R_IDX in H. lia.
Defined.

(** X21.  Over a run of the expression loop the two buffers move in
    lockstep: from a detector whose buffers are empty, after any frames
    both hold the same number of items, the smaller of the capacity and the
    number of frames in which a face was found; thresholds and capacities
    stay as configured. *)
Theorem buffers_move_in_lockstep (hypot : Q -> Q -> Q) (smooth : Z)
    (det : Expression.SmileDetector) (st st' : Expression.run_state)
    (frs : list Expression.frame) (evs : list Serial.event) :
  Expression.default_detector smooth = Some det ->
  Expression.detector st = det ->
  Expression.run_frames hypot st frs = Some (st', evs) ->
  let d := Expression.detector st' in
  Py.len (Py.items (Expression.mouth_buf d))
  = Z.min (Z.max 1 smooth) (Z.of_nat (View.seen frs))
  /\ Py.len (Py.items (Expression.corner_buf d))
     = Z.min (Z.max 1 smooth) (Z.of_nat (View.seen frs))
  /\ Py.maxlen (Expression.mouth_buf d) = Z.max 1 smooth
  /\ Py.maxlen (Expression.corner_buf d) = Z.max 1 smooth
  /\ Expression.smile_thresh d = (32 # 100)%Q
  /\ Expression.frown_thresh d = (22 # 100)%Q
  /\ Expression.corner_margin d = (15 # 1000)%Q.
Proof.
  intros Hdef Hdet Hrun d.
  destruct (detector_init_inv _ _ _ _ _ Hdef) as [Hdet' _].
  rewrite Hdet' in Hdet. clear Hdef Hdet'.
  destruct (run_frames_shape hypot frs st st' evs Hrun)
    as (ms & cs & Hm & Hc & Hd).
  subst d. rewrite Hd, Hdet.
  cbn [Expression.mouth_buf Expression.corner_buf Expression.smile_thresh
       Expression.frown_thresh Expression.corner_margin].
  pose proof (feed_window_from ms (Py.mk_deque (Z.max 1 smooth) [])
                ltac:(simpl; lia) ltac:(unfold Py.len; simpl; lia)) as H1.
  pose proof (feed_window_from cs (Py.mk_deque (Z.max 1 smooth) [])
                ltac:(simpl; lia) ltac:(unfold Py.len; simpl; lia)) as H2.
  cbn [Py.maxlen Py.items app] in H1, H2.
  rewrite H1, H2, !maxlen_feed. cbn [Py.maxlen].
  unfold Py.len. rewrite !lastn_length, Hm, Hc.
  repeat split; lia.
Qed.

Lemma buffers_move_in_lockstep_witness :
  exists st' evs,
    Expression.run_frames Samples.taxicab Samples.at_start
      [Samples.face_frame; Samples.no_face; Samples.face_frame]
    = Some (st', evs)
    /\ Py.len (Py.items (Expression.mouth_buf (Expression.detector st'))) = 2.
Proof.
  destruct (Expression.run_frames Samples.taxicab Samples.at_start
              [Samples.face_frame; Samples.no_face; Samples.face_frame])
    as [[st' evs]|] eqn:E.
  - destruct (buffers_move_in_lockstep Samples.taxicab 6
                Samples.default_detector Samples.at_start st' _ evs
                eq_refl eq_refl E) as (H & _).
    exists st', evs. split; [reflexivity | exact H].
  - vm_compute in E. discriminate E.
Defined.

(** ** Opening and closing over a session *)

Section SessionFacts.
Import Py Serial Trace Session.

Lemma count_nil (kind : event -> bool) : count kind [] = 0%nat.
Proof. reflexivity. Qed.

(** A call of a send method gives up the port or keeps it, and opens
    none. *)
Lemma do_call_holds (c : SerialClient) (k : call) :
  (holds (Some (snd (fst (do_call c k)))) + count is_close (snd (do_call c k))
   = holds (Some c))%nat
  /\ count is_open (snd (do_call c k)) = 0%nat.
Proof.
  destruct (usable c) eqn:Hu.
  - assert (Hs : _ser c <> None).
    { unfold usable in Hu. destruct (_ser c); [discriminate|].
      rewrite andb_false_r in Hu. discriminate. }
    destruct (do_call_usable c k Hu)
      as [(e & He & ->)|[(e & msg & He & ->)|[(e & msg & He & ->)|(e & He & ->)]]];
      cbn [fst snd]; unfold count; cbn [filter holds];
      destruct e; try discriminate He; cbn; destruct (_ser c); try congruence;
      split; reflexivity.
  - destruct (do_call_unusable c k Hu) as (e & -> & He). cbn [fst snd].
    unfold count. cbn [filter]. destruct e; try discriminate He; cbn;
      split; lia.
Qed.

Lemma signal_gate_holds (client : option SerialClient) (prev : option string)
    (label : string) (ok : bool) :
  let r := Expression.send_if_changed client prev label ok in
  (holds (fst (fst r)) + count is_close (snd r) = holds client)%nat
  /\ count is_open (snd r) = 0%nat.
Proof.
  unfold Expression.send_if_changed. destruct client as [c|]; [|split; reflexivity].
  destruct (negb (Expression.same_label label prev)); [|split; cbn; lia].
  pose proof (do_call_holds c (Call_signal (Some label) ok)) as H.
  cbn [do_call] in H.
  destruct (send_signal c (Some label) ok) as [[sent c'] evs]. exact H.
Qed.

Lemma count_gate_holds (client : option SerialClient) (prev : option Z)
    (avg : Z) (ok : bool) :
  let r := Gesture.send_if_changed client prev avg ok in
  (holds (fst (fst r)) + count is_close (snd r) = holds client)%nat
  /\ count is_open (snd r) = 0%nat.
Proof.
  unfold Gesture.send_if_changed. destruct client as [c|]; [|split; reflexivity].
  destruct (negb (Gesture.same_count avg prev)); [|split; cbn; lia].
  pose proof (do_call_holds c (Call_count avg ok)) as H.
  cbn [do_call] in H.
  destruct (send_count c avg ok) as [[sent c'] evs]. exact H.
Qed.

Lemma run_frame_holds (hypot : Q -> Q -> Q) (st st' : Expression.run_state)
    (fr : Expression.frame) (evs : list event) :
  Expression.run_frame hypot st fr = Some (st', evs) ->
  (holds (Expression.serial_client st') + count is_close evs
   = holds (Expression.serial_client st))%nat
  /\ count is_open evs = 0%nat.
Proof.
  unfold Expression.run_frame.
  destruct (Expression.faces fr) as [[|f fs]|];
    try (intros [= <- <-]; split; cbn; lia).
  destruct (index f Expression.L_IDX); [|discriminate].
  destruct (index f Expression.R_IDX); [|discriminate]. cbn [bind].
  destruct (Expression.compute hypot _ f _ _) as [[det [[[label a] b] c]]|];
    [|discriminate].
  cbn [bind].
  pose proof (signal_gate_holds (Expression.serial_client st)
                (Expression.prev_label st) label (Expression.write_ok fr)) as H.
  destruct (Expression.send_if_changed _ _ _ _) as [[client prev] e].
  intros [= <- <-]. exact H.
Qed.

Lemma loop_frame_holds (st st' : Gesture.loop_state) (fr : Gesture.frame)
    (evs : list event) :
  Gesture.loop_frame st fr = Some (st', evs) ->
  (holds (Gesture.serial_client st') + count is_close evs
   = holds (Gesture.serial_client st))%nat
  /\ count is_open evs = 0%nat.
Proof.
  unfold Gesture.loop_frame.
  destruct (match Gesture.hands fr with
            | Some (hand_landmarks :: _) => _
            | _ => _
            end) as [c|]; [|discriminate].
  cbn [bind]. unfold Smoother.push_int.
  destruct (truediv _ _) as [m|]; [|discriminate]. cbn [bind].
  pose proof (count_gate_holds (Gesture.serial_client st) (Gesture.prev_sent st)
                (round m) (Gesture.write_ok fr)) as H.
  destruct (Gesture.send_if_changed _ _ _ _) as [[client prev] e].
  intros [= <- <-]. exact H.
Qed.

Lemma run_until_holds (hypot : Q -> Q -> Q) (frs : list Expression.frame) :
  forall st,
    let r := run_until hypot st frs in
    (holds (Expression.serial_client (fst (fst r))) + count is_close (snd (fst r))
     = holds (Expression.serial_client st))%nat
    /\ count is_open (snd (fst r)) = 0%nat.
Proof.
  induction frs as [|fr rest IH]; intros st; [split; cbn; lia|].
  cbn [run_until].
  destruct (Expression.run_frame hypot st fr) as [[s1 e1]|] eqn:E1;
    [|split; cbn; lia].
  destruct (run_frame_holds hypot _ _ _ _ E1) as [H1 H2].
  specialize (IH s1). cbv zeta in IH.
  destruct (run_until hypot s1 rest) as [[s2 e2] raised]. cbn [fst snd] in *.
  rewrite !count_app. lia.
Qed.

Lemma loop_until_holds (frs : list Gesture.frame) :
  forall st,
    let r := loop_until st frs in
    (holds (Gesture.serial_client (fst (fst r))) + count is_close (snd (fst r))
     = holds (Gesture.serial_client st))%nat
    /\ count is_open (snd (fst r)) = 0%nat.
Proof.
  induction frs as [|fr rest IH]; intros st; [split; cbn; lia|].
  cbn [loop_until].
  destruct (Gesture.loop_frame st fr) as [[s1 e1]|] eqn:E1; [|split; cbn; lia].
  destruct (loop_frame_holds _ _ _ _ E1) as [H1 H2].
  specialize (IH s1). cbv zeta in IH.
  destruct (loop_until s1 rest) as [[s2 e2] raised]. cbn [fst snd] in *.
  rewrite !count_app. lia.
Qed.

Lemma finally_holds (client : option SerialClient) :
  count is_close (finally client) = holds client
  /\ count is_open (finally client) = 0%nat.
Proof.
  destruct client as [c|]; [|split; reflexivity].
  unfold finally, close, holds. destruct (_ser c); split; reflexivity.
Qed.

End SessionFacts.

Section SessionStart.
Import Py Serial Trace Session.

Lemma count_errors (kind : event -> bool) (p : string) (k : nat) :
  kind (Ev_open_error p) = false ->
  count kind (repeat (Ev_open_error p) k) = 0%nat.
Proof.
  intros Hk. unfold count. induction k as [|k IH]; [reflexivity|].
  cbn [repeat filter]. rewrite Hk. exact IH.
Qed.

(** With the default delay the constructor returns; the client a loop
    starts with holds a port exactly when an open succeeded, and nothing
    has been closed yet. *)
Lemma client_for_holds (noserial have_serial : bool) (port : option string)
    (baud : Z) (comports : list string) (can_open : string -> Z -> bool) :
  exists client e0,
    client_for noserial have_serial port baud comports can_open
    = (Some client, e0)
    /\ holds client = count is_open e0
    /\ count is_close e0 = 0%nat
    /\ (count is_open e0 <= 1)%nat.
Proof.
  unfold client_for.
  destruct (negb noserial && have_serial);
    [|do 2 eexists; split; [reflexivity|]; repeat split; cbn; lia].
  unfold init. destruct (truthy port && have_serial) eqn:Hg;
    [|do 2 eexists; split; [reflexivity|]; repeat split; cbn; lia].
  apply andb_true_iff in Hg. destruct Hg as [Hp _].
  unfold open. cbn [Serial.port Serial.retries Serial.delay]. rewrite Hp.
  cbn [open_candidates].
  destruct (try_open can_open default_delay (or_empty port) 1
              (Z.to_nat default_retries)) as [[s| |] evs] eqn:E.
  - destruct (try_open_opened can_open _ _ _ _ _ _ E)
      as [-> (k & -> & Hk & _)].
    do 2 eexists. split; [reflexivity|].
    cbn [holds _ser]. rewrite !count_app, !count_errors by reflexivity.
    cbn. repeat split; lia.
  - destruct (try_open_refused can_open _ _ _ _ _ E) as [-> _].
    do 2 eexists. split; [reflexivity|].
    cbn [holds _ser]. rewrite app_nil_r, !count_errors by reflexivity.
    repeat split; lia.
  - destruct (try_open_aborted can_open _ _ _ _ _ E) as [Hs _].
    discriminate Hs.
Qed.

End SessionStart.

(** X22.  Over a whole session of either loop whose camera opened and
    whose window size is at most [ssize_max], the port is closed as often
    as it was opened, at most once, whether the loop ended by itself or by
    an exception in a frame, and whether or not a write failed on the way.
    When the camera does not open, the function returns without closing
    the port it may have opened.  With a window size above [ssize_max]
    the buffer's construction raises before the loop is entered: the
    function ends by that exception and the port it may have opened is not
    closed. *)
Theorem session_closes_what_it_opened (hypot : Q -> Q -> Q)
    (port : option string) (baud smooth : Z)
    (noserial have_serial camera_ok : bool) (comports : list string)
    (can_open : string -> Z -> bool) (frs : list Expression.frame)
    (gfrs : list Gesture.frame) :
  let r := Session.run hypot port baud smooth noserial have_serial
             camera_ok comports can_open frs in
  let g := Session.run_camera_loop port baud smooth noserial
             have_serial camera_ok comports can_open gfrs in
  (camera_ok = true -> smooth <= Py.ssize_max ->
   Trace.count Trace.is_close (fst r) = Trace.count Trace.is_open (fst r)
   /\ Trace.count Trace.is_close (fst g) = Trace.count Trace.is_open (fst g))
  /\ (camera_ok = false ->
      Trace.count Trace.is_close (fst r) = 0%nat
      /\ Trace.count Trace.is_close (fst g) = 0%nat
      /\ snd r = false /\ snd g = false)
  /\ (camera_ok = true -> Py.ssize_max < smooth ->
      Trace.count Trace.is_close (fst r) = 0%nat
      /\ Trace.count Trace.is_close (fst g) = 0%nat
      /\ snd r = true /\ snd g = true
      /\ fst r = snd (Session.client_for noserial have_serial port baud
                        comports can_open)
      /\ fst g = fst r)
  /\ (Trace.count Trace.is_open (fst r) <= 1)%nat
  /\ (Trace.count Trace.is_open (fst g) <= 1)%nat.
Proof.
  intros r g. subst r g.
  unfold Session.run, Session.run_camera_loop.
  destruct (client_for_holds noserial have_serial port baud comports can_open)
    as (client & e0 & -> & Hh & Hc & Ho).
  cbn [snd].
  destruct camera_ok; cbn [negb fst snd].
  2:{ split; [discriminate|]. split; [intros _; auto|].
      split; [discriminate|]. split; exact Ho. }
  destruct (Z_le_gt_dec smooth Py.ssize_max) as [Hs|Hs].
  - unfold Expression.default_detector, Expression.SmileDetector_init,
      Gesture.loop_init.
    rewrite !(deque_new_max smooth Hs). cbn [Py.bind Py.ret].
    pose proof (run_until_holds hypot frs
                  (Expression.mk_run
                     (Expression.mk_detector (Py.mk_deque (Z.max 1 smooth) [])
                        (Py.mk_deque (Z.max 1 smooth) []) (32 # 100) (22 # 100)
                        (15 # 1000)) None client)) as H1.
    pose proof (loop_until_holds gfrs
                  (Gesture.mk_loop (Gesture.mk_counter true true)
                     (Py.mk_deque (Z.max 1 smooth) []) None client)) as H2.
    cbv zeta in H1, H2.
    destruct (Session.run_until hypot _ frs) as [[st e1] r1].
    destruct (Session.loop_until _ gfrs) as [[gst g1] r2].
    cbn [fst snd Expression.serial_client Gesture.serial_client] in *.
    destruct H1 as [H1 H1o]. destruct H2 as [H2 H2o].
    destruct (finally_holds (Expression.serial_client st)) as [F1 F1o].
    destruct (finally_holds (Gesture.serial_client gst)) as [F2 F2o].
    rewrite !count_app.
    split; [intros _ _; split; lia|]. split; [discriminate|].
    split; [intros _ Hlt; lia|]. split; lia.
  - unfold Expression.default_detector, Expression.SmileDetector_init,
      Gesture.loop_init.
    rewrite !deque_new_over by lia. cbn [Py.bind fst snd].
    split; [intros _ Hle; lia|]. split; [discriminate|].
    split; [intros _ _; repeat split; auto|]. split; exact Ho.
Qed.

Lemma session_closes_what_it_opened_witness :
  fst (Session.run_camera_loop (Some "/dev/ttyACM0"%string) 9600 1 false true
         true [] (fun _ attempt => attempt =? 2)
         [Samples.hand_frame;
          Gesture.mk_frame None None false;
          Gesture.mk_frame (Some [Samples.fist]) None true;
          Samples.hand_frame])
  = [Serial.Ev_open_error "/dev/ttyACM0"%string;
     Serial.Ev_open "/dev/ttyACM0"%string;
     Serial.Ev_send_count 5; Serial.Ev_write ("5" ++ Py.newline)%string;
     Serial.Ev_send_count 0; Serial.Ev_write_error ("0" ++ Py.newline)%string;
     Serial.Ev_close;
     Serial.Ev_send_count 0]
  /\ Trace.count Trace.is_close
       (fst (Session.run_camera_loop (Some "/dev/ttyACM0"%string) 9600 1 false
               true true [] (fun _ attempt => attempt =? 2)
               [Samples.hand_frame;
                Gesture.mk_frame None None false;
                Gesture.mk_frame (Some [Samples.fist]) None true;
                Samples.hand_frame]))
     = 1%nat
  /\ Session.run_camera_loop (Some "/dev/ttyACM0"%string) 9600 (2 ^ 63) false
       true true [] (fun _ _ => true) [Samples.hand_frame]
     = ([Serial.Ev_open "/dev/ttyACM0"%string], true).
Proof.
  split; [vm_compute; reflexivity|]. split.
  - destruct (session_closes_what_it_opened Samples.taxicab
                (Some "/dev/ttyACM0"%string) 9600 1 false true true []
                (fun _ attempt => attempt =? 2) []
                [Samples.hand_frame;
                 Gesture.mk_frame None None false;
                 Gesture.mk_frame (Some [Samples.fist]) None true;
                 Samples.hand_frame]) as [H _].
    destruct (H eq_refl ltac:(unfold Py.ssize_max; lia)) as [_ ->].
    vm_compute. reflexivity.
  - vm_compute. reflexivity.
Defined.

(** ** The port test utility *)

Section OpenPortFacts.
Import Py Serial Trace SerialTest.

Variable can_open : string -> Z -> bool.
Variable delay : Q.

(** [open_port] and the inner loop of [SerialClient.open] are the same
    loop. *)
Lemma open_port_from_try_open (port : string) :
  forall left attempt,
    open_port_from can_open port delay attempt left
    = try_open can_open delay port attempt left.
Proof.
  induction left as [|left IH]; intros attempt; [reflexivity|].
  cbn [open_port_from try_open]. rewrite IH. reflexivity.
Qed.

(** When the sleep returns, a port is obtained exactly when one of the
    attempts is accepted, and an exception never leaves the loop. *)
Lemma try_open_iff (port : string) :
  sleep delay = Some tt ->
  forall left attempt,
    ((exists s, fst (try_open can_open delay port attempt left) = Opened s)
     <-> exists j, (j < left)%nat
                   /\ can_open port (attempt + Z.of_nat j) = true)
    /\ fst (try_open can_open delay port attempt left) <> Aborted.
Proof.
  intros Hs left attempt.
  destruct (try_open can_open delay port attempt left) as [[s| |] evs] eqn:E;
    cbn [fst].
  - split; [|discriminate]. split; [|eauto].
    intros _. destruct (try_open_opened can_open delay _ _ _ _ _ E)
      as [_ (k & _ & Hk & Hok & _)]. eauto.
  - split; [|discriminate]. split; [intros [s Hx]; discriminate|].
    intros (j & Hj & Hok).
    destruct (try_open_refused can_open delay _ _ _ _ E) as [_ Hall].
    rewrite (Hall j Hj) in Hok. discriminate.
  - destruct (try_open_aborted can_open delay _ _ _ _ E) as [Hn _].
    congruence.
Qed.

(** Without a sleep that returns there is at most one refused attempt. *)
Lemma try_open_once (port : string) :
  sleep delay = None ->
  forall left attempt,
    try_open can_open delay port attempt (S left)
    = if can_open port attempt
      then (Opened (mk_handle port), [Ev_open port])
      else (Aborted, [Ev_open_error port]).
Proof.
  intros Hs left attempt. cbn [try_open]. rewrite Hs. reflexivity.
Qed.

Lemma try_open_attempts (port : string) :
  forall left attempt,
    fst (try_open can_open delay port attempt left) = Refused ->
    List.length (attempted (snd (try_open can_open delay port attempt left)))
    = left.
Proof.
  intros left attempt.
  destruct (try_open can_open delay port attempt left) as [r evs] eqn:E.
  cbn [fst snd]. intros ->.
  destruct (try_open_refused can_open delay _ _ _ _ E) as [-> _].
  rewrite repeat_attempted, repeat_length. reflexivity.
Qed.

End OpenPortFacts.

(** X23.  When the sleep between attempts returns, [open_port] returns a
    port exactly when one of the attempts 1..retries is accepted and
    returns [None] otherwise, having made all [retries] attempts; when the
    sleep raises, as it does for a negative delay, a refused first attempt
    is the only one and the exception leaves [open_port].  In every case a
    port that is returned is the port asked for, no more than [retries]
    attempts are made, and none with [retries <= 0].  [SerialClient.open]
    on a client with that port, that number of retries and that delay makes
    the same attempts, gets the same handle and raises in the same
    cases. *)
Theorem open_port_first_success (can_open : string -> Z -> bool)
    (port : string) (retries : Z) (delay : Q) (self : Serial.SerialClient)
    (comports : list string) :
  let r := SerialTest.open_port can_open port retries delay in
  (Py.sleep delay = Some tt ->
   ((exists s, fst r = Serial.Opened s)
    <-> exists k, 1 <= k <= retries /\ can_open port k = true)
   /\ fst r <> Serial.Aborted)
  /\ (Py.sleep delay = None -> 1 <= retries ->
      r = if can_open port 1
          then (Serial.Opened (Serial.mk_handle port), [Serial.Ev_open port])
          else (Serial.Aborted, [Serial.Ev_open_error port]))
  /\ (forall s, fst r = Serial.Opened s -> Serial.device s = port)
  /\ (List.length (Trace.attempted (snd r)) <= Z.to_nat retries)%nat
  /\ (fst r = Serial.Refused ->
      List.length (Trace.attempted (snd r)) = Z.to_nat retries)
  /\ (Serial.port self = Some port -> port <> EmptyString ->
      Serial.retries self = retries -> Serial.delay self = delay ->
      Serial._ser self = None ->
      let o := Serial.open self comports can_open in
      snd (fst o) = snd r
      /\ Serial._ser (fst (fst o))
         = match fst r with Serial.Opened s => Some s | _ => None end
      /\ (snd o = true <-> fst r = Serial.Aborted)).
Proof.
  intros r. subst r. unfold SerialTest.open_port.
  rewrite open_port_from_try_open.
  split; [|split; [|split; [|split; [|split]]]].
  - intros Hs.
    destruct (try_open_iff can_open delay port Hs (Z.to_nat retries) 1)
      as [Hiff Hna].
    split; [|exact Hna]. rewrite Hiff. split.
    + intros (j & Hj & Hok). exists (1 + Z.of_nat j). split; [lia | exact Hok].
    + intros (k & Hk & Hok). exists (Z.to_nat (k - 1)). split; [lia|].
      rewrite <- Hok. f_equal. lia.
  - intros Hs Hr.
    destruct (Z.to_nat retries) as [|left] eqn:El; [lia|].
    apply try_open_once. exact Hs.
  - intros s Hs.
    destruct (Serial.try_open can_open delay port 1 (Z.to_nat retries))
      as [r evs] eqn:E.
    cbn [fst] in Hs. subst r.
    destruct (try_open_opened can_open delay _ _ _ _ _ E) as [-> _].
    reflexivity.
  - apply try_open_attempted.
  - apply try_open_attempts.
  - intros Hp Hne Hr Hd Hs. unfold Serial.open. rewrite Hp, Hr, Hd.
    destruct port as [|c t]; [congruence|]. cbn [Py.truthy Py.or_empty].
    cbn [Serial.open_candidates].
    destruct (Serial.try_open can_open delay (String c t) 1 (Z.to_nat retries))
      as [[s| |] evs]; cbn [fst snd Serial._ser].
    + repeat split; discriminate.
    + rewrite app_nil_r. repeat split; auto; discriminate.
    + repeat split; auto.
Qed.

Lemma open_port_first_success_witness :
  SerialTest.open_port (fun _ attempt => attempt =? 2) "/dev/ttyUSB0" 3 1
  = (Serial.Opened (Serial.mk_handle "/dev/ttyUSB0"),
     [Serial.Ev_open_error "/dev/ttyUSB0"%string;
      Serial.Ev_open "/dev/ttyUSB0"%string])
  /\ SerialTest.open_port (fun _ attempt => attempt =? 2) "/dev/ttyUSB0" 3 (-1)
     = (Serial.Aborted, [Serial.Ev_open_error "/dev/ttyUSB0"%string]).
Proof.
  split; [reflexivity|].
  destruct (open_port_first_success (fun _ attempt => attempt =? 2)
              "/dev/ttyUSB0" 3 (-1) Samples.open_client [])
    as (_ & Hraise & _).
  apply Hraise; [reflexivity | lia].
Defined.
